(** * Lighthouse widget: the recommendation extractor and the proxy function

    A shallow embedding of [js/lighthouse-widget.js] (the functions
    [extractApiRecommendations], [getImpactLevel], [processDescription],
    [getFriendlyDescription], [getScoreColor], [callLighthouseAPI],
    [createResultsHTML], [setLoadingState] and [displayResults], and the
    listeners that [setupResultClickHandlers] and [setupFormHandler] add)
    and of [functions/api/lighthouse.js] (the handler [onRequestPost], and
    the requests that the platform gives to it), with the properties of
    both.

    JavaScript values are embedded as the values [JSON.parse] can produce,
    plus [undefined]. Numbers are IEEE 754 binary64 values ([spec_float] with
    precision 53 and maximal exponent 1024), strings are sequences of UTF-16
    code units. *)

From Stdlib Require Import ZArith QArith Ascii String SpecFloat.
From stdpp Require Import base option list gmap.

Set Warnings "-register-all".

Local Open Scope Z_scope.
Local Open Scope list_scope.

(** ** Strings *)

Module JsString.

(** A string is a sequence of 16-bit code units. *)
Definition t := list N.

(** The code units of an ASCII literal of the source. *)
Definition lit (s : string) : t := map N_of_ascii (list_ascii_of_string s).

(** The double quote, which the literals of the source contain. *)
Definition dquote : N := 34%N.

(** WhiteSpace and LineTerminator of ECMAScript: what [\s] matches and
    what [String.prototype.trim] removes. *)
Definition is_space (c : N) : bool :=
  ((9 <=? c) && (c <=? 13) || (c =? 32) || (c =? 160) || (c =? 0x1680)
   || (0x2000 <=? c) && (c <=? 0x200A)
   || (c =? 0x2028) || (c =? 0x2029) || (c =? 0x202F) || (c =? 0x205F)
   || (c =? 0x3000) || (c =? 0xFEFF))%N.

(** The longest prefix of [s] whose code units satisfy [p], and the rest. *)
Fixpoint span (p : N -> bool) (s : t) : t * t :=
  match s with
  | [] => ([], [])
  | c :: r => if p c then let '(a, b) := span p r in (c :: a, b) else ([], s)
  end.

Definition drop_while (p : N -> bool) (s : t) : t := snd (span p s).

(** [String.prototype.trim]. *)
Definition trim (s : t) : t :=
  reverse (drop_while is_space (reverse (drop_while is_space s))).

(** [s] without the prefix [p], when it starts with it. *)
Fixpoint strip_prefix (p s : t) : option t :=
  match p, s with
  | [], _ => Some s
  | a :: p', b :: s' => if (a =? b)%N then strip_prefix p' s' else None
  | _ :: _, [] => None
  end.

End JsString.

Abbreviation jsstring := JsString.t.
Abbreviation lit := JsString.lit.

(** ** Regular expressions

    A regular expression is embedded as its matcher: given the rest of the
    subject from the current position on, the length of the match that
    starts there, if there is one. Both expressions of the widget look at
    the subject from the current position on only. *)

Module RegExp.

Definition matcher := jsstring -> option nat.

Section Exec.
Variable re : matcher.

(** [subject.match(re)] for a global [re]: all the matches, from left to
    right. [skip] counts the code units of the current match that are
    still to be passed over; after an empty match the search moves on by
    one code unit. *)
Fixpoint match_all (s : jsstring) (skip : nat) : list jsstring :=
  match skip, s with
  | S k, _ :: r => match_all r k
  | S _, [] => []
  | O, [] => match re [] with Some _ => [[]] | None => [] end
  | O, _ :: r =>
      match re s with
      | Some n => take n s :: match_all r (pred n)
      | None => match_all r 0
      end
  end.

(** [subject.replace(re, '')] for a global [re]: the subject without
    its matches. *)
Fixpoint remove_all (s : jsstring) (skip : nat) : jsstring :=
  match skip, s with
  | S k, _ :: r => remove_all r k
  | S _, [] => []
  | O, [] => []
  | O, c :: r =>
      match re s with
      | Some (S k) => remove_all r k
      | Some O => c :: remove_all r 0
      | None => c :: remove_all r 0
      end
  end.

(** [subject.replace(re, '')] for a [re] that is not global: the subject
    without its leftmost match. *)
Fixpoint remove_first (s : jsstring) : jsstring :=
  match re s with
  | Some n => drop n s
  | None => match s with [] => [] | c :: r => c :: remove_first r end
  end.
End Exec.

End RegExp.

(** ** The two expressions of [processDescription] *)

(** The class [[^\s).,;]]. *)
Definition url_char (c : N) : bool :=
  negb (JsString.is_space c || (c =? 41) || (c =? 46) || (c =? 44) || (c =? 59))%N.

(** [https?:\/\/] at the start of [s]: what follows it. The optional [s] is
    tried first, and given up when [://] does not follow it. *)
Definition after_scheme (s : jsstring) : option jsstring :=
  match JsString.strip_prefix (lit "http") s with
  | None => None
  | Some r =>
      let without_s := JsString.strip_prefix (lit "://") r in
      match r with
      | 115%N :: r' =>
          match JsString.strip_prefix (lit "://") r' with
          | Some u => Some u
          | None => without_s
          end
      | _ => without_s
      end
  end.

(** [/(https?:\/\/[^\s).,;]+)/]: the scheme, then as many code units of the
    class as there are, at least one. *)
Definition urlRegex : RegExp.matcher := fun s =>
  match after_scheme s with
  | None => None
  | Some u =>
      match fst (JsString.span url_char u) with
      | [] => None
      | run => Some (length s - length u + length run)%nat
      end
  end.

(** The class [[.,)\s]]. *)
Definition trailing_char (c : N) : bool :=
  ((c =? 46) || (c =? 44) || (c =? 41) || JsString.is_space c)%N.

(** [/[.,)\s]+$/]: the code units of the class from here on, at least one,
    and then the end of the subject. *)
Definition trailingRegex : RegExp.matcher := fun s =>
  match JsString.span trailing_char s with
  | (_ :: run, []) => Some (S (length run))
  | _ => None
  end.

(** ** Values *)

(** The values [JSON.parse] produces, and [undefined]. The properties of an
    object are listed in the order of the text they were parsed from; of two
    properties with one name the later one is the property of the object. *)
Inductive jsval : Type :=
| JUndefined
| JNull
| JBool (b : bool)
| JNum (x : spec_float)
| JStr (s : jsstring)
| JArr (elems : list jsval)
| JObj (props : list (jsstring * jsval)).

Inductive exn : Type := TypeError | SyntaxError | URIError | RangeError.

(** A computation that returns a value or throws. *)
Inductive result (A : Type) : Type :=
| Ok (a : A)
| Throw (e : exn).
Arguments Ok {A} a.
Arguments Throw {A} e.

Definition bind {A B : Type} (r : result A) (k : A -> result B) : result B :=
  match r with Ok a => k a | Throw e => Throw e end.

Notation "'let*' x ':=' e 'in' k" := (bind e (fun x => k))
  (at level 10, x name, e at level 100, k at level 200).

Definition returns {A} (r : result A) : Prop := exists a, r = Ok a.

(** ** Numbers: binary64 *)

Module Number.

Definition prec : Z := 53.
Definition emax : Z := 1024.

(** The double nearest to [m * 2 ^ e]. *)
Definition of_dyadic (m e : Z) : spec_float := binary_normalize prec emax m e false.
Definition of_Z (n : Z) : spec_float := of_dyadic n 0.

Definition zero : spec_float := of_Z 0.
Definition one : spec_float := of_Z 1.
Definition half : spec_float := of_dyadic 1 (-1).
Definition hundred : spec_float := of_Z 100.
Definition nan : spec_float := S754_nan.

Definition mul : spec_float -> spec_float -> spec_float := SFmul prec emax.
Definition div : spec_float -> spec_float -> spec_float := SFdiv prec emax.
(** [x < y] and [x === y] on numbers: false when either is NaN. *)
Definition ltb : spec_float -> spec_float -> bool := SFltb.
Definition eqb : spec_float -> spec_float -> bool := SFeqb.

Definition valid (x : spec_float) : bool := valid_binary prec emax x.

(** [Math.round]: the nearest integer, a tie going up; zeros, infinities
    and NaN are returned as they are, and a negative argument that rounds
    to zero gives the negative zero. *)
Definition round (x : spec_float) : spec_float :=
  match x with
  | S754_finite s m e =>
      if 0 <=? e then x
      else
        let n := ((if s then - (2 * Z.pos m) else 2 * Z.pos m) + 2 ^ (- e)) / 2 ^ (1 - e) in
        if n =? 0 then S754_zero s else of_Z n
  | _ => x
  end.

(** The exact value of a finite double, as a fraction with the denominator
    [2 ^ 1074]: the exponent of a valid finite double is at least
    [-1074]. Infinities and NaN have no value. *)
Definition denominator : positive := (2 ^ 1074)%positive.

Definition to_Q (x : spec_float) : option Q :=
  match x with
  | S754_zero _ => Some (0 # denominator)
  | S754_finite s m e =>
      let n := Z.pos m * 2 ^ (e + 1074) in
      Some ((if s then - n else n) # denominator)
  | _ => None
  end.

End Number.

(** ** The operations of the language the program uses *)

(** [encodeURIComponent] on a string: the letters, the digits and
    [-_.!~*'()] are kept, every other code point is written as the bytes of
    its UTF-8 form, each as [%XX]; a surrogate that is not part of a pair
    throws. *)
Module URI.

Definition unescaped (c : N) : bool :=
  ((48 <=? c) && (c <=? 57) || (65 <=? c) && (c <=? 90) || (97 <=? c) && (c <=? 122)
   || (c =? 45) || (c =? 95) || (c =? 46) || (c =? 33) || (c =? 126) || (c =? 42)
   || (c =? 39) || (c =? 40) || (c =? 41))%N.

Definition hex_digit (d : N) : N := (if d <? 10 then 48 + d else 55 + d)%N.

Definition percent (byte : N) : jsstring :=
  [37%N; hex_digit (byte / 16); hex_digit (byte mod 16)].

Definition utf8 (cp : N) : list N :=
  (if cp <? 0x80 then [cp]
   else if cp <? 0x800 then [0xC0 + cp / 64; 0x80 + cp mod 64]
   else if cp <? 0x10000 then
     [0xE0 + cp / 4096; 0x80 + (cp / 64) mod 64; 0x80 + cp mod 64]
   else
     [0xF0 + cp / 262144; 0x80 + (cp / 4096) mod 64; 0x80 + (cp / 64) mod 64;
      0x80 + cp mod 64])%N.

Definition lead (c : N) : bool := ((0xD800 <=? c) && (c <=? 0xDBFF))%N.
Definition trail (c : N) : bool := ((0xDC00 <=? c) && (c <=? 0xDFFF))%N.

Fixpoint encodeURIComponent (s : jsstring) : result jsstring :=
  match s with
  | [] => Ok []
  | c :: r =>
      if unescaped c then let* t := encodeURIComponent r in Ok (c :: t)
      else if trail c then Throw URIError
      else if lead c then
        match r with
        | d :: r' =>
            if trail d then
              let cp := ((c - 0xD800) * 0x400 + (d - 0xDC00) + 0x10000)%N in
              let* t := encodeURIComponent r' in
              Ok (flat_map percent (utf8 cp) ++ t)
            else Throw URIError
        | [] => Throw URIError
        end
      else let* t := encodeURIComponent r in Ok (flat_map percent (utf8 c) ++ t)
  end.

End URI.

(** The two conversions of the language that the program relies on and
    never looks into: of a string to a number, and of a number to a
    string. *)
Class Builtins : Type := {
  StringToNumber : jsstring -> spec_float;
  NumberToString : spec_float -> jsstring
}.

Definition ToBoolean (v : jsval) : bool :=
  match v with
  | JUndefined | JNull => false
  | JBool b => b
  | JNum (S754_zero _) | JNum S754_nan => false
  | JNum _ => true
  | JStr [] => false
  | JStr _ => true
  | JArr _ | JObj _ => true
  end.

(** [a || b]. *)
Definition or_else (a b : jsval) : jsval := if ToBoolean a then a else b.

Definition typeof (v : jsval) : jsstring :=
  match v with
  | JUndefined => lit "undefined"
  | JBool _ => lit "boolean"
  | JNum _ => lit "number"
  | JStr _ => lit "string"
  | JNull | JArr _ | JObj _ => lit "object"
  end.

(** The own property [k] of an object with the properties [props]. *)
Fixpoint own_property (props : list (jsstring * jsval)) (k : jsstring) : option jsval :=
  match props with
  | [] => None
  | (k', v) :: rest =>
      match own_property rest k with
      | Some w => Some w
      | None => if decide (k' = k) then Some v else None
      end
  end.

(** [v[k]] and [v.k]. Reading a property of [null] or [undefined] throws.
    The names the program reads are the audit identifiers and the field
    names of the source; none is an index, [length] or a name that a
    prototype provides, so on a value without that own property the result
    is [undefined]. *)
Definition Get (v : jsval) (k : jsstring) : result jsval :=
  match v with
  | JUndefined | JNull => Throw TypeError
  | JObj props => Ok (default JUndefined (own_property props k))
  | _ => Ok JUndefined
  end.

Section Coercions.
Context `{Builtins}.

(** [ToString]. An array is joined with commas, [null] and [undefined]
    elements giving the empty string. An object parsed from JSON gives
    [[object Object]], unless it has an own property [toString]: that
    property is no function, and no conversion is left. *)
Fixpoint ToString (v : jsval) : result jsstring :=
  match v with
  | JUndefined => Ok (lit "undefined")
  | JNull => Ok (lit "null")
  | JBool true => Ok (lit "true")
  | JBool false => Ok (lit "false")
  | JNum x => Ok (NumberToString x)
  | JStr s => Ok s
  | JArr elems =>
      (fix join (l : list jsval) : result jsstring :=
         match l with
         | [] => Ok []
         | e :: rest =>
             let* s := match e with JUndefined | JNull => Ok [] | _ => ToString e end in
             match rest with
             | [] => Ok s
             | _ => let* t := join rest in Ok (s ++ lit "," ++ t)
             end
         end) elems
  | JObj props =>
      match own_property props (lit "toString") with
      | Some _ => Throw TypeError
      | None => Ok (lit "[object Object]")
      end
  end.

(** [Array.prototype.join] with the separator [sep]. *)
Fixpoint join (sep : jsstring) (l : list jsval) : result jsstring :=
  match l with
  | [] => Ok []
  | e :: rest =>
      let* s := match e with JUndefined | JNull => Ok [] | _ => ToString e end in
      match rest with
      | [] => Ok s
      | _ => let* t := join sep rest in Ok (s ++ sep ++ t)
      end
  end.

(** [ToNumber]: arrays and objects are converted through their string. *)
Definition ToNumber (v : jsval) : result spec_float :=
  match v with
  | JUndefined => Ok Number.nan
  | JNull => Ok Number.zero
  | JBool true => Ok Number.one
  | JBool false => Ok Number.zero
  | JNum x => Ok x
  | JStr s => Ok (StringToNumber s)
  | JArr _ | JObj _ => let* s := ToString v in Ok (StringToNumber s)
  end.

(** [v < y] for a number [y]. *)
Definition less_than (v : jsval) (y : spec_float) : result bool :=
  let* x := ToNumber v in Ok (Number.ltb x y).

(** [v === null]. *)
Definition strict_equals_null (v : jsval) : bool :=
  match v with JNull => true | _ => false end.

(** [v === y] for a number [y]. *)
Definition strict_equals_number (v : jsval) (y : spec_float) : bool :=
  match v with JNum x => Number.eqb x y | _ => false end.
End Coercions.

(** ** The widget: [js/lighthouse-widget.js] *)

(** The strings ['High'], ['Medium'] and ['Low']. *)
Inductive ImpactLevel : Type := High | Medium | Low.

(** The object pushed for an audit. *)
Record Recommendation : Type := {
  title : jsval;
  description : jsval;
  learnMoreUrl : jsval;
  impact : ImpactLevel;
  score : spec_float;
  displayValue : jsval
}.

(** The object [recommendations] of [extractApiRecommendations]. *)
Record Recommendations : Type := {
  performance : list Recommendation;
  accessibility : list Recommendation;
  bestPractices : list Recommendation;
  seo : list Recommendation
}.

Inductive category : Type := Performance | Accessibility | BestPractices | Seo.

#[export] Instance category_eq_dec : EqDecision category.
Proof. solve_decision. Defined.

Definition performanceAudits : list jsstring := [
  lit "largest-contentful-paint"; lit "first-contentful-paint"; lit "speed-index";
  lit "cumulative-layout-shift"; lit "total-blocking-time"; lit "render-blocking-resources";
  lit "unused-css-rules"; lit "unused-javascript"; lit "modern-image-formats";
  lit "efficiently-encode-images"; lit "offscreen-images"; lit "unminified-css";
  lit "unminified-javascript"; lit "server-response-time"; lit "uses-text-compression";
  lit "uses-rel-preconnect"; lit "uses-rel-preload"; lit "font-display" ].

Definition accessibilityAudits : list jsstring := [
  lit "color-contrast"; lit "image-alt"; lit "label"; lit "link-name";
  lit "button-name"; lit "document-title"; lit "html-has-lang";
  lit "meta-viewport"; lit "heading-order"; lit "skip-link";
  lit "focus-traps"; lit "focusable-controls"; lit "interactive-element-affordance" ].

Definition bestPracticesAudits : list jsstring := [
  lit "is-on-https"; lit "uses-http2"; lit "no-vulnerable-libraries";
  lit "external-anchors-use-rel-noopener"; lit "geolocation-on-start";
  lit "notification-on-start"; lit "no-document-write"; lit "js-libraries" ].

Definition seoAudits : list jsstring := [
  lit "document-title"; lit "meta-description"; lit "http-status-code";
  lit "link-text"; lit "is-crawlable"; lit "robots-txt"; lit "image-alt";
  lit "hreflang"; lit "canonical"; lit "font-size"; lit "tap-targets" ].

(** The allowlist of a category and its sequence in the result. *)
Definition allowlist (c : category) : list jsstring :=
  match c with
  | Performance => performanceAudits
  | Accessibility => accessibilityAudits
  | BestPractices => bestPracticesAudits
  | Seo => seoAudits
  end.

Definition sequence_of (c : category) (r : Recommendations) : list Recommendation :=
  match c with
  | Performance => performance r
  | Accessibility => accessibility r
  | BestPractices => bestPractices r
  | Seo => seo r
  end.

(** [recommendations.c.push(rec)]. *)
Definition push (c : category) (rec : Recommendation) (r : Recommendations) : Recommendations :=
  match c with
  | Performance =>
      {| performance := performance r ++ [rec]; accessibility := accessibility r;
         bestPractices := bestPractices r; seo := seo r |}
  | Accessibility =>
      {| performance := performance r; accessibility := accessibility r ++ [rec];
         bestPractices := bestPractices r; seo := seo r |}
  | BestPractices =>
      {| performance := performance r; accessibility := accessibility r;
         bestPractices := bestPractices r ++ [rec]; seo := seo r |}
  | Seo =>
      {| performance := performance r; accessibility := accessibility r;
         bestPractices := bestPractices r; seo := seo r ++ [rec] |}
  end.

(** The properties of the object literal [friendlyDescriptions], in the
    order of the source. ['document-title'] is written twice. *)
Definition friendlyEntries : list (jsstring * jsstring) := [
    (lit "largest-contentful-paint",
     lit "The main content on your page takes too long to load. This affects how quickly users can see and interact with your site.");
    (lit "first-contentful-paint",
     lit "Your page takes too long to show any content to users. Faster loading improves user experience.");
    (lit "speed-index",
     lit "Your page content loads slowly. Optimizing images and code can make your site feel much faster.");
    (lit "cumulative-layout-shift",
     lit "Elements on your page move around while loading, which can be frustrating for users trying to click buttons or read content.");
    (lit "total-blocking-time",
     lit "Scripts on your page are preventing users from interacting with it quickly. Optimizing JavaScript will make your site more responsive.");
    (lit "render-blocking-resources",
     lit "Some files are preventing your page from loading quickly. Moving or optimizing these files will speed up your site.");
    (lit "unused-css-rules",
     lit "Your site is loading CSS styles that aren't being used, which slows down loading time.");
    (lit "unused-javascript",
     lit "Your site is loading JavaScript code that isn't being used, which affects performance.");
    (lit "modern-image-formats",
     lit "Your images could be in more efficient formats (like WebP) to load faster and use less bandwidth.");
    (lit "efficiently-encode-images",
     lit "Your images aren't optimized, making them larger than necessary and slower to load.");
    (lit "offscreen-images",
     lit "Images that aren't visible when the page first loads should be loaded later to improve initial loading speed.");
    (lit "unminified-css",
     lit "Your CSS files contain extra spaces and comments that make them larger than necessary.");
    (lit "unminified-javascript",
     lit "Your JavaScript files contain extra spaces and comments that make them larger than necessary.");
    (lit "server-response-time",
     lit "Your web server takes too long to respond, which delays page loading for all visitors.");
    (lit "uses-text-compression",
     lit "Your text files aren't compressed, making them take longer to download.");
    (lit "uses-rel-preconnect",
     lit "Your site could load faster by connecting to external services earlier in the loading process.");
    (lit "uses-rel-preload",
     lit "Important resources could be loaded earlier to improve page speed.");
    (lit "font-display",
     lit "Your custom fonts could be set up to show text faster while the fonts are loading.");
    (* Accessibility *)
    (lit "color-contrast",
     lit "Some text on your site is hard to read due to insufficient color contrast, making it difficult for users with vision impairments.");
    (lit "image-alt",
     lit "Some images are missing descriptions, making them inaccessible to screen readers and users with visual impairments.");
    (lit "label",
     lit "Some form fields are missing labels, making it difficult for users with disabilities to understand what information to enter.");
    (lit "link-name",
     lit "Some links don't have descriptive text, making it unclear where they lead for screen reader users.");
    (lit "button-name",
     lit "Some buttons don't have clear names, making it confusing for users with disabilities to understand their purpose.");
    (lit "document-title",
     lit "Your page is missing a title or has a generic title, which affects accessibility and SEO.");
    (lit "html-has-lang",
     lit "Your page doesn't specify its language, which can cause problems for screen readers and translation tools.");
    (lit "meta-viewport",
     lit "Your page isn't set up properly for mobile devices, which can cause accessibility and usability issues.");
    (lit "heading-order",
     lit "Your page headings aren't in the correct order, which can confuse screen reader users navigating your content.");
    (lit "skip-link",
     lit "Your page is missing a " ++ JsString.dquote :: lit "skip to main content" ++ JsString.dquote :: lit " link, making navigation difficult for keyboard users.");
    (* Best Practices *)
    (lit "is-on-https",
     lit "Your website isn't using HTTPS, which means data sent between users and your site isn't encrypted and secure.");
    (lit "uses-http2",
     lit "Your server could use HTTP/2 to load your site faster and more efficiently.");
    (lit "no-vulnerable-libraries",
     lit "Your site is using outdated code libraries that have known security vulnerabilities.");
    (lit "external-anchors-use-rel-noopener",
     lit "Links to other websites should be set up more securely to protect your users.");
    (lit "geolocation-on-start",
     lit "Your site asks for location permission immediately, which can be annoying and suspicious to users.");
    (lit "notification-on-start",
     lit "Your site asks for notification permission immediately, which creates a poor user experience.");
    (lit "no-document-write",
     lit "Your site uses outdated JavaScript methods that can slow down page loading.");
    (lit "js-libraries",
     lit "Your site is using outdated JavaScript libraries that should be updated for better performance and security.");
    (* SEO *)
    (lit "document-title",
     lit "Your page title is missing or not optimized, which hurts your search engine rankings.");
    (lit "meta-description",
     lit "Your page is missing a meta description, which is important for search engine results.");
    (lit "http-status-code",
     lit "Your page isn't returning the correct status code, which can hurt search engine indexing.");
    (lit "link-text",
     lit "Some of your links use generic text like " ++ JsString.dquote :: lit "click here" ++ JsString.dquote :: lit " instead of descriptive text that helps with SEO.");
    (lit "is-crawlable",
     lit "Search engines are being blocked from indexing your page, which will hurt your search rankings.");
    (lit "robots-txt",
     lit "Your robots.txt file has issues that might prevent search engines from properly indexing your site.");
    (lit "hreflang",
     lit "If your site serves multiple languages, it needs proper language tags for international SEO.");
    (lit "canonical",
     lit "Your page needs canonical tags to prevent duplicate content issues in search results.");
    (lit "font-size",
     lit "Some text on your page is too small for mobile users, which can hurt mobile search rankings.");
    (lit "tap-targets",
     lit "Some buttons and links on mobile are too small or too close together, making them hard to tap.")
  ].

(** The object the literal evaluates to: the properties are defined one
    after the other, a later one replacing an earlier one of its name. *)
Definition friendlyDescriptions : gmap jsstring jsstring :=
  foldl (fun m kv => <[kv.1 := kv.2]> m) ∅ friendlyEntries.

(** [friendlyDescriptions[auditId] || originalDescription]. The identifiers
    passed are those of the allowlists; none names a property that the
    object inherits. *)
Definition getFriendlyDescription (auditId : jsstring) (originalDescription : jsval) : jsval :=
  or_else (from_option JStr JUndefined (friendlyDescriptions !! auditId)) originalDescription.

(** [processDescription]. A description that is neither falsy nor a string
    has no method [match], and calling it throws. *)
Definition processDescription (description : jsval) : result jsval :=
  if negb (ToBoolean description) then Ok (JStr [])
  else
    match description with
    | JStr s =>
        match RegExp.match_all urlRegex s 0 with
        | [] => Ok description
        | first :: _ =>
            let cleanDescription := JsString.trim (RegExp.remove_all urlRegex s 0) in
            let cleanDescription :=
              JsString.trim (RegExp.remove_first trailingRegex cleanDescription) in
            Ok (JObj [(lit "text", JStr cleanDescription);
                      (lit "learnMoreUrl", JStr first)])
        end
    | _ => Throw TypeError
    end.

Section Widget.
Context `{Builtins}.

Definition getImpactLevel (score : jsval) : result ImpactLevel :=
  if strict_equals_number score Number.zero then Ok High
  else
    let* below := less_than score Number.half in
    Ok (if below then Medium else Low).

(** [audit && audit.score !== null && audit.score < 1 && audit.title &&
    audit.description], as the condition of the [if]. *)
Definition qualifies (audit : jsval) : result bool :=
  if negb (ToBoolean audit) then Ok false
  else
    let* score := Get audit (lit "score") in
    if strict_equals_null score then Ok false
    else
      let* below := less_than score Number.one in
      if negb below then Ok false
      else
        let* title := Get audit (lit "title") in
        if negb (ToBoolean title) then Ok false
        else
          let* description := Get audit (lit "description") in
          Ok (ToBoolean description).

(** [typeof processedDesc === 'string' ? processedDesc : processedDesc.text]. *)
Definition description_of (processedDesc : jsval) : result jsval :=
  if bool_decide (typeof processedDesc = lit "string") then Ok processedDesc
  else Get processedDesc (lit "text").

(** [typeof processedDesc === 'object' ? processedDesc.learnMoreUrl : null]. *)
Definition learnMoreUrl_of (processedDesc : jsval) : result jsval :=
  if bool_decide (typeof processedDesc = lit "object")
  then Get processedDesc (lit "learnMoreUrl")
  else Ok JNull.

(** The object literal of the [push]. *)
Definition recommendation (auditId : jsstring) (audit : jsval) : result Recommendation :=
  let* original := Get audit (lit "description") in
  let friendlyDescription := getFriendlyDescription auditId original in
  let* processedDesc := processDescription friendlyDescription in
  let* title := Get audit (lit "title") in
  let* description := description_of processedDesc in
  let* learnMoreUrl := learnMoreUrl_of processedDesc in
  let* score := Get audit (lit "score") in
  let* level := getImpactLevel score in
  let* x := ToNumber score in
  let* displayValue := Get audit (lit "displayValue") in
  Ok {| title := title;
        description := description;
        learnMoreUrl := learnMoreUrl;
        impact := level;
        score := Number.round (Number.mul x Number.hundred);
        displayValue := or_else displayValue (JStr []) |}.

(** The callback of a [forEach]. The four callbacks of the source have
    this one body and differ in the sequence they push to. *)
Definition callback (c : category) (audits : jsval) (auditId : jsstring)
    (r : Recommendations) : result Recommendations :=
  let* audit := Get audits auditId in
  let* ok := qualifies audit in
  if ok then let* rec := recommendation auditId audit in Ok (push c rec r) else Ok r.

(** [ids.forEach(f)], [f] working on the state [st]. *)
Fixpoint forEach {St : Type} (f : jsstring -> St -> result St) (ids : list jsstring)
    (st : St) : result St :=
  match ids with
  | [] => Ok st
  | auditId :: rest => let* st' := f auditId st in forEach f rest st'
  end.

Definition extractApiRecommendations (audits : jsval) : result Recommendations :=
  let recommendations :=
    {| performance := []; accessibility := []; bestPractices := []; seo := [] |} in
  let* r := forEach (callback Performance audits) performanceAudits recommendations in
  let* r := forEach (callback Accessibility audits) accessibilityAudits r in
  let* r := forEach (callback BestPractices audits) bestPracticesAudits r in
  let* r := forEach (callback Seo audits) seoAudits r in
  Ok r.
End Widget.

(** ** The proxy function: [functions/api/lighthouse.js] *)

(** The response of the upstream service as the handler sees it: its status
    and what [response.json()] gives, a value or a rejection. *)
Record Fetched : Type := {
  fetched_status : Z;
  fetched_json : result jsval
}.

(** [response.ok]. *)
Definition ok (response : Fetched) : bool :=
  (200 <=? fetched_status response) && (fetched_status response <=? 299).

(** The request: its method and what [request.json()] gives. *)
Record Request : Type := {
  method : jsstring;
  json : result jsval
}.

(** [env]: the variable is a string, or [undefined] when it is not set. *)
Record Env : Type := {
  GOOGLE_PAGESPEED_API_KEY : jsval
}.

Record Context : Type := {
  request : Request;
  env : Env
}.

(** A response of the handler. The body is [null] or the text that
    [JSON.stringify] gives for the value. *)
Record Response : Type := {
  body : option jsval;
  status : Z;
  headers : list (jsstring * jsstring)
}.

(** The header [name] of a response. *)
Definition header (name : jsstring) (r : Response) : option jsstring :=
  snd <$> last (filter (fun kv => kv.1 = name) (headers r)).

(** The statuses that go with no body. *)
Definition null_body_status (st : Z) : bool :=
  (st =? 101) || (st =? 103) || (st =? 204) || (st =? 205) || (st =? 304).

(** [new Response(body, { status, headers })]: a status outside 200..599
    and a body with a status that goes with none are refused. *)
Definition new_Response (b : option jsval) (st : Z) (hs : list (jsstring * jsstring)) :
    result Response :=
  if (st <? 200) || (599 <? st) then Throw RangeError
  else if bool_decide (is_Some b) && null_body_status st then Throw TypeError
  else Ok {| body := b; status := st; headers := hs |}.

(** What the handler does to the world, in order. *)
Inductive event : Type :=
| ConsoleError
| Fetch (url : jsstring).

(** A step of the handler: its outcome, and what it did. *)
Definition io (A : Type) : Type := result A * list event.

Definition io_bind {A B : Type} (m : io A) (k : A -> io B) : io B :=
  match m with
  | (Ok a, log) => let '(r, log') := k a in (r, log ++ log')
  | (Throw e, log) => (Throw e, log)
  end.

Notation "'let+' x ':=' e 'in' k" := (io_bind e (fun x => k))
  (at level 10, x name, e at level 100, k at level 200).

Definition lift {A : Type} (r : result A) : io A := (r, []).

Definition corsHeaders : list (jsstring * jsstring) := [
  (lit "Access-Control-Allow-Origin", lit "*");
  (lit "Access-Control-Allow-Methods", lit "POST, OPTIONS");
  (lit "Access-Control-Allow-Headers", lit "Content-Type") ].

(** [{ ...corsHeaders, 'Content-Type': 'application/json' }]. *)
Definition jsonHeaders : list (jsstring * jsstring) :=
  corsHeaders ++ [(lit "Content-Type", lit "application/json")].

(** [new Response(JSON.stringify({ error: message }), { status, headers })]. *)
Definition error_response (message : jsval) (st : Z) : result Response :=
  new_Response (Some (JObj [(lit "error", message)])) st jsonHeaders.

Section Handler.
Context `{Builtins}.

(** The platform's [fetch]: the answer of the upstream service for a
    URL, or the failure of the request. *)
Variable fetch : jsstring -> result Fetched.

(** [x = d] in a destructuring pattern: the default stands in for
    [undefined]. *)
Definition default_to (d v : jsval) : jsval :=
  match v with JUndefined => d | _ => v end.

(** [categories.join('&category=')]: only an array has the method. *)
Definition join_categories (categories : jsval) : result jsstring :=
  match categories with
  | JArr elems => join (lit "&category=") elems
  | _ => Throw TypeError
  end.

(** The template literal of [googleApiUrl]. *)
Definition googleApiUrl (url apiKey strategy categories : jsval) : result jsstring :=
  let* u := ToString url in
  let* u := URI.encodeURIComponent u in
  let* k := ToString apiKey in
  let* s := ToString strategy in
  let* c := join_categories categories in
  Ok (lit "https://www.googleapis.com/pagespeedonline/v5/runPagespeed?url=" ++ u
      ++ lit "&key=" ++ k ++ lit "&strategy=" ++ s ++ lit "&category=" ++ c).

(** [errorData.error?.message]. *)
Definition upstream_message (errorData : jsval) : result jsval :=
  let* e := Get errorData (lit "error") in
  match e with
  | JUndefined | JNull => Ok JUndefined
  | _ => Get e (lit "message")
  end.

(** The message of the error branch. *)
Definition errorMessage (st : Z) (errorData : jsval) : result jsval :=
  if st =? 403 then Ok (JStr (lit "API key is invalid or quota exceeded"))
  else if st =? 429 then Ok (JStr (lit "API rate limit exceeded. Please try again later"))
  else
    let* message := upstream_message errorData in
    if ToBoolean message then Ok message else Ok (JStr (lit "API error occurred")).

(** The body of the [try]. *)
Definition try_block (context : Context) : io Response :=
  let apiKey := GOOGLE_PAGESPEED_API_KEY (env context) in
  if negb (ToBoolean apiKey) then
    lift (error_response (JStr (lit "API key not configured")) 500)
  else
    let+ requestData := lift (json (request context)) in
    let+ url := lift (Get requestData (lit "url")) in
    let+ strategy := lift (Get requestData (lit "strategy")) in
    let strategy := default_to (JStr (lit "desktop")) strategy in
    let+ categories := lift (Get requestData (lit "categories")) in
    let categories :=
      default_to (JArr [JStr (lit "performance"); JStr (lit "accessibility");
                        JStr (lit "best-practices"); JStr (lit "seo")]) categories in
    if negb (ToBoolean url) then
      lift (error_response (JStr (lit "URL is required")) 400)
    else
      let+ target := lift (googleApiUrl url apiKey strategy categories) in
      let+ response := (fetch target, [Fetch target]) in
      if negb (ok response) then
        let errorData :=
          match fetched_json response with Ok d => d | Throw _ => JObj [] end in
        let+ _ := (Ok tt, [ConsoleError]) in
        let+ message := lift (errorMessage (fetched_status response) errorData) in
        lift (error_response message (fetched_status response))
      else
        let+ data := lift (fetched_json response) in
        lift (new_Response (Some data) 200 jsonHeaders).

(** The handler: the preflight branch, the [try], and its [catch]. *)
Definition onRequestPost (context : Context) : io Response :=
  if bool_decide (method (request context) = lit "OPTIONS") then
    lift (new_Response None 200 corsHeaders)
  else
    match try_block context with
    | (Ok response, log) => (Ok response, log)
    | (Throw _, log) =>
        let+ _ := (Ok tt, log ++ [ConsoleError]) in
        lift (error_response (JStr (lit "Internal server error")) 500)
    end.
End Handler.

(** ** The platform: Pages Functions

    The file is a Pages Function ([functions/api/lighthouse.js] is the
    endpoint [/api/lighthouse]). The platform gives a request to a function
    that the file exports under a name it knows: [onRequestGet],
    [onRequestPost] and so on take the requests of their method, and
    [onRequest] takes those of every method that has no function of its
    own. A request for which the file exports neither is not given to the
    file: the platform answers it. *)

(** The functions the file exports, by name: [onRequestPost] at line 6,
    and no other. *)
Definition exports : list jsstring := [lit "onRequestPost"].

(** The export that takes the requests of a method and no others. *)
Definition method_export (method : jsstring) : option jsstring :=
  if bool_decide (method = lit "GET") then Some (lit "onRequestGet")
  else if bool_decide (method = lit "POST") then Some (lit "onRequestPost")
  else if bool_decide (method = lit "PUT") then Some (lit "onRequestPut")
  else if bool_decide (method = lit "PATCH") then Some (lit "onRequestPatch")
  else if bool_decide (method = lit "DELETE") then Some (lit "onRequestDelete")
  else if bool_decide (method = lit "HEAD") then Some (lit "onRequestHead")
  else if bool_decide (method = lit "OPTIONS") then Some (lit "onRequestOptions")
  else None.

(** The export that a request with this method is given to, if any. *)
Definition routed (method : jsstring) : option jsstring :=
  head (filter (fun name => name ∈ exports)
          (option_list (method_export method) ++ [lit "onRequest"])).

Section Endpoint.
Context `{Builtins}.
Variable fetch : jsstring -> result Fetched.

(** What the file does with a request to the endpoint: the export it is
    given to is called with it; [None] when it is given to none. *)
Definition endpoint (context : Context) : option (io Response) :=
  match routed (method (request context)) with
  | Some name =>
      if bool_decide (name = lit "onRequestPost") then Some (onRequestPost fetch context)
      else None
  | None => None
  end.
End Endpoint.

(** ** The widget: the colour of a score *)

(** The strings ['good'], ['needs-improvement'] and ['poor']. *)
Inductive ScoreColor : Type := good | needs_improvement | poor.

Section ScoreColors.
Context `{Builtins}.

(** [v >= y] for a number [y]: false when either is NaN. *)
Definition greater_equal (v : jsval) (y : spec_float) : result bool :=
  let* x := ToNumber v in Ok (SFleb y x).

Definition getScoreColor (score : jsval) : result ScoreColor :=
  let* high := greater_equal score (Number.of_Z 90) in
  if high then Ok good
  else
    let* middle := greater_equal score (Number.of_Z 50) in
    Ok (if middle then needs_improvement else poor).
End ScoreColors.

(** ** The widget: the request to the proxy function *)

(** [CONFIG.apiEndpoint]. *)
Definition apiEndpoint : jsstring := lit "/api/lighthouse".

Definition requestedCategories : jsval :=
  JArr [JStr (lit "performance"); JStr (lit "accessibility");
        JStr (lit "best-practices"); JStr (lit "seo")].

(** The object whose text is the body of the request. *)
Definition request_body (targetUrl : jsstring) : jsval :=
  JObj [(lit "url", JStr targetUrl); (lit "strategy", JStr (lit "mobile"));
        (lit "categories", requestedCategories)].

(** What [callLighthouseAPI] throws: an [Error] it makes, with its message,
    or an exception of the language. *)
Inductive thrown : Type :=
| Error (message : jsstring)
| Native (e : exn).

Inductive attempt (A : Type) : Type :=
| Returned (a : A)
| Thrown (t : thrown).
Arguments Returned {A} a.
Arguments Thrown {A} t.

Definition attempt_bind {A B : Type} (m : attempt A) (k : A -> attempt B) : attempt B :=
  match m with Returned a => k a | Thrown t => Thrown t end.

Notation "'let!' x ':=' e 'in' k" := (attempt_bind e (fun x => k))
  (at level 10, x name, e at level 100, k at level 200).

Definition native {A : Type} (r : result A) : attempt A :=
  match r with Ok a => Returned a | Throw e => Thrown (Native e) end.

(** The object [scores]. *)
Module Scores.
Record t : Type := {
  performance : spec_float;
  accessibility : spec_float;
  bestPractices : spec_float;
  seo : spec_float;
  url : jsstring;
  timestamp : jsstring;
  source : jsstring;
  strategy : jsstring;
  loadingExperience : jsval;
  originLoadingExperience : jsval;
  apiRecommendations : Recommendations
}.
End Scores.

(** [v?.k]. *)
Definition optional_get (v : jsval) (k : jsstring) : result jsval :=
  match v with
  | JUndefined | JNull => Ok JUndefined
  | _ => Get v k
  end.

Section Client.
Context `{Builtins}.

(** The browser's [fetch] with the method [POST]: the answer to the body
    sent to an address, or the failure of the request. *)
Variable fetch : jsstring -> jsval -> result Fetched.

(** [new Date().toISOString()] at the time of the call. *)
Variable now : jsstring.

(** [Math.round((categoryResults.k?.score || 0) * 100)]. *)
Definition category_score (categoryResults : jsval) (k : jsstring) : result spec_float :=
  let* c := Get categoryResults k in
  let* s := optional_get c (lit "score") in
  let* x := ToNumber (or_else s (JNum Number.zero)) in
  Ok (Number.round (Number.mul x Number.hundred)).

(** [data.k?.overall_category || 'Unknown']. *)
Definition overall_category (data : jsval) (k : jsstring) : result jsval :=
  let* e := Get data k in
  let* c := optional_get e (lit "overall_category") in
  Ok (or_else c (JStr (lit "Unknown"))).

(** [callLighthouseAPI]: the [catch] throws again what it caught. What is
    written to the console is left out. *)
Definition callLighthouseAPI (targetUrl : jsstring) : attempt Scores.t :=
  let! response := native (fetch apiEndpoint (request_body targetUrl)) in
  if negb (ok response) then
    let errorData :=
      match fetched_json response with Ok d => d | Throw _ => JObj [] end in
    if fetched_status response =? 403 then
      Thrown (Error (lit "API key is invalid or quota exceeded. Please check your Google API key."))
    else if fetched_status response =? 429 then
      Thrown (Error (lit "API rate limit exceeded. Please try again later."))
    else
      let st := NumberToString (Number.of_Z (fetched_status response)) in
      let! message := native (upstream_message errorData) in
      let! text := native (ToString (or_else message (JStr (lit "Unknown error")))) in
      Thrown (Error (lit "API error: " ++ st ++ lit " - " ++ text))
  else
    let! data := native (fetched_json response) in
    let! lighthouseResult := native (Get data (lit "lighthouseResult")) in
    if negb (ToBoolean lighthouseResult) then
      Thrown (Error (lit "No Lighthouse results returned from API"))
    else
      let! categories := native (Get lighthouseResult (lit "categories")) in
      let categoryResults := or_else categories (JObj []) in
      let! audits := native (Get lighthouseResult (lit "audits")) in
      let audits := or_else audits (JObj []) in
      let! apiRecommendations := native (extractApiRecommendations audits) in
      let! performance := native (category_score categoryResults (lit "performance")) in
      let! accessibility := native (category_score categoryResults (lit "accessibility")) in
      let! bestPractices := native (category_score categoryResults (lit "best-practices")) in
      let! seo := native (category_score categoryResults (lit "seo")) in
      let! loadingExperience := native (overall_category data (lit "loadingExperience")) in
      let! originLoadingExperience :=
        native (overall_category data (lit "originLoadingExperience")) in
      Returned {| Scores.performance := performance;
                  Scores.accessibility := accessibility;
                  Scores.bestPractices := bestPractices;
                  Scores.seo := seo;
                  Scores.url := targetUrl;
                  Scores.timestamp := now;
                  Scores.source := lit "Google PageSpeed Insights";
                  Scores.strategy := lit "mobile";
                  Scores.loadingExperience := loadingExperience;
                  Scores.originLoadingExperience := originLoadingExperience;
                  Scores.apiRecommendations := apiRecommendations |}.
End Client.

(** ** The widget: the HTML of the results *)

(** [s.toLowerCase()] on the strings it is applied to, the impact levels
    and the titles of [scoreDescriptions], which are ASCII. *)
Definition toLowerCase (s : jsstring) : jsstring :=
  map (fun c => if (65 <=? c) && (c <=? 90) then c + 32 else c)%N s.

Definition impact_string (level : ImpactLevel) : jsstring :=
  match level with
  | High => lit "High"
  | Medium => lit "Medium"
  | Low => lit "Low"
  end.

Definition color_string (color : ScoreColor) : jsstring :=
  match color with
  | good => lit "good"
  | needs_improvement => lit "needs-improvement"
  | poor => lit "poor"
  end.

(** The key of a category in [scoreDescriptions], in the scores and in the
    recommendations. *)
Definition key (c : category) : jsstring :=
  match c with
  | Performance => lit "performance"
  | Accessibility => lit "accessibility"
  | BestPractices => lit "bestPractices"
  | Seo => lit "seo"
  end.

(** [scoreDescriptions], in the order of its properties: the category of
    the key, the title and the description. *)
Definition scoreDescriptions : list (category * (jsstring * jsstring)) := [
  (Performance,
   (lit "Performance", lit "How fast your page loads and becomes interactive"));
  (Accessibility,
   (lit "Accessibility", lit "How accessible your page is to users with disabilities"));
  (BestPractices,
   (lit "Best Practices", lit "Whether your page follows web development best practices"));
  (Seo,
   (lit "SEO", lit "How well your page is optimized for search engines")) ].

(** [results[key]]. *)
Definition score_of (c : category) (results : Scores.t) : spec_float :=
  match c with
  | Performance => Scores.performance results
  | Accessibility => Scores.accessibility results
  | BestPractices => Scores.bestPractices results
  | Seo => Scores.seo results
  end.

Section ResultsHTML.
Context `{Builtins}.

(** [l.map(f).join('')] for an [f] that gives strings. *)
Fixpoint map_join {A : Type} (f : A -> result jsstring) (l : list A) : result jsstring :=
  match l with
  | [] => Ok []
  | a :: rest => let* s := f a in let* t := map_join f rest in Ok (s ++ t)
  end.

(** The template of a recommendation. The [score] of a recommendation is a
    number, so it is never [undefined] and its part is always there. *)
Definition recommendation_html (recommendation : Recommendation) : result jsstring :=
  let* title := ToString (title recommendation) in
  let impact := impact_string (impact recommendation) in
  let score :=
    lit "
                            <span class="
    ++ JsString.dquote :: lit "lighthouse-widget__audit-score"
    ++ JsString.dquote :: lit ">Score: "
    ++ NumberToString (score recommendation)
    ++ lit "%</span>
                          " in
  let* description := ToString (description recommendation) in
  let* learnMore :=
    if ToBoolean (learnMoreUrl recommendation) then
      let* learnMoreUrl := ToString (learnMoreUrl recommendation) in
      Ok (lit "
                        <a href="
          ++ JsString.dquote :: learnMoreUrl
          ++ JsString.dquote :: lit " target="
          ++ JsString.dquote :: lit "_blank"
          ++ JsString.dquote :: lit " rel="
          ++ JsString.dquote :: lit "noopener noreferrer"
          ++ JsString.dquote :: lit " class="
          ++ JsString.dquote :: lit "lighthouse-widget__learn-more"
          ++ JsString.dquote :: lit ">
                          Learn More
                        </a>
                      ")
    else Ok [] in
  let* value :=
    if ToBoolean (displayValue recommendation) then
      let* displayValue := ToString (displayValue recommendation) in
      Ok (lit "
                        <p class="
          ++ JsString.dquote :: lit "lighthouse-widget__recommendation-value"
          ++ JsString.dquote :: lit ">"
          ++ displayValue
          ++ lit "</p>
                      ")
    else Ok [] in
  Ok (lit "
                    <div class="
      ++ JsString.dquote :: lit "lighthouse-widget__recommendation lighthouse-widget__recommendation--api"
      ++ JsString.dquote :: lit ">
                      <div class="
      ++ JsString.dquote :: lit "lighthouse-widget__recommendation-header"
      ++ JsString.dquote :: lit ">
                        <h6 class="
      ++ JsString.dquote :: lit "lighthouse-widget__recommendation-title"
      ++ JsString.dquote :: lit ">"
      ++ title
      ++ lit "</h6>
                        <div class="
      ++ JsString.dquote :: lit "lighthouse-widget__recommendation-meta"
      ++ JsString.dquote :: lit ">
                          <span class="
      ++ JsString.dquote :: lit "lighthouse-widget__impact lighthouse-widget__impact--"
      ++ toLowerCase impact
      ++ JsString.dquote :: lit ">
                            "
      ++ impact
      ++ lit " Impact
                          </span>
                          "
      ++ score
      ++ lit "
                        </div>
                      </div>
                      <p class="
      ++ JsString.dquote :: lit "lighthouse-widget__recommendation-description"
      ++ JsString.dquote :: lit ">"
      ++ description
      ++ lit "</p>
                      "
      ++ learnMore
      ++ lit "
                      "
      ++ value
      ++ lit "
                    </div>
                  ").

(** The part of a category that has recommendations. *)
Definition recommendations_html (recommendations : list Recommendation) : result jsstring :=
  let* list := map_join recommendation_html recommendations in
  Ok (lit "
              <h5 class="
      ++ JsString.dquote :: lit "lighthouse-widget__suggestions-title"
      ++ JsString.dquote :: lit ">Specific recommendations for your site:</h5>
              <div class="
      ++ JsString.dquote :: lit "lighthouse-widget__api-recommendations"
      ++ JsString.dquote :: lit ">
                <div class="
      ++ JsString.dquote :: lit "lighthouse-widget__recommendations-list"
      ++ JsString.dquote :: lit ">
                  "
      ++ list
      ++ lit "
                </div>
              </div>
            ").

(** The part of a category that has none. *)
Definition no_recommendations_html (info : jsstring * jsstring) : jsstring :=
  lit "
              <div class="
  ++ JsString.dquote :: lit "lighthouse-widget__no-recommendations"
  ++ JsString.dquote :: lit ">
                <div class="
  ++ JsString.dquote :: lit "lighthouse-widget__success-message"
  ++ JsString.dquote :: lit ">
                  <div class="
  ++ JsString.dquote :: lit "lighthouse-widget__success-icon"
  ++ JsString.dquote :: lit ">"
  ++ 0x2713%N :: lit "</div>
                  <h6 class="
  ++ JsString.dquote :: lit "lighthouse-widget__success-title"
  ++ JsString.dquote :: lit ">Great job!</h6>
                  <p class="
  ++ JsString.dquote :: lit "lighthouse-widget__success-description"
  ++ JsString.dquote :: lit ">
                    No specific issues found in this category. Your site is performing well for "
  ++ toLowerCase info.1
  ++ lit ".
                  </p>
                </div>
              </div>
            ".

(** What the callback of the [forEach] adds to [html] for a category. The
    recommendations of the results are an object with a sequence under
    every key, so the condition of the template is that the sequence of
    the category is not empty. *)
Definition result_html (results : Scores.t) (c : category) (info : jsstring * jsstring) :
    result jsstring :=
  let score := score_of c results in
  let* scoreColor := getScoreColor (JNum score) in
  let recommendations := sequence_of c (Scores.apiRecommendations results) in
  let* suggestions :=
    if (0 <? length recommendations)%nat then recommendations_html recommendations
    else Ok (no_recommendations_html info) in
  Ok (lit "
        <div class="
      ++ JsString.dquote :: lit "lighthouse-widget__result-container"
      ++ JsString.dquote :: lit ">
          <div class="
      ++ JsString.dquote :: lit "lighthouse-widget__result-row"
      ++ JsString.dquote :: lit " data-category="
      ++ JsString.dquote :: key c
      ++ JsString.dquote :: lit ">
            <div class="
      ++ JsString.dquote :: lit "lighthouse-widget__score lighthouse-widget__score--"
      ++ color_string scoreColor
      ++ JsString.dquote :: lit ">
              "
      ++ NumberToString score
      ++ lit "
            </div>
            <div class="
      ++ JsString.dquote :: lit "lighthouse-widget__result-info"
      ++ JsString.dquote :: lit ">
              <h4 class="
      ++ JsString.dquote :: lit "lighthouse-widget__result-title"
      ++ JsString.dquote :: lit ">
                "
      ++ info.1
      ++ lit "
                <span class="
      ++ JsString.dquote :: lit "lighthouse-widget__expand-icon"
      ++ JsString.dquote :: lit ">+</span>
              </h4>
              <p class="
      ++ JsString.dquote :: lit "lighthouse-widget__result-description"
      ++ JsString.dquote :: lit ">"
      ++ info.2
      ++ lit "</p>
            </div>
          </div>
          <div class="
      ++ JsString.dquote :: lit "lighthouse-widget__suggestions"
      ++ JsString.dquote :: lit " style="
      ++ JsString.dquote :: lit "display: none;"
      ++ JsString.dquote :: lit ">
            "
      ++ suggestions
      ++ lit "
          </div>
        </div>
      ").

(** [Object.entries(scoreDescriptions).forEach(...)], [html] being the
    state. *)
Fixpoint forEach_entry (results : Scores.t)
    (entries : list (category * (jsstring * jsstring))) (html : jsstring) : result jsstring :=
  match entries with
  | [] => Ok html
  | (c, info) :: rest =>
      let* added := result_html results c info in
      forEach_entry results rest (html ++ added)
  end.

Definition createResultsHTML (results : Scores.t) : result jsstring :=
  forEach_entry results scoreDescriptions [].
End ResultsHTML.

(** ** The widget: the rows of the results *)

(** What the click handler reads and writes of a row: the [display] of its
    suggestions, the text of its icon, and whether it has the class of an
    expanded row. *)
Record Row : Type := {
  suggestions_display : jsstring;
  expandIcon : jsstring;
  expanded : bool
}.

(** A row as [createResultsHTML] writes it, and as the handler leaves it
    when it collapses it. *)
Definition collapsed_row : Row :=
  {| suggestions_display := lit "none"; expandIcon := lit "+"; expanded := false |}.

(** A row as the handler leaves it when it expands it; the icon is the
    minus sign U+2212. *)
Definition expanded_row : Row :=
  {| suggestions_display := lit "block"; expandIcon := [0x2212%N]; expanded := true |}.

(** The variable [expandedCategory] of [setupResultClickHandlers] and the
    rows of the container, one for each key of [scoreDescriptions]. *)
Record Results : Type := {
  expandedCategory : option category;
  row : category -> Row
}.

Definition set_row (c : category) (v : Row) (rows : category -> Row) : category -> Row :=
  fun c' => if decide (c' = c) then v else rows c'.

(** The state [setupResultClickHandlers] starts from. *)
Definition setupResultClickHandlers : Results :=
  {| expandedCategory := None; row := fun _ => collapsed_row |}.

(** The listener of the row of the category [c]. *)
Definition click (c : category) (st : Results) : Results :=
  let rows :=
    match expandedCategory st with
    | Some prev => if decide (prev = c) then row st else set_row prev collapsed_row (row st)
    | None => row st
    end in
  if decide (expandedCategory st = Some c)
  then {| expandedCategory := None; row := set_row c collapsed_row rows |}
  else {| expandedCategory := Some c; row := set_row c expanded_row rows |}.

(** ** The widget: the form *)

(** [s.startsWith(p)]. *)
Definition startsWith (p s : jsstring) : bool :=
  bool_decide (is_Some (JsString.strip_prefix p s)).

(** What the listener of the form does with the text of the input before
    it changes the page: it shows an alert and stops, or goes on to analyze
    an address. *)
Inductive submission : Type :=
| Alert (message : jsstring)
| Analyze (url : jsstring).

Section Form.

(** Whether [new URL(url)] returns. *)
Variable URL_parses : jsstring -> bool.

Definition submit (value : jsstring) : submission :=
  let url := JsString.trim value in
  if negb (ToBoolean (JStr url)) then Alert (lit "Please enter a website URL")
  else
    let url :=
      if negb (startsWith (lit "http://") url) && negb (startsWith (lit "https://") url)
      then lit "https://" ++ url
      else url in
    if URL_parses url then Analyze url
    else Alert (lit "Please enter a valid website URL (e.g., google.com or example.com)").
End Form.

(** ** The widget: the page while a website is analyzed *)

(** What [setLoadingState] writes: the [display] of the loading part, and
    the button and the input of the form. *)
Record Form : Type := {
  loading_display : jsstring;
  submit_disabled : bool;
  submit_text : jsstring;
  input_disabled : bool;
  loading_text : jsstring
}.

(** [setLoadingState(container, isLoading, message)]; [message] is [None]
    in a call without one. *)
Definition setLoadingState (isLoading : bool) (message : option jsstring) (f : Form) : Form :=
  let message := default (lit "Analyzing website performance...") message in
  if isLoading then
    {| loading_display := lit "flex";
       submit_disabled := true;
       submit_text := lit "Analyzing...";
       input_disabled := true;
       loading_text := message |}
  else
    {| loading_display := lit "none";
       submit_disabled := false;
       submit_text := lit "Analyze Website";
       input_disabled := false;
       loading_text := loading_text f |}.

(** The parts of the page that the listener of the form changes: the
    form, the HTML of the grid and of the line under it, the [display] of
    the results, the rows with their click handlers once there are some,
    and the alerts shown so far. *)
Record Page : Type := {
  form : Form;
  resultsGrid : jsstring;
  resultsMeta : jsstring;
  results_display : jsstring;
  result_rows : option Results;
  alerts : list jsstring
}.

Definition with_form (f : Form -> Form) (page : Page) : Page :=
  {| form := f (form page);
     resultsGrid := resultsGrid page;
     resultsMeta := resultsMeta page;
     results_display := results_display page;
     result_rows := result_rows page;
     alerts := alerts page |}.

(** [alert(message)]. *)
Definition alert (message : jsstring) (page : Page) : Page :=
  {| form := form page;
     resultsGrid := resultsGrid page;
     resultsMeta := resultsMeta page;
     results_display := results_display page;
     result_rows := result_rows page;
     alerts := alerts page ++ [message] |}.

(** The two functions given to [setTimeout]: the one that shows the
    message of the running analysis, and the one that shows the results. *)
Inductive timer : Type :=
| Running
| ShowResults (results : Scores.t).

(** [setTimeout(callback, delay)] on the timers that are set, [due] being
    the time the delay ends at: timers run in the order of these times, and
    of two that are due at one time the one set first runs first. *)
Fixpoint setTimeout (cb : timer) (due : Z) (timers : list (Z * timer)) :
    list (Z * timer) :=
  match timers with
  | [] => [(due, cb)]
  | (d, c) :: rest =>
      if d <=? due then (d, c) :: setTimeout cb due rest else (due, cb) :: timers
  end.

Section Listener.
Context `{Builtins}.

Variable fetch : jsstring -> jsval -> result Fetched.
Variable now : jsstring.
Variable URL_parses : jsstring -> bool.

(** [new Date(timestamp).toLocaleString()]. *)
Variable toLocaleString : jsstring -> jsstring.

(** [error.message] for an exception of the language. *)
Variable native_message : exn -> jsstring.

(** [displayResults]: the page it leaves, and whether it returned. *)
Definition displayResults (results : Scores.t) (page : Page) : Page * result unit :=
  match createResultsHTML results with
  | Throw e =>
      ({| form := form page;
          resultsGrid := [];
          resultsMeta := resultsMeta page;
          results_display := results_display page;
          result_rows := result_rows page;
          alerts := alerts page |}, Throw e)
  | Ok html =>
      ({| form := form page;
          resultsGrid := html;
          resultsMeta :=
            lit "
      <p class="
            ++ JsString.dquote :: lit "lighthouse-widget__analyzed-url"
            ++ JsString.dquote :: lit ">
        <strong>Analyzed:</strong> "
            ++ Scores.url results
            ++ lit "
      </p>
      <p class="
            ++ JsString.dquote :: lit "lighthouse-widget__analysis-time"
            ++ JsString.dquote :: lit ">
        <strong>Strategy:</strong> "
            ++ Scores.strategy results
            ++ lit " "
            ++ 0x2022%N :: lit " <strong>Time:</strong> "
            ++ toLocaleString (Scores.timestamp results)
            ++ lit "
      </p>
    ";
          results_display := lit "block";
          result_rows := Some setupResultClickHandlers;
          alerts := alerts page |}, Ok tt)
  end.

Definition run_callback (cb : timer) (page : Page) : Page :=
  match cb with
  | Running =>
      with_form (setLoadingState true (Some (lit "Running Lighthouse analysis..."))) page
  | ShowResults results =>
      match displayResults results page with
      | (page, Ok _) => with_form (setLoadingState false None) page
      | (page, Throw _) => page
      end
  end.

(** The timers run, one after the other. *)
Definition run_timers (timers : list (Z * timer)) (page : Page) : Page :=
  foldl (fun page timer => run_callback timer.2 page) page timers.

(** [error.message || 'Error analyzing website. Please try again.']. *)
Definition message_of (error : thrown) : jsstring :=
  let message := match error with Error m => m | Native e => native_message e end in
  match message with
  | [] => lit "Error analyzing website. Please try again."
  | _ => message
  end.

(** The listener from its second [try] on, for a call of
    [callLighthouseAPI] that settles [settled] milliseconds after the
    submission with the outcome [outcome]. The timers that are due before
    the call settles have run by then; nothing runs while an alert is
    shown; and the timers that are left run afterwards. *)
Definition analyze (settled : Z) (outcome : attempt Scores.t) (page : Page) : Page :=
  let page :=
    with_form (setLoadingState true (Some (lit "Preparing to analyze website..."))) page in
  let timers := setTimeout Running 1000 [] in
  let page := run_timers (filter (fun timer => timer.1 < settled) timers) page in
  let timers := filter (fun timer => ~ timer.1 < settled) timers in
  match outcome with
  | Returned results =>
      let page := with_form (setLoadingState true (Some (lit "Processing results..."))) page in
      let timers := setTimeout (ShowResults results) (settled + 500) timers in
      run_timers timers page
  | Thrown error =>
      let page := alert (lit "Error: " ++ message_of error) page in
      let page := with_form (setLoadingState false None) page in
      run_timers timers page
  end.

(** The listener of the form, for the text [value] of the input. *)
Definition listener (value : jsstring) (settled : Z) (page : Page) : Page :=
  match submit URL_parses value with
  | Alert message => alert message page
  | Analyze url => analyze settled (callLighthouseAPI fetch now url) page
  end.
End Listener.

(** * The vocabulary of the properties *)

(** ** Matches of the URL pattern *)

(** Nothing of the class [[^\s).,;]] comes first in [s]. *)
Definition blocked (s : jsstring) : Prop :=
  match s with [] => True | c :: _ => url_char c = false end.

Definition scheme (p : jsstring) : Prop := p = lit "http://" \/ p = lit "https://".

(** A match of the URL pattern starts at the beginning of [s]. *)
Definition url_here (s : jsstring) : Prop :=
  exists p c rest, scheme p /\ url_char c = true /\ s = p ++ c :: rest.

(** A match of the URL pattern starts somewhere in [s]. *)
Definition contains_url (s : jsstring) : Prop :=
  exists pre suf, s = pre ++ suf /\ url_here suf.

(** [u] is the match of the URL pattern at the beginning of [u ++ rest]:
    the scheme and all the code units of the class that follow it. *)
Definition url_match (u rest : jsstring) : Prop :=
  exists p run, scheme p /\ u = p ++ run /\ run <> [] /\
    Forall (fun c => url_char c = true) run /\ blocked rest.

(** The subject without the matches of the URL pattern. *)
Definition without_urls (s : jsstring) : jsstring := RegExp.remove_all urlRegex s 0.

(** The same, told as a relation: a code unit at which no match starts is
    kept, and where a match starts it is left out as a whole. *)
Inductive Removed : jsstring -> jsstring -> Prop :=
| Removed_nil : Removed [] []
| Removed_keep c r k : ~ url_here (c :: r) -> Removed r k -> Removed (c :: r) (c :: k)
| Removed_url u rest k : url_match u rest -> Removed rest k -> Removed (u ++ rest) k.

(** The two fields the extractor takes from a processed description. *)
Definition output_text (s : jsstring) : result jsval :=
  let* processedDesc := processDescription (JStr s) in description_of processedDesc.

Definition output_url (s : jsstring) : result jsval :=
  let* processedDesc := processDescription (JStr s) in learnMoreUrl_of processedDesc.

(** ** Numbers and texts of the source *)

(** The literal [0.49]: the double nearest to [49 / 100]. *)
Definition literal_0_49 : spec_float := Number.div (Number.of_Z 49) (Number.of_Z 100).

(** The text an object literal with the properties [entries] has under
    [k]: that of the last of the properties named [k]. *)
Definition last_declared (entries : list (jsstring * jsstring)) (k : jsstring) : option jsstring :=
  snd <$> last (filter (fun kv => kv.1 = k) entries).

(** The text of ['document-title'] in the accessibility part of the table
    and the one in its SEO part. *)
Definition document_title_accessibility : jsstring :=
  lit "Your page is missing a title or has a generic title, which affects accessibility and SEO.".

Definition document_title_seo : jsstring :=
  lit "Your page title is missing or not optimized, which hurts your search engine rankings.".

(** ** Entries and what is pushed for them *)

(** The value of [v.k] where reading it does not throw. *)
Definition field (v : jsval) (k : jsstring) : jsval :=
  match Get v k with Ok x => x | Throw _ => JUndefined end.

(** [recs] are appended to the sequence of the category [c]. *)
Definition extend (c : category) (recs : list Recommendation) (r : Recommendations) :
    Recommendations :=
  foldl (fun r rec => push c rec r) r recs.

(** Neither an array nor an object. *)
Definition primitive (v : jsval) : Prop :=
  match v with JArr _ | JObj _ => False | _ => True end.

(** A string, or a value that counts as false. *)
Definition text_or_falsy (v : jsval) : Prop :=
  match v with JStr _ => True | _ => ToBoolean v = false end.

(** An entry whose score is no array and no object, and whose description
    is a string or counts as false. *)
Definition entry_shaped (audit : jsval) : Prop :=
  primitive (field audit (lit "score")) /\ text_or_falsy (field audit (lit "description")).

(** An audit map all of whose entries under the identifiers of the
    allowlists are so. *)
Definition shaped (audits : jsval) : Prop :=
  forall c auditId, In auditId (allowlist c) -> entry_shaped (field audits auditId).

(** The skipping condition as the claim C1 words it: the identifier is
    absent, or the score is [null] or at least 1, or the title or the
    description is missing. *)
Definition skipped_as_claimed (audits : jsval) (auditId : jsstring) : Prop :=
  let audit := field audits auditId in
  audit = JUndefined
  \/ field audit (lit "score") = JNull
  \/ (exists x, field audit (lit "score") = JNum x /\ SFleb Number.one x = true)
  \/ field audit (lit "title") = JUndefined
  \/ field audit (lit "description") = JUndefined.

Section Pushed.
Context `{Builtins}.

(** What the callback pushes for an identifier: nothing, or one object. *)
Definition pushed (audits : jsval) (auditId : jsstring) : result (list Recommendation) :=
  let* audit := Get audits auditId in
  let* ok := qualifies audit in
  if ok then let* rec := recommendation auditId audit in Ok [rec] else Ok [].

(** The condition under which the callback pushes nothing: the entry, its
    title or its description counts as false, as a missing or empty one
    does; or the score is [null]; or it is not below 1. *)
Definition skipped (audits : jsval) (auditId : jsstring) : Prop :=
  let audit := field audits auditId in
  ToBoolean audit = false
  \/ field audit (lit "score") = JNull
  \/ less_than (field audit (lit "score")) Number.one <> Ok true
  \/ ToBoolean (field audit (lit "title")) = false
  \/ ToBoolean (field audit (lit "description")) = false.

End Pushed.

(** ** Responses and events of the handler *)

(** The response with the body [{ error: message }]. *)
Definition error_of (message : jsstring) (st : Z) : Response :=
  {| body := Some (JObj [(lit "error", JStr message)]); status := st; headers := jsonHeaders |}.

(** The fetches among the events. *)
Definition fetches (log : list event) : list jsstring :=
  omap (fun e => match e with Fetch url => Some url | ConsoleError => None end) log.

(** ** Inputs of the examples *)

(** A host for the examples, none of which converts a number to a string
    or a numeric literal to a number. *)
Definition example_host : Builtins :=
  {| StringToNumber := fun _ => Number.nan; NumberToString := fun _ => lit "NaN" |}.

(** An entry with an empty title. *)
Definition audits_empty_title : jsval :=
  JObj [(lit "label",
         JObj [(lit "score", JNum Number.zero); (lit "title", JStr []);
               (lit "description", JStr (lit "Form elements have labels"))])].

(** An entry whose description is a number, under an identifier without a
    friendly text. *)
Definition audits_number_description : jsval :=
  JObj [(lit "focus-traps",
         JObj [(lit "score", JNum Number.zero); (lit "title", JStr (lit "Focus"));
               (lit "description", JNum (Number.of_Z 5))])].

(** An audit map: ['label'] fails altogether, ['color-contrast'] is half
    way, ['image-alt'] passes, and ['heading-order'] has no title. *)
Definition audits_example : list (jsstring * jsval) := [
  (lit "label",
   JObj [(lit "score", JNum Number.zero); (lit "title", JStr (lit "Labels"));
         (lit "description", JStr (lit "Form elements have labels."))]);
  (lit "color-contrast",
   JObj [(lit "score", JNum Number.half); (lit "title", JStr (lit "Contrast"));
         (lit "description", JStr (lit "Colors have contrast."))]);
  (lit "image-alt",
   JObj [(lit "score", JNum Number.one); (lit "title", JStr (lit "Alt"));
         (lit "description", JStr (lit "Images have alt text."))]);
  (lit "heading-order",
   JObj [(lit "score", JNum Number.zero);
         (lit "description", JStr (lit "Headings are in order."))]) ].

(** ** Values of numbers, the transport and the clicks *)

(** The value of a zero or finite double, in units of [2 ^ -1074]. *)
Definition numerator (x : spec_float) : Z :=
  match x with
  | S754_finite s m e =>
      let n := Z.pos m * 2 ^ (e + 1074) in if s then - n else n
  | _ => 0
  end.

(** A zero or a finite double. *)
Definition finite (x : spec_float) : bool :=
  match x with S754_zero _ | S754_finite _ _ _ => true | _ => false end.

(** The identifiers of the allowlists that the table of friendly texts
    does not have. *)
Definition without_friendly_text : list jsstring :=
  [lit "focus-traps"; lit "focusable-controls"; lit "interactive-element-affordance"].

(** ** Addresses the handler asks *)

(** The beginning of the address of the upstream service. *)
Definition runPagespeed : jsstring :=
  lit "https://www.googleapis.com/pagespeedonline/v5/runPagespeed?url=".

(** The code units that end a parameter of a query or start another part
    of an address: [&], [=], [#], [?] and [/]. *)
Definition separator (c : N) : bool :=
  ((c =? 38) || (c =? 61) || (c =? 35) || (c =? 63) || (c =? 47))%N.

(** ** The widget and the handler together *)

(** What the [fetch] of the widget gives for a response of the handler
    whose body is the text of [{ error: message }], or another text that
    [JSON.parse] gives the value of back: the status, and that value. A
    response without a body is no JSON. *)
Definition delivered (r : Response) : Fetched :=
  {| fetched_status := status r;
     fetched_json := match body r with Some v => Ok v | None => Throw SyntaxError end |}.

(** The message of the widget for a status that is neither 403 nor 429
    when the answer names no message. *)
Definition unknown_error `{Builtins} (st : Z) : jsstring :=
  lit "API error: " ++ NumberToString (Number.of_Z st) ++ lit " - Unknown error".

(** No recommendation in any category. *)
Definition no_recommendations : Recommendations :=
  {| performance := []; accessibility := []; bestPractices := []; seo := [] |}.

(** ** The page *)

(** The rows after the clicks [cs] on the rows of these categories, from
    the first to the last. *)
Definition clicks (cs : list category) : Results :=
  foldl (fun st c => click c st) setupResultClickHandlers cs.

(** A parser of addresses that takes every string, for the examples. *)
Definition any_address : jsstring -> bool := fun _ => true.

(** A request of the widget for [https://x.test], to a handler whose
    credential is [secret]; the address the handler asks for it; and an
    upstream service that answers every address with a result without
    categories and audits. *)
Definition example_context : Context :=
  {| request := {| method := lit "POST";
                   json := Ok (request_body (lit "https://x.test")) |};
     env := {| GOOGLE_PAGESPEED_API_KEY := JStr (lit "secret") |} |}.

Definition example_target : jsstring :=
  runPagespeed ++ lit "https%3A%2F%2Fx.test" ++ lit "&key=" ++ lit "secret"
  ++ lit "&strategy=mobile&category=performance&category=accessibility&category=best-practices&category=seo".

Definition example_answer : jsval := JObj [(lit "lighthouseResult", JObj [])].

Definition example_upstream : jsstring -> result Fetched :=
  fun _ => Ok {| fetched_status := 200; fetched_json := Ok example_answer |}.

(** An audit map with an entry under an identifier of no list. *)
Definition audits_other : list (jsstring * jsval) :=
  (lit "viewport", JObj [(lit "score", JNum Number.zero); (lit "title", JStr (lit "Viewport"));
                         (lit "description", JStr (lit "Has a viewport."))])
  :: audits_example.

(** An answer of the handler with the audits of the example, the [fetch]
    of a browser that gets this answer for every request, and a time. *)
Definition example_result : jsval :=
  JObj [(lit "lighthouseResult", JObj [(lit "audits", JObj audits_example)])].

Definition example_api (data : jsval) : jsstring -> jsval -> result Fetched :=
  fun _ _ => Ok {| fetched_status := 200; fetched_json := Ok data |}.

Definition example_now : jsstring := lit "2026-01-01T00:00:00.000Z".

(** ** What a response says to its reader

    The body of a response is the text that [JSON.stringify] gives for a
    value, and the reader of the response parses that text. The text does
    not always denote the value it was made from: a number that is not
    finite is written [null] and the negative zero [0]; [undefined] is
    written [null] in an array and left out with its name in an object; an
    object is written with each of its names once, those that are array
    indices first, in ascending order, and then the others in the order in
    which the object got them. *)

Definition digit (c : N) : option N :=
  if ((48 <=? c) && (c <=? 57))%N then Some (c - 48)%N else None.

(** The array index that a name is, if it is one: a numeral without a
    leading zero, below [2 ^ 32 - 1]. *)
Definition array_index (k : jsstring) : option N :=
  match k with
  | [] => None
  | c :: r =>
      if (c =? 48)%N && negb (bool_decide (r = [])) then None
      else
        match foldl (fun acc c =>
                       match acc, digit c with
                       | Some a, Some d => Some (10 * a + d)%N
                       | _, _ => None
                       end) (Some 0%N) k with
        | Some n => if (n <? 2 ^ 32 - 1)%N then Some n else None
        | None => None
        end
  end.

Fixpoint insert_index (n : N) (k : jsstring) (l : list (N * jsstring)) :
    list (N * jsstring) :=
  match l with
  | [] => [(n, k)]
  | (m, k') :: rest =>
      if (n <? m)%N then (n, k) :: l else (m, k') :: insert_index n k rest
  end.

(** The names of the object with the properties [props], in the order in
    which they are enumerated. *)
Definition own_keys (props : list (jsstring * jsval)) : list jsstring :=
  let names := reverse (remove_dups (reverse props.*1)) in
  (foldr (fun k sorted =>
            match array_index k with
            | Some n => insert_index n k sorted
            | None => sorted
            end) [] names).*2
  ++ filter (fun k => array_index k = None) names.

(** The properties that are written: in the order of the names, without
    those whose value is [undefined]. *)
Definition written (props : list (jsstring * jsval)) : list (jsstring * jsval) :=
  omap (fun k =>
          match own_property props k with
          | Some JUndefined | None => None
          | Some v => Some (k, v)
          end) (own_keys props).

(** [JSON.parse(JSON.stringify(v))]: the value that the text written for
    [v] denotes; [undefined] where no text is written. *)
Fixpoint stringified (v : jsval) : jsval :=
  match v with
  | JNum (S754_zero _) => JNum (S754_zero false)
  | JNum (S754_finite s m e) => JNum (S754_finite s m e)
  | JNum _ => JNull
  | JArr elems =>
      JArr (map (fun e => match stringified e with JUndefined => JNull | w => w end) elems)
  | JObj props => JObj (written (map (fun kv => (kv.1, stringified kv.2)) props))
  | _ => v
  end.

(** What the reader of a response gets with [response.json()]; a response
    without a body is no JSON. *)
Definition received (r : Response) : result jsval :=
  match body r with
  | None | Some JUndefined => Throw SyntaxError
  | Some v => Ok (stringified v)
  end.

(** A value that is written as it is: no [undefined] in it, no number that
    is not finite and no negative zero, and the names of each object
    different from one another and in the order of enumeration. *)
Fixpoint faithful (v : jsval) : bool :=
  match v with
  | JUndefined => false
  | JNum (S754_zero s) => negb s
  | JNum (S754_finite _ _ _) => true
  | JNum _ => false
  | JArr elems => forallb faithful elems
  | JObj props =>
      bool_decide (NoDup props.*1) && bool_decide (own_keys props = props.*1)
      && forallb (fun kv => faithful kv.2) props
  | _ => true
  end.

(** ** Parts of the HTML *)

(** [needle] is in [hay], as it stands. *)
Definition part_of (needle hay : jsstring) : Prop :=
  exists pre post, hay = pre ++ needle ++ post.

(** The element of the title of a recommendation, of its description, and
    the beginning of its link, with the texts [t], [d] and [u] in them. *)
Definition title_element (t : jsstring) : jsstring :=
  lit "<h6 class=" ++ JsString.dquote :: lit "lighthouse-widget__recommendation-title"
  ++ JsString.dquote :: lit ">" ++ t ++ lit "</h6>".

Definition description_element (d : jsstring) : jsstring :=
  lit "<p class=" ++ JsString.dquote :: lit "lighthouse-widget__recommendation-description"
  ++ JsString.dquote :: lit ">" ++ d ++ lit "</p>".

Definition link_beginning (u : jsstring) : jsstring :=
  lit "<a href=" ++ JsString.dquote :: u ++ JsString.dquote :: lit " target=".

(** The beginning of the row of a category. *)
Definition row_beginning (c : category) : jsstring :=
  lit "<div class=" ++ JsString.dquote :: lit "lighthouse-widget__result-row"
  ++ JsString.dquote :: lit " data-category=" ++ JsString.dquote :: key c
  ++ JsString.dquote :: lit ">".

(** Scores with one recommendation, whose title is markup. *)
Definition example_recommendation : Recommendation :=
  {| title := JStr (lit "<img src=x>");
     description := JStr (lit "Form elements have labels.");
     learnMoreUrl := JNull;
     impact := High;
     score := Number.zero;
     displayValue := JStr [] |}.

Definition example_scores : Scores.t :=
  {| Scores.performance := Number.zero;
     Scores.accessibility := Number.zero;
     Scores.bestPractices := Number.zero;
     Scores.seo := Number.zero;
     Scores.url := lit "https://x.test";
     Scores.timestamp := lit "2026-01-01T00:00:00.000Z";
     Scores.source := lit "Google PageSpeed Insights";
     Scores.strategy := lit "mobile";
     Scores.loadingExperience := JStr (lit "Unknown");
     Scores.originLoadingExperience := JStr (lit "Unknown");
     Scores.apiRecommendations :=
       {| performance := []; accessibility := [example_recommendation];
          bestPractices := []; seo := [] |} |}.

(** A page before anything was analyzed. *)
Definition example_page : Page :=
  {| form := {| loading_display := lit "none";
                submit_disabled := false;
                submit_text := lit "Analyze Website";
                input_disabled := false;
                loading_text := lit "Analyzing website performance..." |};
     resultsGrid := [];
     resultsMeta := [];
     results_display := lit "none";
     result_rows := None;
     alerts := [] |}.

(** * Properties *)

(** ** Code units and the two expressions *)

Section Span.
Variable p : N -> bool.

Lemma span_app (s : jsstring) : s = (JsString.span p s).1 ++ (JsString.span p s).2.
Proof.
  induction s as [|c r IH]; simpl; [done|].
  destruct (p c); [|done].
  destruct (JsString.span p r) as [a b]; simpl in *. by rewrite IH at 1.
Qed.

Lemma span_all (s : jsstring) : Forall (fun c => p c = true) (JsString.span p s).1.
Proof.
  induction s as [|c r IH]; simpl; [constructor|].
  destruct (p c) eqn:E; [|constructor].
  destruct (JsString.span p r) as [a b]; simpl in *. by constructor.
Qed.

Lemma span_rest (s : jsstring) :
  match (JsString.span p s).2 with [] => True | c :: _ => p c = false end.
Proof.
  induction s as [|c r IH]; simpl; [done|].
  destruct (p c) eqn:E; [|done].
  by destruct (JsString.span p r) as [a b].
Qed.

Lemma span_cons_false (c : N) (r : jsstring) :
  p c = false -> JsString.span p (c :: r) = ([], c :: r).
Proof. intros E; simpl; by rewrite E. Qed.

Lemma span_all_app (a b : jsstring) :
  Forall (fun c => p c = true) a ->
  match b with [] => True | c :: _ => p c = false end ->
  JsString.span p (a ++ b) = (a, b).
Proof.
  intros Ha Hb. induction Ha as [|c a Hc _ IH]; simpl.
  - destruct b as [|c b]; [done|]. simpl. by rewrite Hb.
  - by rewrite Hc, IH.
Qed.
End Span.

Lemma strip_prefix_Some (p s r : jsstring) :
  JsString.strip_prefix p s = Some r <-> s = p ++ r.
Proof.
  revert s; induction p as [|a p IH]; intros s; simpl.
  - split; [by intros [= ->] | by intros ->].
  - destruct s as [|b s]; [split; [done | intros [=]]|].
    destruct (N.eqb_spec a b) as [->|Hne].
    + rewrite IH. split; [by intros -> | by intros [= ->]].
    + split; [done | intros [= ? ?]; congruence].
Qed.

(** What the claims call a URL: a match of the pattern. *)

Lemma after_scheme_Some (s u : jsstring) :
  after_scheme s = Some u -> exists p, scheme p /\ s = p ++ u.
Proof.
  unfold after_scheme.
  destruct (JsString.strip_prefix (lit "http") s) as [r|] eqn:E; [|done].
  apply strip_prefix_Some in E; subst s.
  assert (Hplain : JsString.strip_prefix (lit "://") r = Some u ->
            exists p, scheme p /\ lit "http" ++ r = p ++ u).
  { intros E; apply strip_prefix_Some in E; subst r.
    exists (lit "http://"); split; [by left | done]. }
  destruct r as [|c r']; [done|].
  destruct (N.eqb_spec c 115) as [->|Hc].
  - destruct (JsString.strip_prefix (lit "://") r') as [u'|] eqn:E'; [|done].
    intros [= ->]. apply strip_prefix_Some in E'; subst r'.
    exists (lit "https://"); split; [by right | done].
  - intros E. apply Hplain.
    destruct c as [|q]; [done|].
    do 7 (destruct q as [q|q|]; try done).
Qed.

Lemma after_scheme_None (s : jsstring) :
  after_scheme s = None -> forall p u, scheme p -> s <> p ++ u.
Proof.
  unfold after_scheme. intros E p u [-> | ->] ->; simpl in E.
  - destruct u as [|c u]; [done|].
    destruct (N.eqb_spec c 47) as [->|]; [done|].
    revert E. change (JsString.strip_prefix (lit "://") (58%N :: 47%N :: 47%N :: c :: u))
      with (Some (c :: u)). done.
  - done.
Qed.

Lemma scheme_chars (p : jsstring) : scheme p -> Forall (fun c => url_char c = true) p.
Proof. intros [-> | ->]; repeat constructor. Qed.

Lemma urlRegex_Some (s : jsstring) (n : nat) :
  urlRegex s = Some n ->
  (1 <= n <= length s)%nat /\ url_match (take n s) (drop n s).
Proof.
  unfold urlRegex.
  destruct (after_scheme s) as [u|] eqn:E; [|done].
  apply after_scheme_Some in E as (p & Hp & ->).
  pose proof (span_app url_char u) as Hu.
  pose proof (span_all url_char u) as Hall.
  pose proof (span_rest url_char u) as Hrest.
  destruct (JsString.span url_char u) as [run rest]; simpl in *.
  destruct run as [|c run]; [done|]. intros [= <-]. subst u.
  assert ((length (p ++ (c :: run) ++ rest) - length ((c :: run) ++ rest)
           + S (length run))%nat = length (p ++ c :: run)) as ->.
  { rewrite !length_app. simpl. lia. }
  rewrite (app_assoc p (c :: run) rest).
  rewrite take_app_length, drop_app_length.
  split; [rewrite !length_app; simpl; lia|].
  exists p, (c :: run). by repeat split.
Qed.

Lemma url_match_here (u rest : jsstring) : url_match u rest -> url_here (u ++ rest).
Proof.
  intros (p & run & Hp & -> & Hne & Hall & _).
  destruct run as [|c run]; [done|].
  exists p, c, (run ++ rest). split; [done|]. split; [by inversion Hall|].
  by rewrite <- app_assoc.
Qed.

Lemma urlRegex_None (s : jsstring) : urlRegex s = None -> ~ url_here s.
Proof.
  unfold urlRegex. intros E (p & c & rest & Hp & Hc & ->).
  destruct (after_scheme (p ++ c :: rest)) as [u|] eqn:Eu.
  - apply after_scheme_Some in Eu as (p' & Hp' & Heq).
    assert (u = c :: rest) as ->.
    { destruct Hp as [-> | ->], Hp' as [-> | ->]; simpl in Heq;
        try (by injection Heq); injection Heq; intros; subst; done. }
    simpl in E. by rewrite Hc in E; destruct (JsString.span url_char rest).
  - by eapply after_scheme_None in Eu.
Qed.

Lemma url_here_dec (s : jsstring) : url_here s <-> is_Some (urlRegex s).
Proof.
  split.
  - intros Hs. destruct (urlRegex s) eqn:E; [done|]. by apply urlRegex_None in E.
  - intros [n E]. apply urlRegex_Some in E as [_ Hm].
    apply url_match_here in Hm. by rewrite take_drop in Hm.
Qed.

(** A match only looks at the code units of the class that come first. *)
Lemma url_here_prefix (s t : jsstring) :
  url_here s -> (JsString.span url_char s).1 `prefix_of` t -> url_here t.
Proof.
  intros (p & c & rest & Hp & Hc & ->) [k Hk].
  pose proof (span_app url_char rest) as Hr.
  pose proof (span_all url_char rest) as Hall.
  pose proof (span_rest url_char rest) as Hrest.
  destruct (JsString.span url_char rest) as [a b] eqn:Eab; simpl in *.
  assert (JsString.span url_char (p ++ c :: rest) = (p ++ c :: a, b)) as E.
  { rewrite Hr. change (p ++ c :: a ++ b) with (p ++ (c :: a) ++ b).
    rewrite app_assoc. apply span_all_app; [|done].
    apply Forall_app; split; [by apply scheme_chars | by constructor]. }
  rewrite E in Hk; simpl in Hk. subst t.
  exists p, c, (a ++ k). by rewrite <- app_assoc.
Qed.

Lemma url_here_blocked (s : jsstring) : blocked s -> ~ url_here s.
Proof.
  intros Hb (p & c & rest & [-> | ->] & _ & ->); simpl in Hb; done.
Qed.

Lemma url_here_app (s t : jsstring) : url_here s -> url_here (s ++ t).
Proof.
  intros (p & c & rest & Hp & Hc & ->). exists p, c, (rest ++ t).
  by rewrite <- app_assoc.
Qed.

Lemma contains_url_infix (s pre post : jsstring) :
  contains_url s -> contains_url (pre ++ s ++ post).
Proof.
  intros (a & b & -> & Hb). exists (pre ++ a), (b ++ post).
  split; [by rewrite <- !app_assoc | by apply url_here_app].
Qed.

(** ** The search of a global expression *)

Section Search.
Variable re : RegExp.matcher.

Lemma remove_all_skip (s : jsstring) (k : nat) :
  RegExp.remove_all re s k = RegExp.remove_all re (drop k s) 0.
Proof.
  revert k; induction s as [|c r IH]; intros [|k]; try done.
  simpl RegExp.remove_all at 1. by rewrite IH.
Qed.

Lemma remove_all_match (s : jsstring) (n : nat) :
  re s = Some n -> (1 <= n)%nat ->
  RegExp.remove_all re s 0 = RegExp.remove_all re (drop n s) 0.
Proof.
  intros E Hn. destruct s as [|c r].
  - by rewrite drop_nil.
  - simpl. rewrite E. destruct n as [|k]; [lia|]. exact (remove_all_skip r k).
Qed.

Lemma remove_all_no_match (c : N) (r : jsstring) :
  re (c :: r) = None ->
  RegExp.remove_all re (c :: r) 0 = c :: RegExp.remove_all re r 0.
Proof. intros E; simpl; by rewrite E. Qed.
End Search.

Lemma span_blocked (s : jsstring) : blocked s -> (JsString.span url_char s).1 = [].
Proof. destruct s as [|c r]; [done|]. simpl. by intros ->. Qed.

Lemma without_urls_blocked (s : jsstring) : blocked s -> blocked (without_urls s).
Proof.
  destruct s as [|c r]; [done|]. intros Hb. unfold without_urls.
  destruct (urlRegex (c :: r)) as [n|] eqn:E.
  - exfalso. eapply url_here_blocked; [exact Hb|]. apply url_here_dec. by rewrite E.
  - by rewrite remove_all_no_match.
Qed.

Lemma without_urls_match (s : jsstring) (n : nat) :
  urlRegex s = Some n ->
  without_urls s = without_urls (drop n s) /\ blocked (drop n s) /\ (1 <= n <= length s)%nat.
Proof.
  intros E. pose proof (urlRegex_Some _ _ E) as [Hn (p & run & _ & _ & _ & _ & Hb)].
  split; [|done]. apply remove_all_match; [done | lia].
Qed.

Lemma without_urls_Removed (s : jsstring) : Removed s (without_urls s).
Proof.
  remember (length s) as m eqn:Hm. revert s Hm.
  induction m as [m IH] using lt_wf_ind; intros s ->.
  destruct s as [|c r]; [constructor|].
  destruct (urlRegex (c :: r)) as [n|] eqn:E.
  - pose proof (without_urls_match _ _ E) as (-> & _ & Hn).
    pose proof (urlRegex_Some _ _ E) as [_ Hm].
    rewrite <- (take_drop n (c :: r)) at 1.
    constructor; [done|].
    eapply IH; [|done]. rewrite length_drop. simpl in *. lia.
  - unfold without_urls. rewrite remove_all_no_match by done.
    constructor; [by apply urlRegex_None|].
    eapply IH; [|done]. simpl; lia.
Qed.

Lemma without_urls_span (s : jsstring) :
  (JsString.span url_char (without_urls s)).1 `prefix_of` (JsString.span url_char s).1.
Proof.
  induction s as [|c r IH]; [done|].
  destruct (urlRegex (c :: r)) as [n|] eqn:E.
  - pose proof (without_urls_match _ _ E) as (-> & Hb & _).
    rewrite span_blocked by (by apply without_urls_blocked). apply prefix_nil.
  - unfold without_urls. rewrite remove_all_no_match by done. fold (without_urls r).
    simpl. destruct (url_char c); [|done].
    destruct (JsString.span url_char (without_urls r)) as [a b].
    destruct (JsString.span url_char r) as [a' b']. simpl in *.
    by apply prefix_cons.
Qed.

Lemma without_urls_not_here (s : jsstring) : ~ url_here (without_urls s).
Proof.
  destruct s as [|c r]; [by apply url_here_blocked|].
  destruct (urlRegex (c :: r)) as [n|] eqn:E.
  - pose proof (without_urls_match _ _ E) as (-> & Hb & _).
    by apply url_here_blocked, without_urls_blocked.
  - intros Hh. apply (urlRegex_None _ E).
    eapply url_here_prefix; [exact Hh|].
    etrans; [apply without_urls_span|].
    exists (JsString.span url_char (c :: r)).2. apply span_app.
Qed.

(** No match of the URL pattern is left in the subject once the matches
    are removed: removing them brings no new one about. *)
Lemma without_urls_clean (s : jsstring) : ~ contains_url (without_urls s).
Proof.
  remember (length s) as m eqn:Hm. revert s Hm.
  induction m as [m IH] using lt_wf_ind; intros s -> (pre & suf & Heq & Hsuf).
  destruct s as [|c r].
  - destruct pre, suf; try done. by eapply url_here_blocked in Hsuf.
  - destruct (urlRegex (c :: r)) as [n|] eqn:E.
    + pose proof (without_urls_match _ _ E) as (Hw & _ & Hn).
      eapply (IH (length (drop n (c :: r)))); [|done|].
      * rewrite length_drop. simpl in *; lia.
      * exists pre, suf. by rewrite <- Hw.
    + destruct pre as [|c' pre].
      * simpl in Heq. subst suf. by apply without_urls_not_here in Hsuf.
      * unfold without_urls in Heq. rewrite remove_all_no_match in Heq by done.
        injection Heq as -> Heq.
        eapply (IH (length r)); [simpl; lia | done |]. by exists pre, suf.
Qed.

Lemma match_all_nil (s : jsstring) :
  RegExp.match_all urlRegex s 0 = [] <-> ~ contains_url s.
Proof.
  split.
  - induction s as [|c r IH]; intros E (pre & suf & Heq & Hsuf).
    + destruct pre, suf; try done. by eapply url_here_blocked in Hsuf.
    + simpl in E. destruct (urlRegex (c :: r)) as [n|] eqn:En; [done|].
      destruct pre as [|c' pre].
      * simpl in Heq; subst suf. by apply urlRegex_None in En.
      * injection Heq as -> Heq. apply IH; [done|]. by exists pre, suf.
  - induction s as [|c r IH]; intros Hno; [done|].
    simpl. destruct (urlRegex (c :: r)) as [n|] eqn:En.
    + exfalso. apply Hno. exists [], (c :: r). split; [done|].
      apply url_here_dec. by rewrite En.
    + apply IH. intros (pre & suf & -> & Hsuf). apply Hno.
      by exists (c :: pre), suf.
Qed.

(** The first element of the array of matches is the leftmost match. *)
Lemma match_all_first (s u : jsstring) (l : list jsstring) :
  RegExp.match_all urlRegex s 0 = u :: l ->
  exists pre rest, s = pre ++ u ++ rest /\ url_match u rest /\
    forall i, (i < length pre)%nat -> ~ url_here (drop i s).
Proof.
  induction s as [|c r IH]; [done|]. simpl.
  destruct (urlRegex (c :: r)) as [n|] eqn:En.
  - intros [= <- _]. exists [], (drop n (c :: r)).
    apply urlRegex_Some in En as [_ Hm].
    split; [by rewrite take_drop|]. split; [done|]. simpl; lia.
  - intros (pre & rest & -> & Hm & Hleft)%IH.
    exists (c :: pre), rest. split; [done|]. split; [done|].
    intros [|i] Hi; [by apply urlRegex_None | apply Hleft; simpl in Hi; lia].
Qed.

(** ** Trimming *)

Section DropWhile.
Variable p : N -> bool.

Lemma drop_while_split (s : jsstring) :
  exists a, s = a ++ JsString.drop_while p s /\ Forall (fun c => p c = true) a.
Proof.
  exists (JsString.span p s).1. split; [apply span_app | apply span_all].
Qed.

Lemma drop_while_head (s : jsstring) (c : N) :
  head (JsString.drop_while p s) = Some c -> p c = false.
Proof.
  unfold JsString.drop_while. pose proof (span_rest p s) as Hr.
  destruct (JsString.span p s).2; [done|]. by intros [= <-].
Qed.

Lemma drop_while_id (s : jsstring) :
  (forall c, head s = Some c -> p c = false) -> JsString.drop_while p s = s.
Proof.
  destruct s as [|c r]; [done|]. intros Hc. unfold JsString.drop_while.
  by rewrite span_cons_false by (by apply Hc).
Qed.
End DropWhile.

Lemma trim_split (s : jsstring) :
  exists a b, s = a ++ JsString.trim s ++ b /\
    Forall (fun c => JsString.is_space c = true) a /\
    Forall (fun c => JsString.is_space c = true) b.
Proof.
  unfold JsString.trim.
  destruct (drop_while_split JsString.is_space s) as (a & Ha & Halla).
  set (d := JsString.drop_while JsString.is_space s) in *.
  destruct (drop_while_split JsString.is_space (reverse d)) as (b & Hb & Hallb).
  exists a, (reverse b). split; [|split; [done|]].
  - rewrite <- reverse_app, <- Hb, reverse_involutive. done.
  - by apply Forall_reverse.
Qed.

(** Trimming a string that does not end in white space only removes the
    white space it starts with. *)
Lemma trim_clean_end (s : jsstring) :
  (forall c, last s = Some c -> JsString.is_space c = false) ->
  JsString.trim s = JsString.drop_while JsString.is_space s.
Proof.
  intros Hlast. unfold JsString.trim.
  destruct (drop_while_split JsString.is_space s) as (a & Ha & _).
  set (d := JsString.drop_while JsString.is_space s) in *.
  rewrite drop_while_id; [apply reverse_involutive|].
  intros c. rewrite head_reverse. intros Hc. apply Hlast.
  rewrite Ha. apply last_app_Some. by left.
Qed.

(** ** The trailing run *)

Lemma trailingRegex_Some (s : jsstring) (n : nat) :
  trailingRegex s = Some n ->
  n = length s /\ s <> [] /\ Forall (fun c => trailing_char c = true) s.
Proof.
  unfold trailingRegex.
  pose proof (span_app trailing_char s) as Hs.
  pose proof (span_all trailing_char s) as Hall.
  destruct (JsString.span trailing_char s) as [[|c run] [|? ?]]; try done.
  simpl in *. rewrite app_nil_r in Hs. subst s. by intros [= <-].
Qed.

Lemma trailingRegex_None (s : jsstring) :
  trailingRegex s = None -> s = [] \/ ~ Forall (fun c => trailing_char c = true) s.
Proof.
  unfold trailingRegex. intros E.
  destruct s as [|c r]; [by left | right]. intros Hall.
  rewrite <- (app_nil_r (c :: r)) in E.
  rewrite (span_all_app trailing_char (c :: r) []) in E by done. done.
Qed.

Lemma remove_first_trailing (s : jsstring) :
  exists b, s = RegExp.remove_first trailingRegex s ++ b /\
    Forall (fun c => trailing_char c = true) b /\
    forall c, last (RegExp.remove_first trailingRegex s) = Some c -> trailing_char c = false.
Proof.
  induction s as [|c r (b & Hb & Hall & Hlast)].
  - exists []. by repeat split.
  - simpl RegExp.remove_first.
    destruct (trailingRegex (c :: r)) as [n|] eqn:E.
    + apply trailingRegex_Some in E as (-> & _ & Hs).
      rewrite drop_all. exists (c :: r). by repeat split.
    + exists b. split; [by rewrite Hb at 1|]. split; [done|].
      intros c'. rewrite last_cons.
      destruct (last (RegExp.remove_first trailingRegex r)) as [x|] eqn:Ex;
        [intros [= <-]; by apply Hlast|].
      intros [= <-]. apply last_None in Ex. rewrite Ex in Hb. simpl in Hb. subst b.
      apply trailingRegex_None in E as [?|Hn]; [done|].
      destruct (trailing_char c) eqn:Ec; [|done]. exfalso. apply Hn. by constructor.
Qed.

(** ** [processDescription] *)

Lemma contains_url_nonempty (s : jsstring) : contains_url s -> s <> [].
Proof.
  intros (pre & suf & -> & Hsuf) E. apply app_eq_nil in E as [_ ->].
  by eapply url_here_blocked in Hsuf.
Qed.

Lemma space_is_trailing (c : N) : JsString.is_space c = true -> trailing_char c = true.
Proof. unfold trailing_char. intros ->. by rewrite !orb_true_r. Qed.

Lemma processDescription_no_url (s : jsstring) :
  ~ contains_url s -> processDescription (JStr s) = Ok (JStr s).
Proof.
  intros Hno. apply match_all_nil in Hno. unfold processDescription.
  destruct s as [|c r]; [done|]. simpl ToBoolean. simpl negb. cbv iota. by rewrite Hno.
Qed.

(** What the function does, told with its own two patterns. A description
    that contains a match of the URL pattern is split in two:
    [learnMoreUrl] is the leftmost match, and the text is the description
    without any of the matches, without the white space around what is
    left, and without the run of code units of the second pattern that what
    is left ends in; no match of the pattern is left in the text. For a
    description without a match the text is the description and
    [learnMoreUrl] is [null]. *)
Lemma processDescription_splits (s : jsstring) :
  (contains_url s ->
   exists text url pre rest kept lead trail,
     processDescription (JStr s) =
       Ok (JObj [(lit "text", JStr text); (lit "learnMoreUrl", JStr url)])
     /\ output_text s = Ok (JStr text) /\ output_url s = Ok (JStr url)
     /\ s = pre ++ url ++ rest /\ url_match url rest
     /\ (forall i, (i < length pre)%nat -> ~ url_here (drop i s))
     /\ Removed s kept /\ kept = lead ++ text ++ trail
     /\ Forall (fun c => JsString.is_space c = true) lead
     /\ Forall (fun c => trailing_char c = true) trail
     /\ ~ contains_url text
     /\ (forall c, head text = Some c -> JsString.is_space c = false)
     /\ (forall c, last text = Some c -> trailing_char c = false))
  /\ (~ contains_url s ->
      processDescription (JStr s) = Ok (JStr s)
      /\ output_text s = Ok (JStr s) /\ output_url s = Ok JNull).
Proof.
  split.
  - intros Hs.
    destruct (RegExp.match_all urlRegex s 0) as [|url l] eqn:Em;
      [by apply match_all_nil in Em|].
    pose proof (match_all_first _ _ _ Em) as (pre & rest & Heq & Hm & Hleft).
    set (k := without_urls s).
    destruct (trim_split k) as (a1 & b1 & Hk & Ha1 & Hb1).
    set (t1 := JsString.trim k) in *.
    destruct (remove_first_trailing t1) as (b2 & Ht1 & Hb2 & Hlast).
    set (t2 := RegExp.remove_first trailingRegex t1) in *.
    assert (JsString.trim t2 = JsString.drop_while JsString.is_space t2) as Ht.
    { apply trim_clean_end. intros c Hc. apply Hlast in Hc.
      destruct (JsString.is_space c) eqn:Ec; [|done].
      apply space_is_trailing in Ec. congruence. }
    destruct (drop_while_split JsString.is_space t2) as (a3 & Ht2 & Ha3).
    rewrite <- Ht in Ht2.
    set (text := JsString.trim t2) in *.
    assert (processDescription (JStr s) =
              Ok (JObj [(lit "text", JStr text); (lit "learnMoreUrl", JStr url)])) as Hp.
    { unfold processDescription.
      destruct s as [|c r]; [by apply contains_url_nonempty in Hs|].
      simpl ToBoolean. simpl negb. cbv iota. by rewrite Em. }
    exists text, url, pre, rest, k, (a1 ++ a3), (b2 ++ b1).
    split; [done|]. unfold output_text, output_url. rewrite Hp.
    split; [done|]. split; [done|]. split; [done|]. split; [done|]. split; [done|].
    split; [apply without_urls_Removed|].
    assert (k = (a1 ++ a3) ++ text ++ b2 ++ b1) as Hsplit.
    { rewrite Hk, Ht1, Ht2. by rewrite <- !app_assoc. }
    split; [done|]. split; [by apply Forall_app|].
    split.
    { apply Forall_app; split; [done|].
      eapply Forall_impl; [exact Hb1|]. apply space_is_trailing. }
    split.
    { intros Hc. apply (without_urls_clean s). fold k. rewrite Hsplit.
      by apply contains_url_infix. }
    split.
    { intros c. rewrite Ht. apply drop_while_head. }
    intros c Hc. apply Hlast. rewrite Ht2. apply last_app_Some. by left.
  - intros Hno. unfold output_text, output_url.
    rewrite processDescription_no_url by done. done.
Qed.

(** The match of the URL pattern ends before the first full stop: a link
    that is returned has none. *)
Lemma learnMoreUrl_no_full_stop (s u : jsstring) :
  output_url s = Ok (JStr u) -> ~ In 46%N u.
Proof.
  unfold output_url, processDescription.
  destruct s as [|c r]; [discriminate|]. simpl ToBoolean. simpl negb. cbv iota.
  destruct (RegExp.match_all urlRegex (c :: r) 0) as [|first l] eqn:Em.
  { cbn [bind]. change (learnMoreUrl_of (JStr (c :: r))) with (Ok JNull : result jsval).
    discriminate. }
  cbn [bind].
  match goal with
  | |- learnMoreUrl_of (JObj [(?k, ?t); (?k', JStr first)]) = _ -> _ =>
      change (learnMoreUrl_of (JObj [(k, t); (k', JStr first)]))
        with (Ok (JStr first) : result jsval)
  end.
  intros [= <-].
  destruct (match_all_first _ _ _ Em) as (pre & rest & _ & (p & run & Hp & -> & _ & Hrun & _) & _).
  intros [Hin|Hin]%in_app_or.
  - destruct Hp as [-> | ->]; vm_compute in Hin; intuition discriminate.
  - apply list_elem_of_In in Hin.
    by pose proof (proj1 (Forall_forall _ _) Hrun _ Hin) as Hc.
Qed.

(** C4. The link is not the URL of the description. Of the description
    [Learn more (https://web.dev/lcp).], which has the URL
    [https://web.dev/lcp] in it, the function returns the link
    [https://web] and the text [Learn more (.dev/lcp]: the class of the
    pattern leaves the full stop out, so the match ends at the first full
    stop of the host name, and what follows it stays in the text. The same
    holds of every description: no link that is returned has a full stop in
    it. *)
Theorem processDescription_cuts_url :
  let description := lit "Learn more (https://web.dev/lcp)." in
  description = lit "Learn more (" ++ lit "https://web.dev/lcp" ++ lit ")."
  /\ processDescription (JStr description) =
       Ok (JObj [(lit "text", JStr (lit "Learn more (.dev/lcp"));
                 (lit "learnMoreUrl", JStr (lit "https://web"))])
  /\ output_url description = Ok (JStr (lit "https://web"))
  /\ output_text description = Ok (JStr (lit "Learn more (.dev/lcp"))
  /\ forall s u, output_url s = Ok (JStr u) -> ~ In 46%N u.
Proof.
  cbv zeta. split; [reflexivity|]. split; [by vm_compute|].
  split; [by vm_compute|]. split; [by vm_compute|].
  exact learnMoreUrl_no_full_stop.
Qed.

Lemma processDescription_cuts_url_witness :
  ~ In 46%N (lit "https://web").
Proof.
  apply (proj2 (proj2 (proj2 (proj2 processDescription_cuts_url)))
           (lit "Learn more (https://web.dev/lcp).")).
  by vm_compute.
Defined.

(** C5, as the claim states it, fails on a text without a URL that starts
    with white space: the text is returned as it is, not trimmed. *)
Lemma output_not_trimmed :
  ~ contains_url (lit " a")
  /\ output_text (lit " a") = Ok (JStr (lit " a"))
  /\ lit " a" <> JsString.trim (lit " a").
Proof.
  split; [by apply match_all_nil|]. split; [reflexivity|]. by vm_compute.
Qed.

(** C5, amended. On a text without a match of the URL pattern the step
    returns the text as it is, with nothing trimmed, and so applied to its
    own output it returns that output again. *)
Theorem processDescription_idempotent (s : jsstring) :
  ~ contains_url s ->
  exists out,
    output_text s = Ok (JStr out) /\ output_text out = Ok (JStr out) /\ out = s.
Proof.
  intros Hno. exists s. unfold output_text.
  rewrite processDescription_no_url by done. done.
Qed.

Lemma processDescription_idempotent_witness :
  exists out,
    output_text (lit "  Your page loads slowly. ") = Ok (JStr out)
    /\ output_text out = Ok (JStr out)
    /\ out = lit "  Your page loads slowly. ".
Proof.
  apply (processDescription_idempotent (lit "  Your page loads slowly. ")).
  apply match_all_nil. reflexivity.
Defined.

(** ** Numbers *)

Lemma digits2_bounds (m : positive) :
  2 ^ (Z.pos (digits2_pos m) - 1) <= Z.pos m < 2 ^ Z.pos (digits2_pos m).
Proof.
  induction m as [m IH|m IH|]; simpl digits2_pos; [| |by compute].
  all: rewrite Pos2Z.inj_succ;
    replace (Z.succ (Z.pos (digits2_pos m)) - 1) with (Z.succ (Z.pos (digits2_pos m) - 1)) by lia;
    rewrite !Z.pow_succ_r by lia; lia.
Qed.

Lemma bounded_cases (m : positive) (e : Z) :
  bounded Number.prec Number.emax m e = true ->
  -1074 <= e <= 971 /\
  Z.pos (digits2_pos m) <= 53 /\ (e <> -1074 -> Z.pos (digits2_pos m) = 53).
Proof.
  unfold bounded, canonical_mantissa, fexp, emin, Number.prec, Number.emax.
  intros [H1 H2]%andb_true_iff. apply Z.eqb_eq in H1. apply Z.leb_le in H2. lia.
Qed.

Lemma denominator_pow : Z.pos Number.denominator = 2 ^ 1074.
Proof. unfold Number.denominator. by rewrite Pos2Z.inj_pow. Qed.

Lemma half_eq : Number.half = S754_finite false 4503599627370496 (-53).
Proof. by vm_compute. Qed.

Lemma zero_eq : Number.zero = S754_zero false.
Proof. by vm_compute. Qed.

Lemma one_eq : Number.one = S754_finite false 4503599627370496 (-52).
Proof. by vm_compute. Qed.

Lemma pow2_split (a b c : Z) : 0 <= a -> 0 <= b -> c = a + b -> 2 ^ c = 2 ^ a * 2 ^ b.
Proof. intros ? ? ->. by apply Z.pow_add_r. Qed.

Lemma pow2_pos (a : Z) : 0 <= a -> 0 < 2 ^ a.
Proof. intros. by apply Z.pow_pos_nonneg. Qed.


Lemma scaled_lt_below (m R Q : Z) :
  0 < R -> 2 <= Q -> 0 < m < 9007199254740992 -> m * R < R * Q * 4503599627370496.
Proof.
  intros HR HQ Hm.
  assert (m * R < 9007199254740992 * R) as H1 by (apply Z.mul_lt_mono_pos_r; lia).
  assert (2 * (4503599627370496 * R) <= Q * (4503599627370496 * R)) as H2
    by (apply Z.mul_le_mono_nonneg_r; lia).
  lia.
Qed.



Lemma pow2_ge_2 (a : Z) : 1 <= a -> 2 <= 2 ^ a.
Proof. intros Ha. change 2 with (2 ^ 1) at 1. apply Z.pow_le_mono_r; lia. Qed.

Lemma mantissa_bounds (m : positive) (e : Z) :
  bounded Number.prec Number.emax m e = true ->
  -1074 <= e <= 971 /\ Z.pos m < 9007199254740992 /\
  (e <> -1074 -> 4503599627370496 <= Z.pos m).
Proof.
  intros (He & Hd & Hn)%bounded_cases.
  pose proof (digits2_bounds m) as [Hlo Hhi].
  split; [done|]. split.
  - eapply Z.lt_le_trans; [exact Hhi|].
    change 9007199254740992 with (2 ^ 53). apply Z.pow_le_mono_r; lia.
  - intros Hne. rewrite (Hn Hne) in Hlo. exact Hlo.
Qed.


(** ** [getImpactLevel] *)

(** It is the double with the mantissa 8827055269646172 and the exponent
    -54, within half a unit in the last place of [49 / 100]. *)
Lemma literal_0_49_nearest :
  literal_0_49 = S754_finite false 8827055269646172 (-54)
  /\ Z.abs (100 * 8827055269646172 - 49 * 2 ^ 54) * 2 <= 100.
Proof. split; [by vm_compute | by vm_compute]. Qed.

Section Impact.
Context `{Builtins}.

Lemma getImpactLevel_number (x : spec_float) :
  getImpactLevel (JNum x) =
    Ok (if Number.eqb x Number.zero then High
        else if Number.ltb x Number.half then Medium else Low).
Proof.
  unfold getImpactLevel, strict_equals_number, less_than, ToNumber, bind.
  by destruct (Number.eqb x Number.zero).
Qed.

End Impact.

(** ** [getFriendlyDescription] *)

Lemma literal_lookup (entries : list (jsstring * jsstring)) (m : gmap jsstring jsstring)
    (k : jsstring) :
  foldl (fun m kv => <[kv.1 := kv.2]> m) m entries !! k =
    match last_declared entries k with Some t => Some t | None => m !! k end.
Proof.
  unfold last_declared. revert m.
  induction entries as [|[k' t'] entries IH]; intros m; [done|].
  simpl foldl. rewrite IH. rewrite filter_cons. simpl.
  destruct (decide (k' = k)) as [->|Hne].
  - rewrite last_cons.
    destruct (last (filter (fun kv => kv.1 = k) entries)) as [kv|]; simpl; [done|].
    by rewrite lookup_insert_eq.
  - destruct (last (filter (fun kv => kv.1 = k) entries)) as [kv|]; simpl; [done|].
    by rewrite lookup_insert_ne.
Qed.

Lemma friendlyDescriptions_last (k : jsstring) :
  friendlyDescriptions !! k = last_declared friendlyEntries k.
Proof.
  unfold friendlyDescriptions. rewrite literal_lookup, lookup_empty.
  by destruct (last_declared friendlyEntries k).
Qed.

Lemma friendlyEntries_nonempty :
  Forall (fun kv : jsstring * jsstring => kv.2 <> []) friendlyEntries.
Proof. unfold friendlyEntries. repeat (constructor; [discriminate|]). constructor. Qed.

Lemma friendlyDescriptions_truthy (k t : jsstring) :
  friendlyDescriptions !! k = Some t -> ToBoolean (JStr t) = true.
Proof.
  rewrite friendlyDescriptions_last. unfold last_declared.
  destruct (last (filter (fun kv => kv.1 = k) friendlyEntries)) as [kv|] eqn:E; [|done].
  simpl. intros [= <-]. apply last_Some_elem_of, list_elem_of_filter in E as [_ Hin].
  pose proof (proj1 (Forall_forall _ _) friendlyEntries_nonempty _ Hin) as Hne.
  simpl in Hne. destruct (kv.2); [by destruct Hne | reflexivity].
Qed.

(** C3. The friendly text of an identifier that the table has is the text
    of the table, whatever the description of the entry and whatever the
    category it is asked for; it is the text of the last property of that
    name in the literal, which for ['document-title'], written in the
    accessibility part and again in the SEO part, is the SEO one. For an
    identifier of an allowlist that the table does not have, the description
    of the entry is the result, as it is. *)
Theorem getFriendlyDescription_table (auditId : jsstring) :
  (forall t, friendlyDescriptions !! auditId = Some t ->
     last_declared friendlyEntries auditId = Some t
     /\ forall original, getFriendlyDescription auditId original = JStr t)
  /\ (forall c, In auditId (allowlist c) -> friendlyDescriptions !! auditId = None ->
        forall original, getFriendlyDescription auditId original = original)
  /\ (friendlyEntries !! 23%nat = Some (lit "document-title", document_title_accessibility)
      /\ friendlyEntries !! 36%nat = Some (lit "document-title", document_title_seo)
      /\ document_title_accessibility <> document_title_seo
      /\ In (lit "document-title") (allowlist Accessibility)
      /\ In (lit "document-title") (allowlist Seo)
      /\ forall original,
           getFriendlyDescription (lit "document-title") original = JStr document_title_seo).
Proof.
  split; [|split].
  - intros t Ht. split; [by rewrite <- friendlyDescriptions_last|].
    intros original. unfold getFriendlyDescription, or_else. rewrite Ht.
    change (from_option JStr JUndefined (Some t)) with (JStr t).
    by rewrite (friendlyDescriptions_truthy _ _ Ht).
  - intros c _ Hnone original. unfold getFriendlyDescription, or_else.
    by rewrite Hnone.
  - split; [reflexivity|]. split; [reflexivity|]. split; [discriminate|].
    split; [by vm_compute; auto 10|]. split; [by vm_compute; auto 10|].
    intros original. unfold getFriendlyDescription, or_else.
    assert (friendlyDescriptions !! lit "document-title" = Some document_title_seo) as ->
      by (by vm_compute).
    done.
Qed.

Lemma getFriendlyDescription_table_witness :
  getFriendlyDescription (lit "image-alt") JNull =
    JStr (lit "Some images are missing descriptions, making them inaccessible to screen readers and users with visual impairments.")
  /\ getFriendlyDescription (lit "focus-traps") (JStr (lit "d")) = JStr (lit "d").
Proof.
  split.
  - apply (proj1 (getFriendlyDescription_table (lit "image-alt"))). by vm_compute.
  - apply (proj1 (proj2 (getFriendlyDescription_table (lit "focus-traps"))) Accessibility).
    + vm_compute. auto 20.
    + by vm_compute.
Defined.

(** ** [extractApiRecommendations] *)

Lemma sequence_of_push (c c' : category) (rec : Recommendation) (r : Recommendations) :
  sequence_of c' (push c rec r) =
    if decide (c = c') then sequence_of c' r ++ [rec] else sequence_of c' r.
Proof. by destruct c, c'. Qed.

Lemma sequence_of_extend (c c' : category) (recs : list Recommendation) (r : Recommendations) :
  sequence_of c' (extend c recs r) =
    if decide (c = c') then sequence_of c' r ++ recs else sequence_of c' r.
Proof.
  unfold extend. revert r. induction recs as [|rec recs IH]; intros r; simpl.
  - destruct (decide (c = c')); [by rewrite app_nil_r | done].
  - rewrite IH, sequence_of_push. destruct (decide (c = c')); [|done].
    by rewrite <- app_assoc.
Qed.

Section Extractor.
Context `{Builtins}.

Lemma callback_pushed (c : category) (audits : jsval) (auditId : jsstring)
    (r : Recommendations) :
  callback c audits auditId r =
    let* recs := pushed audits auditId in Ok (extend c recs r).
Proof.
  unfold callback, pushed, bind.
  destruct (Get audits auditId) as [audit|]; [|done].
  destruct (qualifies audit) as [[|]|]; try done.
  by destruct (recommendation auditId audit).
Qed.

Lemma forEach_callback (c : category) (audits : jsval) (ids : list jsstring)
    (r r' : Recommendations) :
  forEach (callback c audits) ids r = Ok r' <->
  exists chunks,
    Forall2 (fun auditId recs => pushed audits auditId = Ok recs) ids chunks
    /\ r' = extend c (concat chunks) r.
Proof.
  revert r. induction ids as [|auditId ids IH]; intros r; simpl.
  - split.
    + intros [= <-]. exists []. by split; [constructor|].
    + intros (chunks & Hall & ->). by inversion Hall.
  - rewrite callback_pushed. unfold bind at 1 2.
    destruct (pushed audits auditId) as [recs|e] eqn:E.
    + rewrite IH. split.
      * intros (chunks & Hall & ->). exists (recs :: chunks).
        split; [by constructor|]. unfold extend. simpl. by rewrite foldl_app.
      * intros (chunks & Hall & ->). inversion Hall as [|? recs' ? chunks' Hp Hall']; subst.
        rewrite E in Hp. injection Hp as <-. exists chunks'.
        split; [done|]. unfold extend. simpl. by rewrite foldl_app.
    + split; [done|]. intros (chunks & Hall & _).
      inversion Hall as [|? recs' ? chunks' Hp Hall']; subst. congruence.
Qed.

(** The result of the extractor, sequence by sequence: what the callback
    pushes for the identifiers of the allowlist, in the order of the
    allowlist. *)
Lemma extract_sequences (audits : jsval) (r : Recommendations) :
  extractApiRecommendations audits = Ok r ->
  forall c, exists chunks,
    Forall2 (fun auditId recs => pushed audits auditId = Ok recs) (allowlist c) chunks
    /\ sequence_of c r = concat chunks.
Proof.
  unfold extractApiRecommendations, bind.
  destruct (forEach (callback Performance audits) _ _) as [r1|] eqn:E1; [|done].
  destruct (forEach (callback Accessibility audits) _ _) as [r2|] eqn:E2; [|done].
  destruct (forEach (callback BestPractices audits) _ _) as [r3|] eqn:E3; [|done].
  destruct (forEach (callback Seo audits) _ _) as [r4|] eqn:E4; [|done].
  intros [= <-].
  apply forEach_callback in E1 as (ch1 & H1 & ->).
  apply forEach_callback in E2 as (ch2 & H2 & ->).
  apply forEach_callback in E3 as (ch3 & H3 & ->).
  apply forEach_callback in E4 as (ch4 & H4 & ->).
  intros c. destruct c; [exists ch1 | exists ch2 | exists ch3 | exists ch4];
    (split; [done|]); rewrite !sequence_of_extend; by simpl.
Qed.

(** The extractor returns when the callback returns for every identifier
    of the allowlists. *)
Lemma extract_returns (audits : jsval) :
  (forall c auditId, In auditId (allowlist c) -> returns (pushed audits auditId)) ->
  returns (extractApiRecommendations audits).
Proof.
  intros Hall.
  assert (forall c ids r, (forall auditId, In auditId ids -> returns (pushed audits auditId)) ->
            returns (forEach (callback c audits) ids r)) as Hloop.
  { intros c ids. induction ids as [|auditId ids IH]; intros r Hids; [by eexists|].
    simpl. rewrite callback_pushed.
    destruct (Hids auditId (or_introl eq_refl)) as [recs ->]. unfold bind at 1 2.
    apply IH. intros a Ha. apply Hids. by right. }
  unfold extractApiRecommendations.
  destruct (Hloop Performance performanceAudits
              {| performance := []; accessibility := []; bestPractices := []; seo := [] |}
              (Hall Performance)) as [r1 ->]. cbn [bind].
  destruct (Hloop Accessibility accessibilityAudits r1 (Hall Accessibility)) as [r2 ->].
  cbn [bind].
  destruct (Hloop BestPractices bestPracticesAudits r2 (Hall BestPractices)) as [r3 ->].
  cbn [bind].
  destruct (Hloop Seo seoAudits r3 (Hall Seo)) as [r4 ->]. cbn [bind].
  by eexists.
Qed.
End Extractor.

(** *** Which identifiers give a recommendation *)

Lemma Get_truthy (v : jsval) (k : jsstring) : ToBoolean v = true -> Get v k = Ok (field v k).
Proof. unfold field. by destruct v. Qed.

Lemma Get_object (props : list (jsstring * jsval)) (k : jsstring) :
  Get (JObj props) k = Ok (field (JObj props) k).
Proof. done. Qed.

Lemma processDescription_shape (v : jsval) :
  text_or_falsy v ->
  (exists s, processDescription v = Ok (JStr s))
  \/ (exists t u, processDescription v =
        Ok (JObj [(lit "text", JStr t); (lit "learnMoreUrl", JStr u)])).
Proof.
  unfold processDescription. intros Hv.
  destruct (ToBoolean v) eqn:Eb; simpl negb; cbv iota; [|left; by eauto].
  destruct v as [| |b|x|s|l|props]; unfold text_or_falsy in Hv; try congruence.
  destruct (RegExp.match_all urlRegex s 0); [left | right]; by eauto.
Qed.

Lemma getFriendlyDescription_shape (auditId : jsstring) (original : jsval) :
  text_or_falsy original -> text_or_falsy (getFriendlyDescription auditId original).
Proof.
  unfold getFriendlyDescription, or_else. intros Ho.
  destruct (friendlyDescriptions !! auditId) as [t|]; simpl; [|done].
  by destruct t.
Qed.

Section Qualifying.
Context `{Builtins}.

Lemma ToNumber_primitive (v : jsval) : primitive v -> returns (ToNumber v).
Proof. destruct v as [| |[|]| | | |]; simpl; try done; by eexists. Qed.

Lemma less_than_primitive (v : jsval) (y : spec_float) :
  primitive v -> returns (less_than v y).
Proof.
  intros [x Hx]%ToNumber_primitive. unfold less_than. rewrite Hx. by eexists.
Qed.

Lemma qualifies_true (audit : jsval) :
  qualifies audit = Ok true <->
  ToBoolean audit = true
  /\ field audit (lit "score") <> JNull
  /\ less_than (field audit (lit "score")) Number.one = Ok true
  /\ ToBoolean (field audit (lit "title")) = true
  /\ ToBoolean (field audit (lit "description")) = true.
Proof.
  unfold qualifies. destruct (ToBoolean audit) eqn:Ea; simpl; [|split; [done|by intros []]].
  rewrite !(Get_truthy audit) by done. cbn [bind].
  destruct (field audit (lit "score")) as [| |b|x|s|l|props] eqn:Es; simpl strict_equals_null;
    cbv iota; try (split; [done | by intros (_ & ? & _)]).
  all: destruct (less_than _ Number.one) as [[|]|e] eqn:El; cbn [bind negb];
    try (split; [done | by intros (_ & _ & ? & _)]).
  all: destruct (ToBoolean (field audit (lit "title"))) eqn:Et; cbn [bind negb];
    try (split; [done | by intros (_ & _ & _ & ? & _)]).
  all: split; [by intros [= ->] | by intros (_ & _ & _ & _ & ->)].
Qed.

Lemma qualifies_skipped (audits : jsval) (auditId : jsstring) :
  qualifies (field audits auditId) = Ok true <-> ~ skipped audits auditId.
Proof.
  rewrite qualifies_true. unfold skipped. cbv zeta. split.
  - intros (Ha & Hs & Hl & Ht & Hd) [Hsk|[Hsk|[Hsk|[Hsk|Hsk]]]]; congruence.
  - intros Hn.
    destruct (ToBoolean (field audits auditId)) eqn:Ea;
      [|exfalso; apply Hn; by left].
    destruct (ToBoolean (field (field audits auditId) (lit "title"))) eqn:Et;
      [|exfalso; apply Hn; by do 3 right; left].
    destruct (ToBoolean (field (field audits auditId) (lit "description"))) eqn:Ed;
      [|exfalso; apply Hn; by do 4 right].
    split; [done|]. split; [intros Hs; apply Hn; by right; left|].
    split; [|done].
    destruct (less_than (field (field audits auditId) (lit "score")) Number.one)
      as [[|]|e] eqn:El; [done|exfalso; apply Hn; do 2 right; left; congruence..].
Qed.

(** What the callback pushes for an identifier when it returns: nothing
    for a skipped one, one object otherwise. *)
Lemma pushed_cases (props : list (jsstring * jsval)) (auditId : jsstring)
    (recs : list Recommendation) :
  pushed (JObj props) auditId = Ok recs ->
  (skipped (JObj props) auditId -> recs = [])
  /\ (~ skipped (JObj props) auditId ->
      exists rec, recs = [rec]
        /\ recommendation auditId (field (JObj props) auditId) = Ok rec).
Proof.
  unfold pushed. rewrite Get_object. cbn [bind].
  pose proof (qualifies_skipped (JObj props) auditId) as Hq.
  destruct (qualifies (field (JObj props) auditId)) as [[|]|e]; cbn [bind]; [| |done].
  - destruct (recommendation auditId (field (JObj props) auditId)) as [rec|e];
      cbn [bind]; [|done].
    intros [= <-]. split; [intros Hs; by apply Hq in Hs|]. by eauto.
  - intros [= <-]. split; [done|]. intros Hs. apply Hq in Hs. done.
Qed.
End Qualifying.

(** ** The proxy function *)

Lemma io_bind_Ok {A B : Type} (a : A) (k : A -> io B) : io_bind (lift (Ok a)) k = k a.
Proof. unfold io_bind, lift. by destruct (k a). Qed.

Lemma io_bind_pair {A B : Type} (a : A) (log : list event) (k : A -> io B) :
  io_bind (Ok a, log) k = ((k a).1, log ++ (k a).2).
Proof. unfold io_bind. by destruct (k a). Qed.

Lemma io_bind_Throw {A B : Type} (e : exn) (k : A -> io B) :
  io_bind (lift (Throw e)) k = (Throw e, []).
Proof. done. Qed.

Lemma Get_defined (v : jsval) (k : jsstring) :
  v <> JNull -> v <> JUndefined -> Get v k = Ok (field v k).
Proof. unfold field. by destruct v. Qed.

Lemma error_response_Ok (message : jsstring) (st : Z) :
  200 <= st <= 599 -> null_body_status st = false ->
  error_response (JStr message) st = Ok (error_of message st).
Proof.
  intros Hst Hnb. unfold error_response, new_Response. rewrite Hnb, andb_false_r.
  destruct (Z.ltb_spec st 200); [lia|]. destruct (Z.ltb_spec 599 st); [lia|]. done.
Qed.

Lemma own_keys_singleton (k : jsstring) (v : jsval) : own_keys [(k, v)] = [k].
Proof.
  unfold own_keys. simpl. change (reverse [k]) with [k].
  rewrite filter_cons, filter_nil.
  destruct (array_index k) as [n|] eqn:E; reflexivity.
Qed.

Lemma written_singleton (k : jsstring) (v : jsval) :
  v <> JUndefined -> written [(k, v)] = [(k, v)].
Proof.
  intros Hv. unfold written. rewrite own_keys_singleton. simpl.
  rewrite decide_True by done. by destruct v.
Qed.

Lemma stringified_truthy (v : jsval) : ToBoolean v = true -> stringified v <> JUndefined.
Proof. destruct v as [| |b|[]|s|elems|props]; done. Qed.

Lemma upstream_message_field (H : Builtins) (d : jsval) :
  d <> JNull -> d <> JUndefined ->
  upstream_message d = Ok (field (field d (lit "error")) (lit "message")).
Proof.
  intros Hn Hu. unfold upstream_message. rewrite (Get_defined d) by done. cbn [bind].
  destruct (field d (lit "error")) as [| |b|x|s|elems|props]; try reflexivity.
Qed.

Section HandlerProperties.
Context `{Builtins}.
Variable fetch : jsstring -> result Fetched.

(** The events of the [try]: a fetch at most, and it comes first. *)
Lemma try_block_events (context : Context) :
  (exists rest, (try_block fetch context).2 = rest /\ fetches rest = [])
  \/ (exists target rest,
        (try_block fetch context).2 = Fetch target :: rest /\ fetches rest = []).
Proof.
  unfold try_block.
  destruct (negb (ToBoolean (GOOGLE_PAGESPEED_API_KEY (env context)))); [left; by eexists|].
  destruct (json (request context)) as [data|e];
    [rewrite io_bind_Ok | rewrite io_bind_Throw; left; by eexists].
  destruct (Get data (lit "url")) as [url|e];
    [rewrite io_bind_Ok | rewrite io_bind_Throw; left; by eexists].
  destruct (Get data (lit "strategy")) as [strategy|e];
    [rewrite io_bind_Ok | rewrite io_bind_Throw; left; by eexists].
  destruct (Get data (lit "categories")) as [categories|e];
    [rewrite io_bind_Ok | rewrite io_bind_Throw; left; by eexists].
  destruct (negb (ToBoolean url)); [left; by eexists|].
  destruct (googleApiUrl _ _ _ _) as [target|e];
    [rewrite io_bind_Ok | rewrite io_bind_Throw; left; by eexists].
  right. exists target. unfold io_bind at 1.
  destruct (fetch target) as [response|e]; [|by eexists].
  destruct (negb (ok response)).
  - unfold io_bind at 1.
    destruct (errorMessage _ _) as [message|e];
      [rewrite io_bind_Ok | rewrite io_bind_Throw]; by eexists.
  - destruct (fetched_json response) as [data'|e];
      [rewrite io_bind_Ok | rewrite io_bind_Throw]; by eexists.
Qed.
Lemma onRequestPost_try (context : Context) :
  method (request context) <> lit "OPTIONS" ->
  onRequestPost fetch context =
    match try_block fetch context with
    | (Ok response, log) => (Ok response, log)
    | (Throw _, log) =>
        (Ok (error_of (lit "Internal server error") 500), log ++ [ConsoleError])
    end.
Proof.
  intros Hm. unfold onRequestPost. rewrite bool_decide_eq_false_2 by done.
  destruct (try_block fetch context) as [[response|e] log]; [done|].
  unfold io_bind, lift. rewrite error_response_Ok by first [lia | reflexivity].
  by rewrite app_nil_r.
Qed.

(** C6. What the handler answers to a request that is no preflight, case
    by case. Without a credential: 500 with ['API key not configured'].
    With one: a body that is no JSON, or is the JSON [null], gives 500 with
    ['Internal server error']; a body without a [url] that counts as true
    gives 400 with ['URL is required']; when the address of the upstream
    service cannot be built, or the request to it fails, the answer is the
    500 of an internal error. When the upstream service answers with a
    status outside 200..299: 403 and 429 are kept with their own messages;
    for another status the answer is the 500 of an internal error when the
    body of the upstream answer is the JSON [null], or when the status is
    304 or outside 200..599; otherwise the answer has the upstream status,
    and its message is [error.message] of the upstream body where that is
    there and counts as true, and ['API error occurred'] where it is not,
    as when the body is no JSON. A success of the upstream service with a
    body that is no JSON gives the 500 of an internal error. No case asks
    the upstream service twice, and in every case there is a response. *)
Theorem onRequestPost_taxonomy (context : Context) :
  method (request context) <> lit "OPTIONS" ->
  let apiKey := GOOGLE_PAGESPEED_API_KEY (env context) in
  let internal := error_of (lit "Internal server error") 500 in
  let answer := onRequestPost fetch context in
  (ToBoolean apiKey = false ->
     answer = (Ok (error_of (lit "API key not configured") 500), []))
  /\ (ToBoolean apiKey = true ->
      (forall e, json (request context) = Throw e -> answer = (Ok internal, [ConsoleError]))
      /\ (json (request context) = Ok JNull -> answer = (Ok internal, [ConsoleError]))
      /\ (json (request context) = Ok JUndefined -> answer = (Ok internal, [ConsoleError]))
      /\ (forall data, json (request context) = Ok data ->
          data <> JNull -> data <> JUndefined ->
          let url := field data (lit "url") in
          let built :=
            googleApiUrl url apiKey
              (default_to (JStr (lit "desktop")) (field data (lit "strategy")))
              (default_to (JArr [JStr (lit "performance"); JStr (lit "accessibility");
                                 JStr (lit "best-practices"); JStr (lit "seo")])
                 (field data (lit "categories"))) in
          (ToBoolean url = false ->
             answer = (Ok (error_of (lit "URL is required") 400), []))
          /\ (ToBoolean url = true ->
              (forall e, built = Throw e -> answer = (Ok internal, [ConsoleError]))
              /\ (forall target, built = Ok target ->
                  (forall e, fetch target = Throw e ->
                     answer = (Ok internal, [Fetch target; ConsoleError]))
                  /\ (forall response, fetch target = Ok response ->
                      let st := fetched_status response in
                      let upstream := fetched_json response in
                      (st = 403 ->
                         answer =
                           (Ok (error_of (lit "API key is invalid or quota exceeded") 403),
                            [Fetch target; ConsoleError]))
                      /\ (st = 429 ->
                          answer =
                            (Ok (error_of
                                   (lit "API rate limit exceeded. Please try again later") 429),
                             [Fetch target; ConsoleError]))
                      /\ (st < 200 \/ 299 < st -> st <> 403 -> st <> 429 ->
                          (upstream = Ok JNull \/ upstream = Ok JUndefined ->
                             answer =
                               (Ok internal, [Fetch target; ConsoleError; ConsoleError]))
                          /\ (upstream <> Ok JNull -> upstream <> Ok JUndefined ->
                              let message :=
                                match upstream with
                                | Ok errorData =>
                                    field (field errorData (lit "error")) (lit "message")
                                | Throw _ => JUndefined
                                end in
                              let errorMessage :=
                                if ToBoolean message then message
                                else JStr (lit "API error occurred") in
                              let relayed :=
                                {| body := Some (JObj [(lit "error", errorMessage)]);
                                   status := st; headers := jsonHeaders |} in
                              (st < 200 \/ 599 < st \/ st = 304 ->
                                 answer =
                                   (Ok internal, [Fetch target; ConsoleError; ConsoleError]))
                              /\ (300 <= st <= 599 -> st <> 304 ->
                                  answer = (Ok relayed, [Fetch target; ConsoleError])
                                  /\ received relayed =
                                       Ok (JObj [(lit "error", stringified errorMessage)])
                                  /\ (forall text, message = JStr text -> text <> [] ->
                                      answer =
                                        (Ok (error_of text st), [Fetch target; ConsoleError])
                                      /\ received relayed =
                                           Ok (JObj [(lit "error", JStr text)]))
                                  /\ (ToBoolean message = false ->
                                      answer =
                                        (Ok (error_of (lit "API error occurred") st),
                                         [Fetch target; ConsoleError])))))
                      /\ (200 <= st <= 299 ->
                          (forall e, upstream = Throw e ->
                             answer = (Ok internal, [Fetch target; ConsoleError]))
                          /\ (forall result, upstream = Ok result ->
                              answer =
                                (Ok {| body := Some result; status := 200;
                                       headers := jsonHeaders |},
                                 [Fetch target]))))))))
  /\ (forall e log, try_block fetch context = (Throw e, log) ->
        answer = (Ok internal, log ++ [ConsoleError]))
  /\ (length (fetches answer.2) <= 1)%nat
  /\ exists response, answer.1 = Ok response.
Proof.
  intros Hm apiKey internal answer. subst answer internal.
  rewrite (onRequestPost_try _ Hm).
  split; [|split; [|split; [|split]]].
  - intros Hk. unfold try_block. fold apiKey. rewrite Hk. simpl negb. cbv iota.
    unfold lift. by rewrite error_response_Ok by first [lia | reflexivity].
  - intros Hk.
    assert (forall r, json (request context) = r ->
            try_block fetch context =
              let+ requestData := lift r in
              let+ url := lift (Get requestData (lit "url")) in
              let+ strategy := lift (Get requestData (lit "strategy")) in
              let strategy := default_to (JStr (lit "desktop")) strategy in
              let+ categories := lift (Get requestData (lit "categories")) in
              let categories :=
                default_to (JArr [JStr (lit "performance"); JStr (lit "accessibility");
                                  JStr (lit "best-practices"); JStr (lit "seo")])
                  categories in
              if negb (ToBoolean url) then
                lift (error_response (JStr (lit "URL is required")) 400)
              else
                let+ target := lift (googleApiUrl url apiKey strategy categories) in
                let+ response := (fetch target, [Fetch target]) in
                if negb (ok response) then
                  let errorData :=
                    match fetched_json response with Ok d => d | Throw _ => JObj [] end in
                  let+ _ := (Ok tt, [ConsoleError]) in
                  let+ message := lift (errorMessage (fetched_status response) errorData) in
                  lift (error_response message (fetched_status response))
                else
                  let+ data := lift (fetched_json response) in
                  lift (new_Response (Some data) 200 jsonHeaders)) as Htry.
    { intros r <-. unfold try_block. fold apiKey. rewrite Hk. reflexivity. }
    split; [|split; [|split]].
    + intros e He. rewrite (Htry _ He). by rewrite io_bind_Throw.
    + intros He. rewrite (Htry _ He). rewrite io_bind_Ok. cbn [Get].
      by rewrite io_bind_Throw.
    + intros He. rewrite (Htry _ He). rewrite io_bind_Ok. cbn [Get].
      by rewrite io_bind_Throw.
    + intros data Hd Hnull Hundef url built. rewrite (Htry _ Hd). clear Htry.
      rewrite io_bind_Ok, !(Get_defined data) by done. rewrite !io_bind_Ok. cbv zeta.
      split.
      * intros Hurl. unfold url in Hurl. rewrite Hurl. simpl negb. cbv iota. unfold lift.
        by rewrite error_response_Ok by first [lia | reflexivity].
      * intros Hurl. unfold url in Hurl. rewrite Hurl. simpl negb. cbv iota. split.
        -- intros e He. unfold built, url in He. rewrite He. by rewrite io_bind_Throw.
        -- intros target He. unfold built, url in He. rewrite He, io_bind_Ok. split.
           ++ intros e ->. done.
           ++ intros response Hf. rewrite Hf.
              set (st := fetched_status response).
              set (upstream := fetched_json response). rewrite io_bind_pair.
              assert (forall m, 200 <= st <= 599 -> st <> 304 -> ~ 200 <= st <= 299 ->
                        error_response m st =
                          Ok {| body := Some (JObj [(lit "error", m)]);
                                status := st; headers := jsonHeaders |}) as Her.
              { intros m Hst H304 Hnok. unfold error_response, new_Response.
                destruct (Z.ltb_spec st 200); [lia|].
                destruct (Z.ltb_spec 599 st); [lia|]. cbn [orb].
                assert (null_body_status st = false) as ->; [|by rewrite andb_false_r].
                unfold null_body_status.
                repeat (match goal with
                        | |- context [(st =? ?n)] => destruct (Z.eqb_spec st n); [lia|]
                        end).
                reflexivity. }
              assert (forall m, st < 200 \/ 599 < st \/ st = 304 ->
                        error_response m st = Throw RangeError
                        \/ error_response m st = Throw TypeError) as Hbad.
              { intros m Hst. unfold error_response, new_Response.
                destruct (Z.ltb_spec st 200); [by left|].
                destruct (Z.ltb_spec 599 st); [by left|]. cbn [orb].
                assert (st = 304) as -> by lia. by right. }
              assert (st < 200 \/ 299 < st -> ok response = false) as Hnok.
              { intros Hst. unfold ok. fold st.
                destruct (Z.leb_spec 200 st); [|done].
                destruct (Z.leb_spec st 299); [lia|done]. }
              split; [|split; [|split]].
              ** intros Hst. rewrite Hnok by lia. simpl negb. cbv iota.
                 rewrite io_bind_pair. unfold errorMessage. fold st. rewrite Hst.
                 simpl Z.eqb. cbv iota. rewrite io_bind_Ok. unfold lift.
                 by rewrite error_response_Ok by first [lia | reflexivity].
              ** intros Hst. rewrite Hnok by lia. simpl negb. cbv iota.
                 rewrite io_bind_pair. unfold errorMessage. fold st. rewrite Hst.
                 simpl Z.eqb. cbv iota. rewrite io_bind_Ok. unfold lift.
                 by rewrite error_response_Ok by first [lia | reflexivity].
              ** intros Hst H403 H429. rewrite (Hnok Hst). simpl negb. cbv iota.
                 rewrite io_bind_pair. unfold errorMessage. fold st. fold upstream.
                 rewrite (proj2 (Z.eqb_neq _ 403) H403), (proj2 (Z.eqb_neq _ 429) H429).
                 split.
                 --- intros [-> | ->]; unfold upstream_message; cbn [Get bind];
                       by rewrite io_bind_Throw.
                 --- intros Hn Hu.
                     set (message :=
                            match upstream with
                            | Ok errorData =>
                                field (field errorData (lit "error")) (lit "message")
                            | Throw _ => JUndefined
                            end).
                     assert (upstream_message
                               match upstream with Ok d => d | Throw _ => JObj [] end
                             = Ok message) as ->.
                     { subst message. destruct upstream as [d|e]; [|reflexivity].
                       apply upstream_message_field; congruence. }
                     cbn [bind].
                     set (errorMessage' :=
                            if ToBoolean message then message
                            else JStr (lit "API error occurred")).
                     set (relayed :=
                            {| body := Some (JObj [(lit "error", errorMessage')]);
                               status := st; headers := jsonHeaders |}).
                     assert ((if ToBoolean message then Ok message
                              else Ok (JStr (lit "API error occurred")))
                             = Ok errorMessage') as ->.
                     { subst errorMessage'. by destruct (ToBoolean message). }
                     rewrite io_bind_Ok. unfold lift.
                     split.
                     +++ intros Hbadst.
                         by destruct (Hbad errorMessage' Hbadst) as [-> | ->].
                     +++ intros Hrange H304. rewrite Her by lia. fold relayed.
                         assert (stringified errorMessage' <> JUndefined) as Hdef.
                         { subst errorMessage'.
                           destruct (ToBoolean message) eqn:Et;
                             [by apply stringified_truthy | done]. }
                         assert (received relayed =
                                   Ok (JObj [(lit "error", stringified errorMessage')]))
                           as Hrec.
                         { unfold received, relayed. cbn [body stringified].
                           cbn [map fst snd]. by rewrite written_singleton. }
                         split; [reflexivity|]. split; [exact Hrec|]. split.
                         *** intros text Ht Hne. rewrite Hrec. unfold relayed.
                             subst errorMessage'. rewrite Ht.
                             destruct text; [done|]. done.
                         *** intros Hfalse. unfold relayed. subst errorMessage'.
                             by rewrite Hfalse.
              ** intros Hst. assert (ok response = true) as ->.
                 { unfold ok. fold st.
                   destruct (Z.leb_spec 200 st); [|lia].
                   destruct (Z.leb_spec st 299); [done|lia]. }
                 simpl negb. cbv iota. fold upstream. split.
                 --- intros e ->. by rewrite io_bind_Throw.
                 --- intros result ->. by rewrite io_bind_Ok.
  - intros e log ->. done.
  - destruct (try_block_events context) as [(rest & Hr & Hf)|(t & rest & Hr & Hf)];
      destruct (try_block fetch context) as [[response|e] log]; simpl in Hr; subst log;
      simpl; unfold fetches in *; try rewrite omap_app; simpl; rewrite ?Hf; simpl; lia.
  - destruct (try_block fetch context) as [[response|e] log]; by eexists.
Qed.
End HandlerProperties.

Lemma onRequestPost_taxonomy_witness :
  onRequestPost (H := example_host)
    (fun _ => Ok {| fetched_status := 500;
                    fetched_json :=
                      Ok (JObj [(lit "error",
                                 JObj [(lit "message", JStr (lit "Boom"))])]) |})
    example_context
  = (Ok (error_of (lit "Boom") 500), [Fetch example_target; ConsoleError]).
Proof.
  set (upstream := JObj [(lit "error", JObj [(lit "message", JStr (lit "Boom"))])]).
  set (fetch := fun _ : jsstring =>
                  Ok {| fetched_status := 500; fetched_json := Ok upstream |}).
  assert (method (request example_context) <> lit "OPTIONS") as Hm by discriminate.
  pose proof (onRequestPost_taxonomy (H := example_host) fetch example_context Hm) as Ht.
  cbv zeta in Ht. destruct Ht as (_ & Hkey & _).
  destruct (Hkey eq_refl) as (_ & _ & _ & Hdata).
  destruct (Hdata (request_body (lit "https://x.test")) eq_refl
              ltac:(discriminate) ltac:(discriminate)) as [_ Hurl].
  destruct (Hurl eq_refl) as [_ Htarget].
  destruct (Htarget example_target eq_refl) as [_ Hresponse].
  destruct (Hresponse {| fetched_status := 500; fetched_json := Ok upstream |} eq_refl)
    as (_ & _ & Hother & _).
  destruct (Hother ltac:(right; reflexivity) ltac:(discriminate) ltac:(discriminate))
    as [_ Hbody].
  destruct (Hbody ltac:(discriminate) ltac:(discriminate)) as [_ Hrelayed].
  destruct (Hrelayed ltac:(split; discriminate) ltac:(discriminate))
    as (_ & _ & Htext & _).
  exact (proj1 (Htext (lit "Boom") eq_refl ltac:(discriminate))).
Defined.

(** Where the taxonomy has the 500 of an internal error for a request or an
    upstream answer that is well formed. A request whose body is the JSON
    [null] has no [url]: the answer is not the 400 of a missing [url]. An
    upstream answer with the status 404 whose body is the JSON [null] has
    no message: the answer is not 404 with ['API error occurred']. An
    upstream answer with the status 304 is not answered with 304. *)
Lemma onRequestPost_taxonomy_counterexample :
  onRequestPost (H := example_host) example_upstream
    {| request := {| method := lit "POST"; json := Ok JNull |};
       env := {| GOOGLE_PAGESPEED_API_KEY := JStr (lit "secret") |} |}
  = (Ok (error_of (lit "Internal server error") 500), [ConsoleError])
  /\ onRequestPost (H := example_host)
       (fun _ => Ok {| fetched_status := 404; fetched_json := Ok JNull |})
       example_context
     = (Ok (error_of (lit "Internal server error") 500),
        [Fetch example_target; ConsoleError; ConsoleError])
  /\ onRequestPost (H := example_host)
       (fun _ => Ok {| fetched_status := 304; fetched_json := Ok (JObj []) |})
       example_context
     = (Ok (error_of (lit "Internal server error") 500),
        [Fetch example_target; ConsoleError; ConsoleError]).
Proof. split; [|split]; reflexivity. Qed.

Lemma new_Response_Ok (b : option jsval) (st : Z) (hs : list (jsstring * jsstring))
    (r : Response) :
  new_Response b st hs = Ok r -> body r = b /\ status r = st /\ headers r = hs.
Proof.
  unfold new_Response.
  destruct ((st <? 200) || (599 <? st)); [done|].
  destruct (bool_decide (is_Some b) && null_body_status st); [done|].
  by intros [= <-].
Qed.

Lemma io_bind_inv {A B : Type} (m : io A) (k : A -> io B) (b : B) (log : list event) :
  io_bind m k = (Ok b, log) ->
  exists a l1 l2, m = (Ok a, l1) /\ k a = (Ok b, l2) /\ log = l1 ++ l2.
Proof.
  unfold io_bind. destruct m as [[a|e] l1]; [|done].
  destruct (k a) as [r l2] eqn:E. intros [= -> <-]. by exists a, l1, l2.
Qed.

Section Headers.
Context `{Builtins}.
Variable fetch : jsstring -> result Fetched.

(** A response that the [try] returns has a body and the JSON headers. *)
Lemma try_block_response (context : Context) (r : Response) (log : list event) :
  try_block fetch context = (Ok r, log) ->
  is_Some (body r) /\ headers r = jsonHeaders.
Proof.
  assert (forall b st l, lift (new_Response (Some b) st jsonHeaders) = (Ok r, l) ->
            is_Some (body r) /\ headers r = jsonHeaders) as Hleaf.
  { unfold lift. intros b st l [= (Hb & _ & Hh)%new_Response_Ok _]. by rewrite Hb. }
  unfold try_block, error_response.
  destruct (negb (ToBoolean (GOOGLE_PAGESPEED_API_KEY (env context)))); [by apply Hleaf|].
  intros (data & ? & ? & _ & Hk & _)%io_bind_inv. revert Hk.
  intros (url & ? & ? & _ & Hk & _)%io_bind_inv. revert Hk.
  intros (strategy & ? & ? & _ & Hk & _)%io_bind_inv. revert Hk.
  intros (categories & ? & ? & _ & Hk & _)%io_bind_inv. revert Hk.
  destruct (negb (ToBoolean url)); [by apply Hleaf|].
  intros (target & ? & ? & _ & Hk & _)%io_bind_inv. revert Hk.
  intros (response & ? & ? & _ & Hk & _)%io_bind_inv. revert Hk.
  destruct (negb (ok response)).
  - intros (? & ? & ? & _ & Hk & _)%io_bind_inv. revert Hk.
    intros (message & ? & ? & _ & Hk & _)%io_bind_inv. revert Hk. by apply Hleaf.
  - intros (data' & ? & ? & _ & Hk & _)%io_bind_inv. revert Hk. by apply Hleaf.
Qed.

Lemma onRequestPost_options (context : Context) :
  method (request context) = lit "OPTIONS" ->
  onRequestPost fetch context =
    (Ok {| body := None; status := 200; headers := corsHeaders |}, []).
Proof.
  intros Hm. unfold onRequestPost. by rewrite bool_decide_eq_true_2 by done.
Qed.

(** The branch of the preflight: called with a request with the method
    [OPTIONS], the handler answers at once, with the three CORS headers and
    no body; nothing is read and the upstream service is not asked. *)
Lemma onRequestPost_preflight (context : Context) :
  method (request context) = lit "OPTIONS" ->
  exists response,
    onRequestPost fetch context = (Ok response, [])
    /\ body response = None
    /\ status response = 200
    /\ header (lit "Access-Control-Allow-Origin") response = Some (lit "*")
    /\ header (lit "Access-Control-Allow-Methods") response = Some (lit "POST, OPTIONS")
    /\ header (lit "Access-Control-Allow-Headers") response = Some (lit "Content-Type").
Proof.
  intros Hm. rewrite (onRequestPost_options context Hm).
  eexists. split; [reflexivity|]. by vm_compute.
Qed.

(** C10. Whatever the request and whatever the upstream service does, the
    handler answers, its response has the header
    [Access-Control-Allow-Origin] with the value [*], and when the
    response has a body it has the header [Content-Type] with the value
    [application/json]. *)
Theorem onRequestPost_headers (context : Context) :
  exists response log,
    onRequestPost fetch context = (Ok response, log)
    /\ header (lit "Access-Control-Allow-Origin") response = Some (lit "*")
    /\ (body response <> None ->
        header (lit "Content-Type") response = Some (lit "application/json")).
Proof.
  destruct (decide (method (request context) = lit "OPTIONS")) as [Hm|Hm].
  - rewrite (onRequestPost_options context Hm).
    eexists _, _. split; [reflexivity|]. by vm_compute.
  - rewrite (onRequestPost_try fetch context Hm).
    destruct (try_block fetch context) as [[response|e] log] eqn:E.
    + apply try_block_response in E as [_ Hh].
      exists response, log. split; [done|]. unfold header. rewrite Hh. by vm_compute.
    + eexists _, _. split; [reflexivity|]. by vm_compute.
Qed.
(** C9. A preflight request does not reach the branch that answers it. The
    file exports [onRequestPost] alone, which takes the requests of the
    method [POST]: a request to the endpoint with the method [OPTIONS] is
    given to no function of the file, so the handler does not answer it,
    and every request that the handler is called with has the method
    [POST] and takes the path of the [try]. Called with an [OPTIONS]
    request all the same, the handler answers with the CORS headers and no
    body. *)
Theorem endpoint_preflight_unreached (context : Context) :
  routed (lit "OPTIONS") = None
  /\ (method (request context) = lit "OPTIONS" -> endpoint fetch context = None)
  /\ (forall result, endpoint fetch context = Some result ->
        method (request context) = lit "POST"
        /\ result = onRequestPost fetch context
        /\ result =
             match try_block fetch context with
             | (Ok response, log) => (Ok response, log)
             | (Throw _, log) =>
                 (Ok (error_of (lit "Internal server error") 500), log ++ [ConsoleError])
             end)
  /\ (method (request context) = lit "OPTIONS" ->
      onRequestPost fetch context =
        (Ok {| body := None; status := 200; headers := corsHeaders |}, [])).
Proof.
  split; [reflexivity|]. split; [|split].
  - intros Hm. unfold endpoint. rewrite Hm. reflexivity.
  - intros result. unfold endpoint, routed, method_export.
    repeat (destruct (bool_decide (method (request context) = _)) eqn:E;
            [apply bool_decide_eq_true in E; rewrite E; try discriminate|clear E]);
      try discriminate.
    change (head _) with (Some (lit "onRequestPost")). cbv iota.
    rewrite bool_decide_eq_true_2 by reflexivity. intros [= <-].
    split; [reflexivity|]. split; [reflexivity|].
    apply onRequestPost_try. rewrite E. discriminate.
  - apply onRequestPost_options.
Qed.
End Headers.

Lemma endpoint_preflight_unreached_witness :
  endpoint (H := example_host) (fun _ => Throw TypeError)
    {| request := {| method := lit "OPTIONS"; json := Throw SyntaxError |};
       env := {| GOOGLE_PAGESPEED_API_KEY := JStr (lit "secret") |} |} = None.
Proof.
  apply (proj1 (proj2 (endpoint_preflight_unreached (H := example_host)
                         (fun _ => Throw TypeError)
                         {| request := {| method := lit "OPTIONS"; json := Throw SyntaxError |};
                            env := {| GOOGLE_PAGESPEED_API_KEY := JStr (lit "secret") |} |}))).
  reflexivity.
Defined.

(** ** The extractor: which identifiers, in which order, and when it returns *)

Lemma allowlist_NoDup (c : category) : NoDup (allowlist c).
Proof. destruct c; apply (bool_decide_unpack _); by vm_compute. Qed.

(** The chunks that the callbacks push make a sequence that follows the
    identifiers that gave one. *)
Lemma chunks_sublist {A B : Type} (P : A -> B -> Prop) (ids : list A) (chunks : list (list B)) :
  Forall2 (fun a bs => bs = [] \/ exists b, bs = [b] /\ P a b) ids chunks ->
  exists ids', ids' `sublist_of` ids /\ Forall2 P ids' (concat chunks).
Proof.
  induction 1 as [|a bs ids chunks [->|(b & -> & Hb)] _ (ids' & Hsub & Hall)].
  - exists []. by split; [|constructor].
  - exists ids'. split; [by apply sublist_cons|done].
  - exists (a :: ids'). split; [by apply sublist_skip|]. simpl. by constructor.
Qed.

(** On these two maps the extractor converts nothing, so that what it does
    is the same with every host. *)
Lemma audits_empty_title_any_host `{Builtins} :
  extractApiRecommendations audits_empty_title
  = Ok {| performance := []; accessibility := []; bestPractices := []; seo := [] |}.
Proof. by vm_compute. Qed.

Lemma audits_number_description_any_host `{Builtins} :
  extractApiRecommendations audits_number_description = Throw TypeError.
Proof. by vm_compute. Qed.

(** C1, as the claim states it, fails on an entry whose title is the empty
    string: none of the conditions of the claim holds for it, and no
    recommendation is pushed. *)
Lemma empty_title_not_pushed :
  In (lit "label") (allowlist Accessibility)
  /\ ~ skipped_as_claimed audits_empty_title (lit "label")
  /\ extractApiRecommendations (H := example_host) audits_empty_title
     = Ok {| performance := []; accessibility := []; bestPractices := []; seo := [] |}.
Proof.
  split; [vm_compute; by auto|]. split; [|by vm_compute].
  intros [Ha|[Hs|[(x & Hx & Hle)|[Ht|Hd]]]].
  - vm_compute in Ha. discriminate Ha.
  - vm_compute in Hs. discriminate Hs.
  - vm_compute in Hx. injection Hx as <-. vm_compute in Hle. discriminate Hle.
  - vm_compute in Ht. discriminate Ht.
  - vm_compute in Hd. discriminate Hd.
Qed.


(** A number that is at least 1 is not below 1. *)
Lemma leb_one_not_ltb (x : spec_float) :
  SFleb Number.one x = true -> Number.ltb x Number.one = false.
Proof.
  rewrite one_eq. unfold SFleb, Number.ltb, SFltb, SFcompare.
  destruct x as [s|s| |s m e];
    [by destruct s | by destruct s | intros Hle; discriminate Hle |].
  destruct s; [intros Hle; discriminate Hle|].
  rewrite (Z.compare_antisym e (-52)).
  change (Pos.compare_cont Eq 4503599627370496 m)
    with (Pos.compare_cont (CompOpp Eq) 4503599627370496 m).
  rewrite <- (Pos.compare_cont_antisym m 4503599627370496 Eq).
  destruct (e ?= -52), (Pos.compare_cont Eq m 4503599627370496); cbv;
    intros Hle; first [discriminate Hle | reflexivity].
Qed.

Section ExtractorClaims.
Context `{Builtins}.

Lemma skipped_as_claimed_skipped (audits : jsval) (auditId : jsstring) :
  skipped_as_claimed audits auditId -> skipped audits auditId.
Proof.
  unfold skipped_as_claimed, skipped. cbv zeta.
  intros [Ha|[Hs|[(x & Hx & Hle)|[Ht|Hd]]]].
  - left. by rewrite Ha.
  - right; left. done.
  - do 2 right; left. rewrite Hx. unfold less_than, ToNumber, bind.
    rewrite (leb_one_not_ltb _ Hle). discriminate.
  - do 3 right; left. by rewrite Ht.
  - do 4 right. by rewrite Hd.
Qed.

Lemma pushed_shape (props : list (jsstring * jsval)) (auditId : jsstring)
    (recs : list Recommendation) :
  pushed (JObj props) auditId = Ok recs ->
  recs = [] \/ exists rec, recs = [rec]
    /\ recommendation auditId (field (JObj props) auditId) = Ok rec.
Proof.
  unfold pushed. rewrite Get_object. cbn [bind].
  destruct (qualifies (field (JObj props) auditId)) as [[|]|e]; cbn [bind]; [| |done].
  - destruct (recommendation auditId (field (JObj props) auditId)) as [rec|e];
      cbn [bind]; [|done].
    intros [= <-]. right. by exists rec.
  - intros [= <-]. by left.
Qed.

(** C1, amended. When the extractor returns, the sequence of a category
    is made of what each identifier of the allowlist gives, in turn:
    nothing when the entry is absent or counts as false, when its score is
    [null] or is not below 1, or when its title or its description counts
    as false, as a missing or an empty one does; exactly one
    recommendation in every other case. The conditions of the claim are
    among these. *)
Theorem extract_one_per_identifier (props : list (jsstring * jsval)) (r : Recommendations) :
  extractApiRecommendations (JObj props) = Ok r ->
  forall c,
    (exists chunks,
       Forall2 (fun auditId recs =>
                  (skipped (JObj props) auditId -> recs = [])
                  /\ (~ skipped (JObj props) auditId -> exists rec, recs = [rec]))
         (allowlist c) chunks
       /\ sequence_of c r = concat chunks)
    /\ (forall auditId, In auditId (allowlist c) ->
          skipped_as_claimed (JObj props) auditId -> skipped (JObj props) auditId).
Proof.
  intros Hr c. split; [|intros auditId _; apply skipped_as_claimed_skipped].
  destruct (extract_sequences _ _ Hr c) as (chunks & Hall & Hseq).
  exists chunks. split; [|done].
  eapply Forall2_impl; [exact Hall|]. intros auditId recs Hp.
  apply pushed_cases in Hp as [Hs Hn]. split; [done|].
  intros Hns. destruct (Hn Hns) as (rec & -> & _). by eexists.
Qed.

(** C7. When the extractor returns, the recommendations of a category
    are those of a selection of the identifiers of its allowlist, in the
    order of the allowlist; no identifier occurs twice in an allowlist.
    The scores have no part in the order. *)
Theorem extract_allowlist_order (props : list (jsstring * jsval)) (r : Recommendations) :
  extractApiRecommendations (JObj props) = Ok r ->
  forall c,
    NoDup (allowlist c)
    /\ exists ids,
         ids `sublist_of` allowlist c
         /\ Forall2 (fun auditId rec =>
                       recommendation auditId (field (JObj props) auditId) = Ok rec)
              ids (sequence_of c r).
Proof.
  intros Hr c. split; [apply allowlist_NoDup|].
  destruct (extract_sequences _ _ Hr c) as (chunks & Hall & ->).
  apply chunks_sublist. eapply Forall2_impl; [exact Hall|].
  intros auditId recs Hp. by apply pushed_shape in Hp.
Qed.
End ExtractorClaims.

Lemma description_of_string (s : jsstring) :
  description_of (JStr s) = Ok (JStr s) /\ learnMoreUrl_of (JStr s) = Ok JNull.
Proof. done. Qed.

Lemma description_of_split (t u : jsstring) :
  let processedDesc := JObj [(lit "text", JStr t); (lit "learnMoreUrl", JStr u)] in
  description_of processedDesc = Ok (JStr t) /\ learnMoreUrl_of processedDesc = Ok (JStr u).
Proof. done. Qed.

Section Totality.
Context `{Builtins}.

Lemma getImpactLevel_returns (v : jsval) : primitive v -> returns (getImpactLevel v).
Proof.
  intros Hv. unfold getImpactLevel.
  destruct (strict_equals_number v Number.zero); [by eexists|].
  destruct (less_than_primitive v Number.half Hv) as [b ->]. by eexists.
Qed.

Lemma qualifies_returns (audit : jsval) :
  primitive (field audit (lit "score")) -> returns (qualifies audit).
Proof.
  intros Hs. unfold qualifies.
  destruct (ToBoolean audit) eqn:Ea; simpl negb; cbv iota; [|by eexists].
  rewrite !(Get_truthy audit) by done. cbn [bind].
  destruct (strict_equals_null _); [by eexists|].
  destruct (less_than_primitive _ Number.one Hs) as [b ->]. cbn [bind].
  destruct b; simpl negb; cbv iota; [|by eexists].
  destruct (ToBoolean (field audit (lit "title"))); simpl negb; cbv iota; by eexists.
Qed.

Lemma recommendation_returns (auditId : jsstring) (audit : jsval) :
  ToBoolean audit = true -> entry_shaped audit -> returns (recommendation auditId audit).
Proof.
  intros Ha [Hs Hd]. unfold recommendation.
  rewrite !(Get_truthy audit) by done. cbn [bind].
  destruct (processDescription_shape _
              (getFriendlyDescription_shape auditId _ Hd)) as [(s & ->)|(t & u & ->)];
    cbn [bind].
  - destruct (description_of_string s) as [-> ->]. cbn [bind].
    destruct (getImpactLevel_returns _ Hs) as [level ->].
    destruct (ToNumber_primitive _ Hs) as [x ->]. by eexists.
  - destruct (description_of_split t u) as [-> ->]. cbn [bind].
    destruct (getImpactLevel_returns _ Hs) as [level ->].
    destruct (ToNumber_primitive _ Hs) as [x ->]. by eexists.
Qed.

Lemma pushed_returns (props : list (jsstring * jsval)) (auditId : jsstring) :
  entry_shaped (field (JObj props) auditId) -> returns (pushed (JObj props) auditId).
Proof.
  intros Hshape. unfold pushed. rewrite Get_object. cbn [bind].
  destruct (qualifies_returns _ (proj1 Hshape)) as [[|] Hq]; rewrite Hq; cbn [bind];
    [|by eexists].
  apply qualifies_true in Hq as (Ha & _).
  destruct (recommendation_returns auditId _ Ha Hshape) as [rec ->]. by eexists.
Qed.

End Totality.

(** ** Examples *)


Lemma extract_one_per_identifier_witness :
  exists r chunks,
    extractApiRecommendations (H := example_host) (JObj audits_example) = Ok r
    /\ Forall2 (fun auditId recs =>
                  (skipped (H := example_host) (JObj audits_example) auditId -> recs = [])
                  /\ (~ skipped (H := example_host) (JObj audits_example) auditId ->
                      exists rec, recs = [rec]))
         (allowlist Accessibility) chunks
    /\ sequence_of Accessibility r = concat chunks.
Proof.
  destruct (extractApiRecommendations (H := example_host) (JObj audits_example))
    as [r|e] eqn:E; [|vm_compute in E; discriminate E].
  destruct (proj1 (extract_one_per_identifier (H := example_host) audits_example r E
                     Accessibility)) as (chunks & Hall & Hseq).
  exists r, chunks. split; [reflexivity|]. split; [exact Hall | exact Hseq].
Defined.

Lemma extract_allowlist_order_witness :
  exists r ids,
    extractApiRecommendations (H := example_host) (JObj audits_example) = Ok r
    /\ ids `sublist_of` allowlist Accessibility
    /\ Forall2 (fun auditId rec =>
                  recommendation (H := example_host) auditId
                    (field (JObj audits_example) auditId) = Ok rec)
         ids (sequence_of Accessibility r)
    /\ impact <$> sequence_of Accessibility r = [Low; High].
Proof.
  destruct (extractApiRecommendations (H := example_host) (JObj audits_example))
    as [r|e] eqn:E; [|vm_compute in E; discriminate E].
  destruct (proj2 (extract_allowlist_order (H := example_host) audits_example r E
                     Accessibility)) as (ids & Hsub & Hall).
  exists r, ids. split; [reflexivity|]. split; [exact Hsub|]. split; [exact Hall|].
  vm_compute in E. injection E as <-. reflexivity.
Defined.


(** * Further properties *)

(** ** The order of the doubles *)

(** Of two valid positive doubles the one with the smaller exponent is the
    smaller one. *)
Lemma magnitude_lt (m1 m2 : positive) (e1 e2 : Z) :
  bounded Number.prec Number.emax m1 e1 = true ->
  bounded Number.prec Number.emax m2 e2 = true ->
  e1 < e2 ->
  Z.pos m1 * 2 ^ (e1 + 1074) < Z.pos m2 * 2 ^ (e2 + 1074).
Proof.
  intros (He1 & Hhi1 & _)%mantissa_bounds (He2 & _ & Hlo2)%mantissa_bounds Hlt.
  specialize (Hlo2 ltac:(lia)).
  rewrite (pow2_split (e1 + 1074) (e2 - e1) (e2 + 1074)) by lia.
  pose proof (pow2_pos (e1 + 1074) ltac:(lia)) as HR.
  pose proof (pow2_ge_2 (e2 - e1) ltac:(lia)) as HQ.
  remember (2 ^ (e1 + 1074)) as R eqn:ER. remember (2 ^ (e2 - e1)) as Q eqn:EQ.
  clear ER EQ.
  eapply Z.lt_le_trans; [apply (scaled_lt_below _ R Q); [exact HR | exact HQ | lia]|].
  rewrite (Z.mul_comm (R * Q)).
  apply Z.mul_le_mono_nonneg_r; [|exact Hlo2].
  apply Z.mul_nonneg_nonneg; lia.
Qed.

Lemma mul_compare_r (a b p : Z) : 0 < p -> (a * p ?= b * p) = (a ?= b).
Proof.
  intros Hp. destruct (a ?= b) eqn:E.
  - apply Z.compare_eq_iff in E. subst b. apply Z.compare_refl.
  - apply Z.compare_lt_iff. apply Z.compare_lt_iff in E.
    by apply Z.mul_lt_mono_pos_r.
  - apply Z.compare_gt_iff. apply Z.compare_gt_iff in E.
    by apply Z.mul_lt_mono_pos_r.
Qed.

Lemma magnitude_compare (m1 m2 : positive) (e1 e2 : Z) :
  bounded Number.prec Number.emax m1 e1 = true ->
  bounded Number.prec Number.emax m2 e2 = true ->
  match e1 ?= e2 with Lt => Lt | Gt => Gt | Eq => Pos.compare_cont Eq m1 m2 end
  = (Z.pos m1 * 2 ^ (e1 + 1074) ?= Z.pos m2 * 2 ^ (e2 + 1074)).
Proof.
  intros H1 H2. destruct (e1 ?= e2) eqn:E.
  - apply Z.compare_eq_iff in E. subst e2.
    pose proof (mantissa_bounds _ _ H1) as (He & _ & _).
    rewrite mul_compare_r by (apply pow2_pos; lia).
    reflexivity.
  - symmetry. apply Z.compare_lt_iff. apply magnitude_lt; [exact H1 | exact H2 |].
    by apply Z.compare_lt_iff.
  - symmetry. apply Z.compare_gt_iff. apply magnitude_lt; [exact H2 | exact H1 |].
    by apply Z.compare_gt_iff in E.
Qed.

Lemma numerator_sign (s : bool) (m : positive) (e : Z) :
  bounded Number.prec Number.emax m e = true ->
  if s then numerator (S754_finite s m e) < 0 else 0 < numerator (S754_finite s m e).
Proof.
  intros (He & _ & _)%mantissa_bounds. unfold numerator.
  pose proof (pow2_pos (e + 1074) ltac:(lia)) as Hp.
  assert (0 < Z.pos m * 2 ^ (e + 1074)) as Hn by (apply Z.mul_pos_pos; lia).
  remember (Z.pos m * 2 ^ (e + 1074)) as n. clear -Hn. destruct s; lia.
Qed.

(** The comparison of two valid doubles that are zero or finite is the
    comparison of their values. *)
Lemma compare_numerator (x y : spec_float) :
  Number.valid x = true -> Number.valid y = true ->
  finite x = true -> finite y = true ->
  SFcompare x y = Some (numerator x ?= numerator y).
Proof.
  intros Hx Hy Fx Fy.
  destruct x as [sx| | |sx mx ex]; [|discriminate Fx..|];
    destruct y as [sy| | |sy my ey]; try discriminate Fy.
  - reflexivity.
  - pose proof (numerator_sign sy _ _ Hy) as Hs.
    cbn [SFcompare]. change (numerator (S754_zero sx)) with 0.
    remember (numerator (S754_finite sy my ey)) as n. clear -Hs. f_equal.
    destruct sy; symmetry; [by apply Z.compare_gt_iff | by apply Z.compare_lt_iff].
  - pose proof (numerator_sign sx _ _ Hx) as Hs.
    cbn [SFcompare]. change (numerator (S754_zero sy)) with 0.
    remember (numerator (S754_finite sx mx ex)) as n. clear -Hs. f_equal.
    destruct sx; symmetry; [by apply Z.compare_lt_iff | by apply Z.compare_gt_iff].
  - pose proof (numerator_sign sx _ _ Hx) as Hsx.
    pose proof (numerator_sign sy _ _ Hy) as Hsy.
    cbn [SFcompare]. f_equal. destruct sx, sy.
    + unfold numerator. rewrite Z.compare_opp.
      rewrite (Z.compare_antisym (Z.pos mx * 2 ^ (ex + 1074))).
      rewrite <- (magnitude_compare mx my ex ey Hx Hy).
      by destruct (ex ?= ey).
    + remember (numerator (S754_finite true mx ex)) as a.
      remember (numerator (S754_finite false my ey)) as b.
      clear -Hsx Hsy. symmetry. apply Z.compare_lt_iff. lia.
    + remember (numerator (S754_finite false mx ex)) as a.
      remember (numerator (S754_finite true my ey)) as b.
      clear -Hsx Hsy. symmetry. apply Z.compare_gt_iff. lia.
    + rewrite (magnitude_compare mx my ex ey Hx Hy). reflexivity.
Qed.

Lemma leb_numerator (y x : spec_float) :
  Number.valid y = true -> Number.valid x = true ->
  finite y = true -> finite x = true ->
  SFleb y x = true <-> numerator y <= numerator x.
Proof.
  intros Hy Hx Fy Fx. unfold SFleb. rewrite (compare_numerator y x Hy Hx Fy Fx).
  unfold Z.le. destruct (numerator y ?= numerator x); split; intros E.
  all: first [reflexivity | discriminate E | intros [=] | by exfalso; apply E].
Qed.

Lemma to_Q_numerator (x : spec_float) (q : Q) :
  Number.to_Q x = Some q -> finite x = true /\ q = (numerator x # Number.denominator).
Proof. destruct x; intros [=]; subst q; split; reflexivity. Qed.

(** The doubles of the literals [90] and [50], and their values. *)
Lemma numerator_90 :
  Number.valid (Number.of_Z 90) = true /\ finite (Number.of_Z 90) = true
  /\ numerator (Number.of_Z 90) = 90 * Z.pos Number.denominator.
Proof.
  split; [by vm_compute|]. split; [by vm_compute|].
  change (Number.of_Z 90) with (S754_finite false (90 * 70368744177664) (-46)).
  unfold numerator. rewrite denominator_pow, (pow2_split 46 1028 1074) by lia.
  change (-46 + 1074) with 1028. change (2 ^ 46) with 70368744177664.
  remember (2 ^ 1028) as P. rewrite Pos2Z.inj_mul. clear. lia.
Qed.

Lemma numerator_50 :
  Number.valid (Number.of_Z 50) = true /\ finite (Number.of_Z 50) = true
  /\ numerator (Number.of_Z 50) = 50 * Z.pos Number.denominator.
Proof.
  split; [by vm_compute|]. split; [by vm_compute|].
  change (Number.of_Z 50) with (S754_finite false (50 * 140737488355328) (-47)).
  unfold numerator. rewrite denominator_pow, (pow2_split 47 1027 1074) by lia.
  change (-47 + 1074) with 1027. change (2 ^ 47) with 140737488355328.
  remember (2 ^ 1027) as P. rewrite Pos2Z.inj_mul. clear. lia.
Qed.

(** ** [getScoreColor] *)

Section ScoreColorProperties.
Context `{Builtins}.

Lemma getScoreColor_number (x : spec_float) :
  getScoreColor (JNum x) =
    Ok (if SFleb (Number.of_Z 90) x then good
        else if SFleb (Number.of_Z 50) x then needs_improvement else poor).
Proof.
  unfold getScoreColor, greater_equal, ToNumber, bind.
  by destruct (SFleb (Number.of_Z 90) x).
Qed.

(** X1. The colour of a number is decided by its value alone: from 90 on
    it is [good], from 50 on and below 90 it is [needs-improvement], below
    50 it is [poor]; and what is not a number, as [undefined] and NaN, is
    [poor]. *)
Theorem getScoreColor_thresholds (x : spec_float) (q : Q) :
  Number.valid x = true -> Number.to_Q x = Some q ->
  ((90 <= q)%Q -> getScoreColor (JNum x) = Ok good)
  /\ ((50 <= q)%Q /\ (q < 90)%Q -> getScoreColor (JNum x) = Ok needs_improvement)
  /\ ((q < 50)%Q -> getScoreColor (JNum x) = Ok poor)
  /\ getScoreColor (JNum Number.nan) = Ok poor
  /\ getScoreColor JUndefined = Ok poor.
Proof.
  intros Hv [Fx ->]%to_Q_numerator.
  destruct numerator_90 as (V90 & F90 & N90). destruct numerator_50 as (V50 & F50 & N50).
  pose proof (leb_numerator _ _ V90 Hv F90 Fx) as L90.
  pose proof (leb_numerator _ _ V50 Hv F50 Fx) as L50.
  rewrite N90 in L90. rewrite N50 in L50.
  rewrite getScoreColor_number. unfold Qle, Qlt. cbn [Qnum Qden].
  pose proof (Pos2Z.is_pos Number.denominator) as Hd.
  remember (numerator x) as n. remember (Z.pos Number.denominator) as d.
  remember (SFleb (Number.of_Z 90) x) as b90. remember (SFleb (Number.of_Z 50) x) as b50.
  clear -L90 L50 Hd.
  split; [|split; [|split; [|split; reflexivity]]].
  - intros Hq. assert (b90 = true) as -> by (apply L90; lia). reflexivity.
  - intros [Hlo Hhi].
    assert (b50 = true) as -> by (apply L50; lia).
    destruct b90; [|reflexivity]. exfalso. assert (90 * d <= n) by (by apply L90). lia.
  - intros Hq.
    destruct b90; [exfalso; assert (90 * d <= n) by (by apply L90); lia|].
    destruct b50; [exfalso; assert (50 * d <= n) by (by apply L50); lia|].
    reflexivity.
Qed.
End ScoreColorProperties.

Lemma getScoreColor_thresholds_witness :
  getScoreColor (H := example_host) (JNum (Number.of_Z 75)) = Ok needs_improvement.
Proof.
  refine (proj1 (proj2 (getScoreColor_thresholds (H := example_host) (Number.of_Z 75)
                          (75 * 2 ^ 1074 # Number.denominator) eq_refl eq_refl)) _).
  split; by vm_compute.
Defined.

(** ** [processDescription] on every string *)

Lemma Removed_sublist (s k : jsstring) : Removed s k -> k `sublist_of` s.
Proof.
  induction 1 as [|c r k _ _ IH|u rest k _ _ IH].
  - constructor.
  - by apply sublist_skip.
  - by apply sublist_inserts_l.
Qed.

(** The text of a processed description: it is what is left of the
    description when code units are taken out, and no match of the URL
    pattern is left in it. *)
Lemma processDescription_text (s : jsstring) :
  exists text,
    output_text s = Ok (JStr text)
    /\ text `sublist_of` s
    /\ ~ contains_url text
    /\ (output_url s = Ok JNull
        \/ exists u pre rest, output_url s = Ok (JStr u) /\ s = pre ++ u ++ rest).
Proof.
  destruct (RegExp.match_all urlRegex s 0) as [|url l] eqn:Em.
  - apply match_all_nil in Em. exists s. unfold output_text, output_url.
    rewrite processDescription_no_url by done.
    split; [done|]. split; [done|]. split; [done|]. by left.
  - pose proof (match_all_first _ _ _ Em) as (pre & rest & Heq & _ & _).
    set (k := without_urls s).
    destruct (trim_split k) as (a1 & b1 & Hk & _ & _).
    set (t1 := JsString.trim k) in *.
    destruct (remove_first_trailing t1) as (b2 & Ht1 & _ & _).
    set (t2 := RegExp.remove_first trailingRegex t1) in *.
    destruct (trim_split t2) as (a3 & b3 & Ht2 & _ & _).
    set (text := JsString.trim t2) in *.
    assert (processDescription (JStr s) =
              Ok (JObj [(lit "text", JStr text); (lit "learnMoreUrl", JStr url)])) as Hp.
    { unfold processDescription.
      destruct s as [|c r]; [discriminate Em|].
      simpl ToBoolean. simpl negb. cbv iota. by rewrite Em. }
    assert (k = (a1 ++ a3) ++ text ++ (b3 ++ b2 ++ b1)) as Hsplit.
    { rewrite Hk, Ht1, Ht2. by rewrite <- !app_assoc. }
    exists text. unfold output_text, output_url. rewrite Hp.
    split; [done|]. split.
    { transitivity k; [|apply Removed_sublist, without_urls_Removed].
      rewrite Hsplit. apply sublist_inserts_l, sublist_inserts_r. done. }
    split.
    { intros Hc. apply (without_urls_clean s). fold k. rewrite Hsplit.
      by apply contains_url_infix. }
    right. by exists url, pre, rest.
Qed.

(** X2. Processing is idempotent on every string: the text of a processed
    description is returned as it is when it is processed again, with no
    link. *)
Theorem processDescription_text_fixed (s : jsstring) :
  exists out,
    output_text s = Ok (JStr out)
    /\ processDescription (JStr out) = Ok (JStr out)
    /\ output_text out = Ok (JStr out)
    /\ output_url out = Ok JNull.
Proof.
  destruct (processDescription_text s) as (text & Ht & _ & Hno & _).
  exists text. split; [exact Ht|].
  unfold output_text, output_url. rewrite processDescription_no_url by exact Hno.
  done.
Qed.

(** X3. Processing only takes code units out: the text is a subsequence
    of the description, so it is never longer, and the link, when there is
    one, is a part of the description as it stands there. *)
Theorem processDescription_deletes_only (s : jsstring) :
  exists text,
    output_text s = Ok (JStr text)
    /\ text `sublist_of` s
    /\ (length text <= length s)%nat
    /\ (output_url s = Ok JNull
        \/ exists u pre rest, output_url s = Ok (JStr u) /\ s = pre ++ u ++ rest).
Proof.
  destruct (processDescription_text s) as (text & Ht & Hsub & _ & Hu).
  exists text. split; [exact Ht|]. split; [exact Hsub|].
  split; [by apply sublist_length|exact Hu].
Qed.

(** ** Recommendations and the table of friendly texts *)

Lemma friendlyEntries_no_url :
  Forall (fun kv : jsstring * jsstring => RegExp.match_all urlRegex kv.2 0 = [])
    friendlyEntries.
Proof. apply (bool_decide_unpack _). by vm_compute. Qed.

Lemma friendlyDescriptions_no_url (k t : jsstring) :
  friendlyDescriptions !! k = Some t -> ~ contains_url t.
Proof.
  rewrite friendlyDescriptions_last. unfold last_declared.
  destruct (last (filter (fun kv => kv.1 = k) friendlyEntries)) as [kv|] eqn:E; [|done].
  simpl. intros [= <-]. apply last_Some_elem_of, list_elem_of_filter in E as [_ Hin].
  apply match_all_nil.
  exact (proj1 (Forall_forall _ _) friendlyEntries_no_url _ Hin).
Qed.

Lemma allowlist_friendly (c : category) :
  Forall (fun auditId => auditId ∈ without_friendly_text
                         \/ is_Some (last_declared friendlyEntries auditId))
    (allowlist c).
Proof. destruct c; apply (bool_decide_unpack _); by vm_compute. Qed.

Section Friendly.
Context `{Builtins}.

Lemma recommendation_of_friendly (auditId t : jsstring) (audit : jsval)
    (rec : Recommendation) :
  friendlyDescriptions !! auditId = Some t ->
  recommendation auditId audit = Ok rec ->
  description rec = JStr t /\ learnMoreUrl rec = JNull.
Proof.
  intros Ht. unfold recommendation.
  destruct (Get audit (lit "description")) as [original|] eqn:E1; [|discriminate].
  cbn [bind].
  assert (getFriendlyDescription auditId original = JStr t) as ->.
  { unfold getFriendlyDescription, or_else. rewrite Ht. simpl from_option.
    by rewrite (friendlyDescriptions_truthy _ _ Ht). }
  rewrite processDescription_no_url by (by eapply friendlyDescriptions_no_url).
  cbn [bind].
  destruct (Get audit (lit "title")) as [ti|]; [|discriminate]. cbn [bind].
  destruct (description_of_string t) as [-> ->]. cbn [bind].
  destruct (Get audit (lit "score")) as [sc|]; [|discriminate]. cbn [bind].
  destruct (getImpactLevel sc); [|discriminate]. cbn [bind].
  destruct (ToNumber sc); [|discriminate]. cbn [bind].
  destruct (Get audit (lit "displayValue")); [|discriminate]. cbn [bind].
  intros [= <-]. split; reflexivity.
Qed.

(** X4. For every identifier of the allowlists but [focus-traps],
    [focusable-controls] and [interactive-element-affordance], the table
    has a text, and whatever the entry says, the description of the
    recommendation is that text and the recommendation has no link. The
    three are identifiers of the accessibility list without a text. *)
Theorem recommendation_friendly (c : category) (auditId : jsstring) :
  In auditId (allowlist c) ->
  (~ In auditId without_friendly_text ->
   exists t,
     friendlyDescriptions !! auditId = Some t
     /\ forall audit rec,
          recommendation auditId audit = Ok rec ->
          description rec = JStr t /\ learnMoreUrl rec = JNull)
  /\ (In auditId without_friendly_text ->
      In auditId (allowlist Accessibility) /\ friendlyDescriptions !! auditId = None).
Proof.
  intros Hin. split.
  - intros Hno.
    pose proof (proj1 (Forall_forall _ _) (allowlist_friendly c) auditId
                  (proj2 (list_elem_of_In _ _) Hin)) as [Hw|[t Ht]].
    { by apply list_elem_of_In in Hw. }
    rewrite <- friendlyDescriptions_last in Ht.
    exists t. split; [exact Ht|]. intros audit rec. by apply recommendation_of_friendly.
  - intros Hw. rewrite friendlyDescriptions_last.
    simpl in Hw. destruct Hw as [<-|[<-|[<-|[]]]]; (split; [simpl; tauto | by vm_compute]).
Qed.
End Friendly.

Lemma recommendation_friendly_witness :
  exists t,
    friendlyDescriptions !! lit "uses-http2" = Some t
    /\ forall audit rec,
         recommendation (H := example_host) (lit "uses-http2") audit = Ok rec ->
         description rec = JStr t /\ learnMoreUrl rec = JNull.
Proof.
  apply (proj1 (recommendation_friendly (H := example_host) BestPractices (lit "uses-http2")
                  ltac:(simpl; tauto))).
  simpl. intros [E|[E|[E|[]]]]; discriminate E.
Defined.

(** ** The extractor and the entries it reads *)

Section ExtractorEntries.
Context `{Builtins}.

Lemma forEach_ext {St : Type} (f g : jsstring -> St -> result St) (ids : list jsstring)
    (st : St) :
  (forall auditId st, In auditId ids -> f auditId st = g auditId st) ->
  forEach f ids st = forEach g ids st.
Proof.
  revert st. induction ids as [|auditId ids IH]; intros st Hfg; [done|].
  simpl. rewrite (Hfg auditId st) by (by left).
  destruct (g auditId st) as [st'|e]; [|done]. cbn [bind].
  apply IH. intros a s Ha. apply Hfg. by right.
Qed.

(** X5. The extractor reads the entries under the identifiers of its
    four lists and nothing else: two audit maps that agree under these
    identifiers give the same result, be it a value or an exception. *)
Theorem extract_reads_allowlists (audits audits' : jsval) :
  (forall c auditId, In auditId (allowlist c) -> Get audits auditId = Get audits' auditId) ->
  extractApiRecommendations audits = extractApiRecommendations audits'.
Proof.
  intros Hsame.
  assert (forall c r, forEach (callback c audits) (allowlist c) r
                      = forEach (callback c audits') (allowlist c) r) as Hc.
  { intros c r. apply forEach_ext. intros auditId st Hin.
    unfold callback. by rewrite (Hsame c auditId Hin). }
  unfold extractApiRecommendations.
  rewrite (Hc Performance).
  destruct (forEach (callback Performance audits') _ _) as [r1|]; [|done]. cbn [bind].
  rewrite (Hc Accessibility).
  destruct (forEach (callback Accessibility audits') _ _) as [r2|]; [|done]. cbn [bind].
  rewrite (Hc BestPractices).
  destruct (forEach (callback BestPractices audits') _ _) as [r3|]; [|done]. cbn [bind].
  by rewrite (Hc Seo).
Qed.

(** X6. An entry that is not skipped is in the sequence of every category
    whose list has its identifier: when the extractor returns, the object
    made of the entry is a member of the sequence, and it is the one object
    [recommendation] makes of the entry, whichever the category. *)
Theorem extract_pushes_everywhere (props : list (jsstring * jsval)) (r : Recommendations)
    (c : category) (auditId : jsstring) :
  extractApiRecommendations (JObj props) = Ok r ->
  In auditId (allowlist c) ->
  ~ skipped (JObj props) auditId ->
  exists rec,
    recommendation auditId (field (JObj props) auditId) = Ok rec
    /\ In rec (sequence_of c r).
Proof.
  intros Hr Hin Hns.
  destruct (extract_sequences _ _ Hr c) as (chunks & Hall & ->).
  apply list_elem_of_In, list_elem_of_lookup in Hin as [i Hi].
  destruct (Forall2_lookup_l _ _ _ _ _ Hall Hi) as (recs & Hrecs & Hp).
  apply pushed_cases in Hp as [_ Hp]. destruct (Hp Hns) as (rec & -> & Hrec).
  exists rec. split; [exact Hrec|].
  apply in_concat. exists [rec].
  split; [|by left]. apply list_elem_of_In. by eapply list_elem_of_lookup_2.
Qed.
End ExtractorEntries.

(** ** The address the handler asks *)

Lemma hex_digit_plain (d : N) : separator (URI.hex_digit d) = false.
Proof.
  unfold separator, URI.hex_digit.
  destruct (N.ltb_spec d 10); repeat (apply orb_false_intro); apply N.eqb_neq; lia.
Qed.

Lemma percent_plain (bytes : list N) :
  Forall (fun c => separator c = false) (flat_map URI.percent bytes).
Proof.
  induction bytes as [|b bytes IH]; [constructor|].
  simpl. repeat constructor; [apply hex_digit_plain..|exact IH].
Qed.

Lemma unescaped_plain (c : N) : URI.unescaped c = true -> separator c = false.
Proof.
  intros Hu. unfold separator.
  destruct (N.eqb_spec c 38) as [->|_]; [by vm_compute in Hu|].
  destruct (N.eqb_spec c 61) as [->|_]; [by vm_compute in Hu|].
  destruct (N.eqb_spec c 35) as [->|_]; [by vm_compute in Hu|].
  destruct (N.eqb_spec c 63) as [->|_]; [by vm_compute in Hu|].
  destruct (N.eqb_spec c 47) as [->|_]; [by vm_compute in Hu|].
  reflexivity.
Qed.

Lemma encodeURIComponent_plain (s t : jsstring) :
  URI.encodeURIComponent s = Ok t -> Forall (fun c => separator c = false) t.
Proof.
  remember (length s) as n eqn:Hn. revert s t Hn.
  induction n as [n IH] using lt_wf_ind. intros s t Hn.
  destruct s as [|c r]; [intros [= <-]; constructor|].
  cbn [URI.encodeURIComponent]. simpl in Hn.
  destruct (URI.unescaped c) eqn:Eu.
  { destruct (URI.encodeURIComponent r) as [t'|] eqn:Er; [|discriminate].
    intros [= <-]. constructor; [by apply unescaped_plain|].
    apply (IH (length r)) with r; [lia | done | done]. }
  destruct (URI.trail c); [discriminate|].
  destruct (URI.lead c).
  - destruct r as [|d r']; [discriminate|].
    destruct (URI.trail d); [|discriminate].
    destruct (URI.encodeURIComponent r') as [t'|] eqn:Er; [|discriminate].
    intros [= <-]. apply Forall_app. split; [apply percent_plain|].
    apply (IH (length r')) with r'; [simpl in Hn; lia | done | done].
  - destruct (URI.encodeURIComponent r) as [t'|] eqn:Er; [|discriminate].
    intros [= <-]. apply Forall_app. split; [apply percent_plain|].
    apply (IH (length r)) with r; [lia | done | done].
Qed.

Lemma encodeURIComponent_total (s : jsstring) :
  Forall (fun c => URI.lead c = false /\ URI.trail c = false) s ->
  returns (URI.encodeURIComponent s).
Proof.
  induction 1 as [|c r [Hl Ht] _ [t IH]]; [by eexists|].
  cbn [URI.encodeURIComponent]. rewrite Hl, Ht, IH. cbn [bind].
  destruct (URI.unescaped c); by eexists.
Qed.

Section Upstream.
Context `{Builtins}.
Variable fetch : jsstring -> result Fetched.

Lemma googleApiUrl_shape (url apiKey strategy categories : jsval) (target : jsstring) :
  googleApiUrl url apiKey strategy categories = Ok target ->
  exists u rest,
    target = runPagespeed ++ u ++ lit "&key=" ++ rest
    /\ Forall (fun c => separator c = false) u.
Proof.
  unfold googleApiUrl.
  destruct (ToString url) as [u0|]; [|discriminate]. cbn [bind].
  destruct (URI.encodeURIComponent u0) as [u|] eqn:Eu; [|discriminate]. cbn [bind].
  destruct (ToString apiKey) as [k|]; [|discriminate]. cbn [bind].
  destruct (ToString strategy) as [s|]; [|discriminate]. cbn [bind].
  destruct (join_categories categories) as [c|]; [|discriminate]. cbn [bind].
  intros [= <-]. exists u, (k ++ lit "&strategy=" ++ s ++ lit "&category=" ++ c).
  split; [reflexivity|]. by eapply encodeURIComponent_plain.
Qed.

(** The fetch of the [try], when it gets as far: the address is the one
    made of the request. *)
Lemma try_block_fetches (context : Context) (data : jsval) (target : jsstring) :
  let apiKey := GOOGLE_PAGESPEED_API_KEY (env context) in
  ToBoolean apiKey = true ->
  json (request context) = Ok data -> data <> JNull -> data <> JUndefined ->
  ToBoolean (field data (lit "url")) = true ->
  googleApiUrl (field data (lit "url")) apiKey
    (default_to (JStr (lit "desktop")) (field data (lit "strategy")))
    (default_to (JArr [JStr (lit "performance"); JStr (lit "accessibility");
                       JStr (lit "best-practices"); JStr (lit "seo")])
       (field data (lit "categories"))) = Ok target ->
  try_block fetch context =
    let+ response := (fetch target, [Fetch target]) in
    if negb (ok response) then
      let errorData :=
        match fetched_json response with Ok d => d | Throw _ => JObj [] end in
      let+ _ := (Ok tt, [ConsoleError]) in
      let+ message := lift (errorMessage (fetched_status response) errorData) in
      lift (error_response message (fetched_status response))
    else
      let+ data := lift (fetched_json response) in
      lift (new_Response (Some data) 200 jsonHeaders).
Proof.
  intros apiKey Hk Hd Hnull Hundef Hurl Htarget. unfold try_block. fold apiKey.
  rewrite Hk, Hd. simpl negb. cbv iota.
  rewrite io_bind_Ok, !(Get_defined data) by done. rewrite !io_bind_Ok.
  rewrite Hurl. simpl negb. cbv iota. rewrite Htarget, io_bind_Ok. reflexivity.
Qed.
End Upstream.

Section Relay.
Context `{Builtins}.
Variable fetch : jsstring -> result Fetched.

Lemma try_block_target (context : Context) :
  fetches (try_block fetch context).2 = []
  \/ exists url apiKey strategy categories target,
       googleApiUrl url apiKey strategy categories = Ok target
       /\ fetches (try_block fetch context).2 = [target].
Proof.
  unfold try_block.
  destruct (negb (ToBoolean (GOOGLE_PAGESPEED_API_KEY (env context)))); [by left|].
  destruct (json (request context)) as [data|e];
    [rewrite io_bind_Ok | rewrite io_bind_Throw; by left].
  destruct (Get data (lit "url")) as [url|e];
    [rewrite io_bind_Ok | rewrite io_bind_Throw; by left].
  destruct (Get data (lit "strategy")) as [strategy|e];
    [rewrite io_bind_Ok | rewrite io_bind_Throw; by left].
  destruct (Get data (lit "categories")) as [categories|e];
    [rewrite io_bind_Ok | rewrite io_bind_Throw; by left].
  destruct (negb (ToBoolean url)); [by left|].
  destruct (googleApiUrl _ _ _ _) as [target|e] eqn:Eg;
    [rewrite io_bind_Ok | rewrite io_bind_Throw; by left].
  right. do 4 eexists. exists target. split; [exact Eg|].
  unfold io_bind at 1.
  destruct (fetch target) as [response|e]; [|reflexivity].
  destruct (negb (ok response)).
  - unfold io_bind at 1.
    destruct (errorMessage _ _) as [message|e];
      [rewrite io_bind_Ok | rewrite io_bind_Throw]; reflexivity.
  - destruct (fetched_json response) as [data'|e];
      [rewrite io_bind_Ok | rewrite io_bind_Throw]; reflexivity.
Qed.

Lemma fetches_snoc (log : list event) : fetches (log ++ [ConsoleError]) = fetches log.
Proof. unfold fetches. rewrite omap_app. simpl. by rewrite app_nil_r. Qed.

(** X7. Whatever the request says, an address the handler asks begins
    with the address of the PageSpeed service and goes on with the value
    of [url], in which no [&], [=], [#], [?] or [/] is left, up to [&key=]:
    the analysed address cannot add a parameter to the query or change
    where the request goes. *)
Theorem onRequestPost_asks_upstream (context : Context) (target : jsstring) :
  In target (fetches (onRequestPost fetch context).2) ->
  exists u rest,
    target = runPagespeed ++ u ++ lit "&key=" ++ rest
    /\ Forall (fun c => separator c = false) u.
Proof.
  destruct (decide (method (request context) = lit "OPTIONS")) as [Hm|Hm].
  { rewrite (onRequestPost_options fetch context Hm). intros []. }
  rewrite (onRequestPost_try fetch context Hm).
  assert (In target (fetches (try_block fetch context).2) ->
          exists u rest,
            target = runPagespeed ++ u ++ lit "&key=" ++ rest
            /\ Forall (fun c => separator c = false) u) as Htry.
  { destruct (try_block_target context)
      as [->|(url & apiKey & strategy & categories & t & Hg & ->)]; [intros []|].
    intros [<-|[]]. by eapply googleApiUrl_shape. }
  destruct (try_block fetch context) as [[response|e] log]; [exact Htry|].
  cbn [snd] in *. by rewrite fetches_snoc.
Qed.

Lemma jsval_nested_ind (P : jsval -> Prop) :
  P JUndefined -> P JNull -> (forall b, P (JBool b)) -> (forall x, P (JNum x)) ->
  (forall s, P (JStr s)) ->
  (forall elems, Forall P elems -> P (JArr elems)) ->
  (forall props, Forall (fun kv => P kv.2) props -> P (JObj props)) ->
  forall v, P v.
Proof.
  intros Hu Hn Hb Hx Hs Ha Ho. fix IH 1.
  intros [| |b|x|s|elems|props]; [done|done|done|done|done| |].
  - apply Ha. induction elems as [|e elems IHe]; constructor; [apply IH | exact IHe].
  - apply Ho. induction props as [|[k v] props IHp]; constructor; [apply IH | exact IHp].
Qed.

Lemma own_property_None (props : list (jsstring * jsval)) (k : jsstring) :
  k ∉ props.*1 -> own_property props k = None.
Proof.
  induction props as [|[k' v] props IH]; [done|].
  intros Hk. apply not_elem_of_cons in Hk as [Hne Hk]. simpl.
  rewrite (IH Hk). rewrite decide_False; [done|]. intros E. apply Hne. by rewrite E.
Qed.

Lemma own_property_NoDup (props : list (jsstring * jsval)) :
  NoDup props.*1 -> Forall (fun kv => own_property props kv.1 = Some kv.2) props.
Proof.
  induction props as [|[k v] props IH]; [constructor|].
  intros Hnd. apply NoDup_cons in Hnd as [Hk Hnd]. constructor.
  - simpl. rewrite (own_property_None props k Hk). by rewrite decide_True.
  - eapply Forall_impl; [exact (IH Hnd)|]. intros [k' v'] Hp. simpl in *. by rewrite Hp.
Qed.

Lemma written_faithful (props : list (jsstring * jsval)) :
  NoDup props.*1 -> own_keys props = props.*1 ->
  Forall (fun kv => kv.2 <> JUndefined) props ->
  written props = props.
Proof.
  intros Hnd Hkeys Hdef. unfold written. rewrite Hkeys.
  pose proof (own_property_NoDup props Hnd) as Hown. clear Hnd Hkeys. revert Hown Hdef.
  generalize (own_property props). intros f.
  induction props as [|[k v] rest IH]; [done|].
  intros Hown Hdef. apply Forall_cons in Hown as [Hk Hown].
  apply Forall_cons in Hdef as [Hv Hdef].
  simpl in *. rewrite Hk.
  destruct v; [done|f_equal; by apply IH..].
Qed.

Lemma faithful_defined (v : jsval) : faithful v = true -> v <> JUndefined.
Proof. by destruct v. Qed.

(** A faithful value is written as it is. *)
Lemma stringified_faithful (v : jsval) : faithful v = true -> stringified v = v.
Proof.
  induction v as [| |b|x|s|elems IH|props IH] using jsval_nested_ind;
    try done.
  - destruct x as [[|]| | |]; done.
  - simpl. intros Hf. f_equal.
    induction elems as [|e elems IHe]; [done|].
    simpl in Hf. apply andb_true_iff in Hf as [He Hf].
    apply Forall_cons in IH as [IHhd IH]. simpl.
    rewrite (IHhd He), (IHe IH Hf).
    by destruct e.
  - simpl. intros Hf.
    apply andb_true_iff in Hf as [Hf Hall]. apply andb_true_iff in Hf as [Hnd Hkeys].
    apply bool_decide_eq_true in Hnd, Hkeys.
    assert (map (fun kv : jsstring * jsval => (kv.1, stringified kv.2)) props = props)
      as ->.
    { clear Hnd Hkeys.
      induction props as [|[k v] props IHp]; [done|].
      simpl in Hall. apply andb_true_iff in Hall as [Hv Hall].
      apply Forall_cons in IH as [IHhd IH]. simpl in *.
      by rewrite (IHhd Hv), (IHp IH Hall). }
    f_equal. apply written_faithful; [done|done|].
    clear -Hall. induction props as [|[k v] props IHp]; [constructor|].
    simpl in Hall. apply andb_true_iff in Hall as [Hv Hall].
    constructor; [by apply faithful_defined | by apply IHp].
Qed.

(** X8. The answer of the upstream service is passed on when it is a
    success: whatever its status from 200 to 299, the response has the
    status 200 and the headers of a JSON response, its body is the text
    [JSON.stringify] gives for the JSON value of the answer, and nothing is
    written to the console. What the reader of the response gets is the
    value which that text denotes: the value of the answer itself where it
    is written as it is, and [null] for a number that is not finite, as the
    one a numeral beyond the range of the numbers is parsed to. When the
    answer is a success whose body is no JSON, the response is the 500 of
    an internal error. *)
Theorem onRequestPost_relays (context : Context) (data : jsval) (target : jsstring)
    (response : Fetched) :
  method (request context) <> lit "OPTIONS" ->
  let apiKey := GOOGLE_PAGESPEED_API_KEY (env context) in
  ToBoolean apiKey = true ->
  json (request context) = Ok data -> data <> JNull -> data <> JUndefined ->
  ToBoolean (field data (lit "url")) = true ->
  googleApiUrl (field data (lit "url")) apiKey
    (default_to (JStr (lit "desktop")) (field data (lit "strategy")))
    (default_to (JArr [JStr (lit "performance"); JStr (lit "accessibility");
                       JStr (lit "best-practices"); JStr (lit "seo")])
       (field data (lit "categories"))) = Ok target ->
  fetch target = Ok response -> ok response = true ->
  (forall answer, fetched_json response = Ok answer ->
     let relayed := {| body := Some answer; status := 200; headers := jsonHeaders |} in
     onRequestPost fetch context = (Ok relayed, [Fetch target])
     /\ (answer <> JUndefined -> received relayed = Ok (stringified answer))
     /\ (faithful answer = true -> received relayed = Ok answer)
     /\ (forall s, answer = JNum (S754_infinity s) -> received relayed = Ok JNull)
     /\ (forall s, answer = JArr [JNum (S754_infinity s)] ->
         received relayed = Ok (JArr [JNull])))
  /\ (forall e, fetched_json response = Throw e ->
        onRequestPost fetch context =
          (Ok (error_of (lit "Internal server error") 500), [Fetch target; ConsoleError])).
Proof.
  intros Hm apiKey Hk Hd Hnull Hundef Hurl Htarget Hf Hok.
  rewrite (onRequestPost_try fetch context Hm).
  rewrite (try_block_fetches fetch context data target Hk Hd Hnull Hundef Hurl Htarget).
  rewrite Hf, io_bind_pair, Hok. simpl negb. cbv iota.
  split.
  - intros answer -> relayed. rewrite io_bind_Ok.
    split; [reflexivity|]. split; [|split; [|split]].
    + intros Hdef. unfold received, relayed. cbn [body]. by destruct answer.
    + intros Hfaith. unfold received, relayed. cbn [body].
      rewrite (stringified_faithful answer Hfaith). by destruct answer.
    + by intros s ->.
    + by intros s ->.
  - intros e ->. rewrite io_bind_Throw. reflexivity.
Qed.

(** X9. The request of the widget, taken by the handler: the one address
    asked is that of the PageSpeed service with the encoded address, the
    credential, the strategy [mobile] and the four categories of the
    widget, so the strategy [desktop] that the handler has for a request
    without one is not used. An address that cannot be encoded gives the
    500 of an internal error, and nothing is asked; an address without
    surrogate code units can be encoded. *)
Theorem widget_request_upstream (context : Context) (targetUrl k : jsstring) :
  method (request context) <> lit "OPTIONS" ->
  GOOGLE_PAGESPEED_API_KEY (env context) = JStr k -> k <> [] ->
  json (request context) = Ok (request_body targetUrl) -> targetUrl <> [] ->
  (forall u, URI.encodeURIComponent targetUrl = Ok u ->
     fetches (onRequestPost fetch context).2 =
       [runPagespeed ++ u ++ lit "&key=" ++ k
        ++ lit "&strategy=mobile&category=performance&category=accessibility&category=best-practices&category=seo"])
  /\ (forall e, URI.encodeURIComponent targetUrl = Throw e ->
        onRequestPost fetch context =
          (Ok (error_of (lit "Internal server error") 500), [ConsoleError]))
  /\ (Forall (fun c => URI.lead c = false /\ URI.trail c = false) targetUrl ->
      returns (URI.encodeURIComponent targetUrl)).
Proof.
  intros Hm Hkey Hk Hd Hurl.
  assert (ToBoolean (JStr k) = true) as Hkt by (by destruct k).
  assert (ToBoolean (JStr targetUrl) = true) as Hut by (by destruct targetUrl).
  rewrite (onRequestPost_try fetch context Hm).
  split; [|split; [|apply encodeURIComponent_total]].
  - intros u Hu.
    set (target := runPagespeed ++ u ++ lit "&key=" ++ k
        ++ lit "&strategy=mobile&category=performance&category=accessibility&category=best-practices&category=seo").
    assert (fetches (try_block fetch context).2 = [target]) as Hlog.
    { rewrite (try_block_fetches fetch context (request_body targetUrl) target);
        rewrite ?Hkey; try done.
      - unfold io_bind at 1.
        destruct (fetch target) as [response|e]; [|reflexivity].
        destruct (negb (ok response)).
        + unfold io_bind at 1.
          destruct (errorMessage _ _) as [message|e];
            [rewrite io_bind_Ok | rewrite io_bind_Throw]; reflexivity.
        + destruct (fetched_json response) as [data'|e];
            [rewrite io_bind_Ok | rewrite io_bind_Throw]; reflexivity.
      - change (field (request_body targetUrl) (lit "url")) with (JStr targetUrl).
        unfold googleApiUrl. cbn [ToString bind]. rewrite Hu. cbn [bind]. reflexivity. }
    destruct (try_block fetch context) as [[response|e] log]; [exact Hlog|].
    cbn [snd] in *. by rewrite fetches_snoc.
  - intros e He. unfold try_block. rewrite Hkey, Hkt, Hd. simpl negb. cbv iota.
    rewrite io_bind_Ok.
    change (Get (request_body targetUrl) (lit "url")) with (Ok (JStr targetUrl)).
    rewrite io_bind_Ok.
    change (Get (request_body targetUrl) (lit "strategy")) with (Ok (JStr (lit "mobile"))).
    rewrite io_bind_Ok.
    change (Get (request_body targetUrl) (lit "categories")) with (Ok requestedCategories).
    rewrite io_bind_Ok. rewrite Hut. simpl negb. cbv iota.
    unfold googleApiUrl. cbn [ToString bind]. rewrite He. cbn [bind].
    rewrite io_bind_Throw. reflexivity.
Qed.
End Relay.

(** ** [callLighthouseAPI] *)

Section ClientProperties.
Context `{Builtins}.
Variable fetch : jsstring -> jsval -> result Fetched.
Variable now : jsstring.

Lemma callLighthouseAPI_failed (targetUrl : jsstring) (response : Fetched) :
  fetch apiEndpoint (request_body targetUrl) = Ok response ->
  ok response = false ->
  callLighthouseAPI fetch now targetUrl =
    let errorData :=
      match fetched_json response with Ok d => d | Throw _ => JObj [] end in
    if fetched_status response =? 403 then
      Thrown (Error (lit "API key is invalid or quota exceeded. Please check your Google API key."))
    else if fetched_status response =? 429 then
      Thrown (Error (lit "API rate limit exceeded. Please try again later."))
    else
      let! message := native (upstream_message errorData) in
      let! text := native (ToString (or_else message (JStr (lit "Unknown error")))) in
      Thrown (Error (lit "API error: " ++ NumberToString (Number.of_Z (fetched_status response))
                     ++ lit " - " ++ text)).
Proof.
  intros Hf Hok. unfold callLighthouseAPI. rewrite Hf. cbn [native attempt_bind].
  rewrite Hok. reflexivity.
Qed.

(** X10. The errors of the widget for an answer that is no success: the
    status 403 gives the message of the credential and 429 that of the rate
    limit, whatever the body; another status gives [API error: ], the
    status, [ - ] and the message the body has under [error.message], or
    [Unknown error] when the body is no JSON or has no [error]. A request
    that fails throws what the request threw. *)
Theorem callLighthouseAPI_errors (targetUrl : jsstring) :
  (forall e, fetch apiEndpoint (request_body targetUrl) = Throw e ->
     callLighthouseAPI fetch now targetUrl = Thrown (Native e))
  /\ forall response,
       fetch apiEndpoint (request_body targetUrl) = Ok response ->
       ok response = false ->
       let st := fetched_status response in
       (st = 403 ->
          callLighthouseAPI fetch now targetUrl =
            Thrown (Error (lit "API key is invalid or quota exceeded. Please check your Google API key.")))
       /\ (st = 429 ->
           callLighthouseAPI fetch now targetUrl =
             Thrown (Error (lit "API rate limit exceeded. Please try again later.")))
       /\ (st <> 403 -> st <> 429 ->
           (forall e, fetched_json response = Throw e ->
              callLighthouseAPI fetch now targetUrl = Thrown (Error (unknown_error st)))
           /\ (forall props, fetched_json response = Ok (JObj props) ->
                 ToBoolean (field (JObj props) (lit "error")) = false ->
                 callLighthouseAPI fetch now targetUrl = Thrown (Error (unknown_error st)))
           /\ (forall props details message,
                 fetched_json response = Ok (JObj props) ->
                 field (JObj props) (lit "error") = JObj details ->
                 field (JObj details) (lit "message") = JStr message -> message <> [] ->
                 callLighthouseAPI fetch now targetUrl =
                   Thrown (Error (lit "API error: " ++ NumberToString (Number.of_Z st)
                                  ++ lit " - " ++ message)))).
Proof.
  split.
  { intros e He. unfold callLighthouseAPI. by rewrite He. }
  intros response Hf Hok st. rewrite (callLighthouseAPI_failed _ _ Hf Hok). fold st.
  split; [intros ->; reflexivity|]. split; [intros ->; reflexivity|].
  intros H403 H429.
  rewrite (proj2 (Z.eqb_neq _ 403) H403), (proj2 (Z.eqb_neq _ 429) H429).
  split; [|split].
  - intros e ->. reflexivity.
  - intros props -> Hfalsy. unfold upstream_message. rewrite Get_object. cbn [bind].
    destruct (field (JObj props) (lit "error")); try discriminate Hfalsy; reflexivity.
  - intros props details message -> He Hm Hne. unfold upstream_message.
    rewrite Get_object, He. cbn [bind]. rewrite Get_object, Hm.
    cbn [native attempt_bind]. unfold or_else.
    assert (ToBoolean (JStr message) = true) as -> by (by destruct message).
    reflexivity.
Qed.

(** X11. What the handler says in an error is not what the widget shows.
    When the answer the widget gets is an error response of the handler,
    a status with the body [{ error: message }], the error the widget
    throws is decided by the status alone: the widget's own message for
    403 and for 429, and [Unknown error] after another status. The text
    [message] is in none of them. *)
Theorem handler_message_not_shown (targetUrl message : jsstring) (st : Z) :
  fetch apiEndpoint (request_body targetUrl) = Ok (delivered (error_of message st)) ->
  ~ 200 <= st <= 299 ->
  callLighthouseAPI fetch now targetUrl =
    Thrown (Error
      (if st =? 403
       then lit "API key is invalid or quota exceeded. Please check your Google API key."
       else if st =? 429 then lit "API rate limit exceeded. Please try again later."
       else unknown_error st)).
Proof.
  intros Hf Hst.
  assert (ok (delivered (error_of message st)) = false) as Hok.
  { unfold ok. simpl. apply andb_false_iff.
    destruct (Z.leb_spec 200 st); [right; apply Z.leb_gt; lia | by left]. }
  rewrite (callLighthouseAPI_failed _ _ Hf Hok). simpl fetched_status.
  destruct (st =? 403); [reflexivity|]. destruct (st =? 429); [reflexivity|].
  reflexivity.
Qed.

Lemma callLighthouseAPI_succeeded (targetUrl : jsstring) (response : Fetched) (data : jsval) :
  fetch apiEndpoint (request_body targetUrl) = Ok response ->
  ok response = true -> fetched_json response = Ok data ->
  data <> JNull -> data <> JUndefined ->
  callLighthouseAPI fetch now targetUrl =
    let lighthouseResult := field data (lit "lighthouseResult") in
    if negb (ToBoolean lighthouseResult) then
      Thrown (Error (lit "No Lighthouse results returned from API"))
    else
      let categoryResults := or_else (field lighthouseResult (lit "categories")) (JObj []) in
      let audits := or_else (field lighthouseResult (lit "audits")) (JObj []) in
      let! apiRecommendations := native (extractApiRecommendations audits) in
      let! performance := native (category_score categoryResults (lit "performance")) in
      let! accessibility := native (category_score categoryResults (lit "accessibility")) in
      let! bestPractices := native (category_score categoryResults (lit "best-practices")) in
      let! seo := native (category_score categoryResults (lit "seo")) in
      let! loadingExperience := native (overall_category data (lit "loadingExperience")) in
      let! originLoadingExperience :=
        native (overall_category data (lit "originLoadingExperience")) in
      Returned {| Scores.performance := performance;
                  Scores.accessibility := accessibility;
                  Scores.bestPractices := bestPractices;
                  Scores.seo := seo;
                  Scores.url := targetUrl;
                  Scores.timestamp := now;
                  Scores.source := lit "Google PageSpeed Insights";
                  Scores.strategy := lit "mobile";
                  Scores.loadingExperience := loadingExperience;
                  Scores.originLoadingExperience := originLoadingExperience;
                  Scores.apiRecommendations := apiRecommendations |}.
Proof.
  intros Hf Hok Hd Hnull Hundef. unfold callLighthouseAPI.
  rewrite Hf. cbn [native attempt_bind]. rewrite Hok, Hd. simpl negb. cbv iota.
  cbn [native attempt_bind]. rewrite (Get_defined data) by done.
  cbn [native attempt_bind]. cbv zeta.
  destruct (ToBoolean (field data (lit "lighthouseResult"))) eqn:Et; [|reflexivity].
  simpl negb. cbv iota. rewrite !(Get_truthy _ _ Et). reflexivity.
Qed.

Lemma overall_category_defined (data : jsval) (k : jsstring) :
  data <> JNull -> data <> JUndefined ->
  overall_category data k =
    Ok (or_else (field (field data k) (lit "overall_category")) (JStr (lit "Unknown"))).
Proof.
  intros Hnull Hundef. unfold overall_category. rewrite (Get_defined data) by done.
  cbn [bind]. unfold optional_get.
  destruct (field data k) eqn:E; try reflexivity; by rewrite Get_defined.
Qed.

Lemma category_score_missing (categoryResults : jsval) (k : jsstring) :
  categoryResults <> JNull -> categoryResults <> JUndefined ->
  ToBoolean (field (field categoryResults k) (lit "score")) = false ->
  category_score categoryResults k = Ok Number.zero.
Proof.
  intros Hnull Hundef Hs. unfold category_score. rewrite Get_defined by done.
  cbn [bind]. unfold optional_get.
  assert (forall s, s = field (field categoryResults k) (lit "score") ->
          bind (Ok s) (fun s =>
            let* x := ToNumber (or_else s (JNum Number.zero)) in
            Ok (Number.round (Number.mul x Number.hundred))) = Ok Number.zero) as Hz.
  { intros s ->. cbn [bind]. unfold or_else. rewrite Hs. reflexivity. }
  destruct (field categoryResults k) eqn:E;
    first [apply Hz; reflexivity | rewrite Get_defined by done; by apply Hz].
Qed.

(** X12. The answers the widget cannot use. A success whose body is no
    JSON throws what reading it threw, and one whose body is [null] throws
    a [TypeError]; and a body without a [lighthouseResult], or with one
    that counts as false, throws the error [No Lighthouse results returned
    from API], whatever else it has. *)
Theorem callLighthouseAPI_no_result (targetUrl : jsstring) (response : Fetched) :
  fetch apiEndpoint (request_body targetUrl) = Ok response ->
  ok response = true ->
  (forall e, fetched_json response = Throw e ->
     callLighthouseAPI fetch now targetUrl = Thrown (Native e))
  /\ (fetched_json response = Ok JNull ->
      callLighthouseAPI fetch now targetUrl = Thrown (Native TypeError))
  /\ (forall data, fetched_json response = Ok data ->
        data <> JNull -> data <> JUndefined ->
        ToBoolean (field data (lit "lighthouseResult")) = false ->
        callLighthouseAPI fetch now targetUrl =
          Thrown (Error (lit "No Lighthouse results returned from API"))).
Proof.
  intros Hf Hok. split; [|split].
  - intros e He. unfold callLighthouseAPI. rewrite Hf. cbn [native attempt_bind].
    rewrite Hok, He. reflexivity.
  - intros He. unfold callLighthouseAPI. rewrite Hf. cbn [native attempt_bind].
    rewrite Hok, He. reflexivity.
  - intros data Hd Hnull Hundef Hlr.
    rewrite (callLighthouseAPI_succeeded _ _ _ Hf Hok Hd Hnull Hundef). cbv zeta.
    by rewrite Hlr.
Qed.

(** X13. What is missing in a result counts as nothing. Of a result with
    a [lighthouseResult] whose [categories] and [audits] are missing, or
    count as false, the widget makes the scores 0 in the four categories,
    each of the colour [poor], and no recommendation; the address is the
    one asked for, the strategy [mobile], and a loading experience that is
    not reported is [Unknown]. *)
Theorem callLighthouseAPI_defaults (targetUrl : jsstring) (response : Fetched)
    (data : jsval) :
  fetch apiEndpoint (request_body targetUrl) = Ok response ->
  ok response = true -> fetched_json response = Ok data ->
  data <> JNull -> data <> JUndefined ->
  let lighthouseResult := field data (lit "lighthouseResult") in
  ToBoolean lighthouseResult = true ->
  ToBoolean (field lighthouseResult (lit "categories")) = false ->
  ToBoolean (field lighthouseResult (lit "audits")) = false ->
  callLighthouseAPI fetch now targetUrl =
    Returned {| Scores.performance := Number.zero;
                Scores.accessibility := Number.zero;
                Scores.bestPractices := Number.zero;
                Scores.seo := Number.zero;
                Scores.url := targetUrl;
                Scores.timestamp := now;
                Scores.source := lit "Google PageSpeed Insights";
                Scores.strategy := lit "mobile";
                Scores.loadingExperience :=
                  or_else (field (field data (lit "loadingExperience"))
                             (lit "overall_category")) (JStr (lit "Unknown"));
                Scores.originLoadingExperience :=
                  or_else (field (field data (lit "originLoadingExperience"))
                             (lit "overall_category")) (JStr (lit "Unknown"));
                Scores.apiRecommendations := no_recommendations |}
  /\ getScoreColor (JNum Number.zero) = Ok poor
  /\ (ToBoolean (field data (lit "loadingExperience")) = false ->
      or_else (field (field data (lit "loadingExperience")) (lit "overall_category"))
        (JStr (lit "Unknown")) = JStr (lit "Unknown")).
Proof.
  intros Hf Hok Hd Hnull Hundef lighthouseResult Hlr Hc Ha.
  split; [|split].
  - rewrite (callLighthouseAPI_succeeded _ _ _ Hf Hok Hd Hnull Hundef). cbv zeta.
    fold lighthouseResult. rewrite Hlr. simpl negb. cbv iota.
    unfold or_else at 1 2 3 4 5. rewrite Hc, Ha.
    change (extractApiRecommendations (JObj [])) with (Ok no_recommendations).
    cbn [native attempt_bind].
    rewrite !category_score_missing by done. cbn [native attempt_bind].
    rewrite !overall_category_defined by done. reflexivity.
  - reflexivity.
  - intros Hle. unfold or_else.
    destruct (field data (lit "loadingExperience")); try discriminate Hle; reflexivity.
Qed.
End ClientProperties.

(** ** The rows of the results *)

Lemma click_consistent (c : category) (st : Results) :
  (forall c', row st c' =
     if decide (expandedCategory st = Some c') then expanded_row else collapsed_row) ->
  forall c', row (click c st) c' =
    if decide (expandedCategory (click c st) = Some c') then expanded_row else collapsed_row.
Proof.
  intros Hst c'. unfold click.
  destruct (expandedCategory st) as [prev|] eqn:Ep.
  - destruct (decide (Some prev = Some c)) as [[= ->]|Hne]; cbn [row expandedCategory].
    + rewrite decide_True by done. unfold set_row.
      destruct (decide (c' = c)) as [->|Hc]; [by rewrite decide_False|].
      rewrite decide_False by done. rewrite Hst. by rewrite decide_False by congruence.
    + rewrite decide_False by congruence. unfold set_row.
      destruct (decide (c' = c)) as [->|Hc]; [by rewrite decide_True|].
      rewrite (decide_False (P := Some c = Some c')) by congruence.
      destruct (decide (c' = prev)) as [->|Hp]; [done|].
      rewrite Hst. by rewrite decide_False by congruence.
  - rewrite decide_False by done. cbn [row expandedCategory]. unfold set_row.
    destruct (decide (c' = c)) as [->|Hc]; [by rewrite decide_True|].
    rewrite (decide_False (P := Some c = Some c')) by congruence.
    rewrite Hst. by rewrite decide_False.
Qed.

Lemma clicks_snoc (cs : list category) (c : category) :
  clicks (cs ++ [c]) = click c (clicks cs).
Proof. unfold clicks. by rewrite foldl_app. Qed.

Lemma clicks_rows (cs : list category) (c : category) :
  row (clicks cs) c =
    if decide (expandedCategory (clicks cs) = Some c) then expanded_row else collapsed_row.
Proof.
  revert c. induction cs as [|c0 cs IH] using rev_ind; [done|].
  rewrite clicks_snoc. by apply click_consistent.
Qed.

(** X14. After any clicks on the rows, the page and the variable
    [expandedCategory] agree: a row is as the handler leaves an expanded
    row when its category is the one the variable holds, and as it leaves a
    collapsed row otherwise, in its suggestions, its icon and its class
    together. So at most one row is expanded. *)
Theorem clicks_one_expanded (cs : list category) :
  (forall c, row (clicks cs) c =
     if decide (expandedCategory (clicks cs) = Some c) then expanded_row else collapsed_row)
  /\ (forall c c', expanded (row (clicks cs) c) = true ->
        expanded (row (clicks cs) c') = true -> c = c').
Proof.
  split; [apply clicks_rows|].
  intros c c'. rewrite !clicks_rows.
  destruct (decide (expandedCategory (clicks cs) = Some c)) as [E|_]; [|discriminate].
  destruct (decide (expandedCategory (clicks cs) = Some c')) as [E'|_]; [|discriminate].
  intros _ _. congruence.
Qed.

(** X15. What a click does, after any clicks before it: on the row that
    is expanded, it collapses it and no row is expanded; on another row, it
    expands that row and every other row is collapsed. *)
Theorem click_toggles (cs : list category) (c : category) :
  (expandedCategory (clicks cs) = Some c ->
   expandedCategory (clicks (cs ++ [c])) = None
   /\ forall c', row (clicks (cs ++ [c])) c' = collapsed_row)
  /\ (expandedCategory (clicks cs) <> Some c ->
      expandedCategory (clicks (cs ++ [c])) = Some c
      /\ forall c', row (clicks (cs ++ [c])) c' =
           if decide (c' = c) then expanded_row else collapsed_row).
Proof.
  assert (expandedCategory (clicks (cs ++ [c])) =
            if decide (expandedCategory (clicks cs) = Some c) then None else Some c) as He.
  { rewrite clicks_snoc. unfold click.
    by destruct (decide (expandedCategory (clicks cs) = Some c)). }
  split; intros Hc.
  - rewrite decide_True in He by done. split; [exact He|].
    intros c'. rewrite clicks_rows, He. by rewrite decide_False.
  - rewrite decide_False in He by done. split; [exact He|].
    intros c'. rewrite clicks_rows, He.
    destruct (decide (c' = c)) as [->|Hne]; [by rewrite decide_True|].
    by rewrite decide_False by congruence.
Qed.

Lemma click_toggles_witness :
  expandedCategory (clicks [Seo; Performance; Performance]) = None
  /\ expandedCategory (clicks [Seo; Performance]) = Some Performance.
Proof.
  split.
  - apply (proj1 (click_toggles [Seo; Performance] Performance)). reflexivity.
  - apply (proj2 (click_toggles [Seo] Performance)). discriminate.
Defined.

(** ** The form *)

Lemma trim_last (s : jsstring) (c : N) :
  last (JsString.trim s) = Some c -> JsString.is_space c = false.
Proof. unfold JsString.trim. rewrite last_reverse. apply drop_while_head. Qed.

Lemma trim_head (s : jsstring) (c : N) :
  head (JsString.trim s) = Some c -> JsString.is_space c = false.
Proof.
  unfold JsString.trim. rewrite head_reverse. intros Hc.
  apply (drop_while_head JsString.is_space s).
  rewrite <- last_reverse.
  destruct (drop_while_split JsString.is_space
              (reverse (JsString.drop_while JsString.is_space s))) as (a & Ha & _).
  rewrite Ha. apply last_app_Some. by left.
Qed.

Lemma trim_fixed (s : jsstring) :
  (forall c, head s = Some c -> JsString.is_space c = false) ->
  (forall c, last s = Some c -> JsString.is_space c = false) ->
  JsString.trim s = s.
Proof.
  intros Hh Hl. rewrite trim_clean_end by exact Hl. by apply drop_while_id.
Qed.

Lemma trim_empty (s : jsstring) :
  JsString.trim s = [] <-> Forall (fun c => JsString.is_space c = true) s.
Proof.
  split.
  - intros Ht. destruct (trim_split s) as (a & b & Hs & Ha & Hb).
    rewrite Ht in Hs. rewrite Hs. simpl. by apply Forall_app.
  - intros Hall. unfold JsString.trim.
    assert (JsString.drop_while JsString.is_space s = []) as ->; [|done].
    unfold JsString.drop_while.
    by rewrite <- (app_nil_r s), (span_all_app JsString.is_space s []).
Qed.

Lemma startsWith_app (p s : jsstring) : startsWith p (p ++ s) = true.
Proof.
  unfold startsWith. apply bool_decide_eq_true. exists s. by apply strip_prefix_Some.
Qed.

Lemma startsWith_prefix (p s : jsstring) : startsWith p s = true <-> p `prefix_of` s.
Proof.
  unfold startsWith. rewrite bool_decide_eq_true. split.
  - intros [r Hr]. exists r. by apply strip_prefix_Some.
  - intros [r Hr]. exists r. by apply strip_prefix_Some.
Qed.

Section FormProperties.
Variable URL_parses : jsstring -> bool.

(** X16. The address the form goes on to analyze. It is the text of the
    input without the white space around it, and that text is not empty.
    When the text begins with [http://] or with [https://] the address is
    the text as it is, and nothing is put before it; when it begins with
    neither, the address is [https://] and then the text. So the address
    always begins with one of the two, the parser of addresses has taken
    it, and entered in the form again it is taken as it is. *)
Theorem submit_address (value url : jsstring) :
  submit URL_parses value = Analyze url ->
  let text := JsString.trim value in
  (exists a b, value = a ++ text ++ b
     /\ Forall (fun c => JsString.is_space c = true) a
     /\ Forall (fun c => JsString.is_space c = true) b)
  /\ (forall c, head text = Some c -> JsString.is_space c = false)
  /\ (forall c, last text = Some c -> JsString.is_space c = false)
  /\ text <> []
  /\ (lit "http://" `prefix_of` text \/ lit "https://" `prefix_of` text -> url = text)
  /\ (~ lit "http://" `prefix_of` text -> ~ lit "https://" `prefix_of` text ->
      url = lit "https://" ++ text)
  /\ (url = JsString.trim value \/ url = lit "https://" ++ JsString.trim value)
  /\ (lit "http://" `prefix_of` url \/ lit "https://" `prefix_of` url)
  /\ (startsWith (lit "http://") url = true \/ startsWith (lit "https://") url = true)
  /\ URL_parses url = true
  /\ submit URL_parses url = Analyze url.
Proof.
  intros Hsub text. revert Hsub. unfold submit at 1. cbv zeta. fold text.
  set (t := text).
  destruct (negb (ToBoolean (JStr t))) eqn:Et; [discriminate|].
  assert (t <> []) as Hne by (intros E; by rewrite E in Et).
  set (u := if negb (startsWith (lit "http://") t) && negb (startsWith (lit "https://") t)
            then lit "https://" ++ t else t).
  destruct (URL_parses u) eqn:Ep; [|discriminate]. intros [= <-].
  assert (startsWith (lit "http://") u = true \/ startsWith (lit "https://") u = true)
    as Hs.
  { subst u. destruct (startsWith (lit "http://") t) eqn:E1; [by left|].
    destruct (startsWith (lit "https://") t) eqn:E2; [by right|].
    right. apply startsWith_app. }
  assert (JsString.trim u = u) as Hfix.
  { apply trim_fixed.
    - intros c Hc. subst u.
      destruct (negb (startsWith (lit "http://") t) && negb (startsWith (lit "https://") t));
        [by injection Hc as <- | by apply (trim_head value)].
    - intros c Hc. apply (trim_last value). fold text. fold t. subst u.
      destruct (negb (startsWith (lit "http://") t) && negb (startsWith (lit "https://") t));
        [|done].
      rewrite last_app in Hc. destruct (last t) eqn:El; [done|].
      apply last_None in El. done. }
  split; [exact (trim_split value)|].
  split; [exact (trim_head value)|].
  split; [exact (trim_last value)|].
  split; [exact Hne|].
  split.
  { intros Hp. subst u.
    assert (startsWith (lit "http://") t = true \/ startsWith (lit "https://") t = true)
      as [-> | ->]; [|done|by rewrite andb_false_r].
    destruct Hp as [Hp|Hp]; [left|right]; by apply startsWith_prefix. }
  split.
  { intros H1 H2. subst u.
    rewrite <- startsWith_prefix in H1, H2.
    apply not_true_is_false in H1, H2. by rewrite H1, H2. }
  split.
  { subst u. destruct (negb _ && negb _); [by right | by left]. }
  split.
  { destruct Hs as [Hs|Hs]; [left|right]; by apply startsWith_prefix. }
  split; [exact Hs|]. split; [exact Ep|].
  unfold submit. rewrite Hfix.
  assert (ToBoolean (JStr u) = true) as ->.
  { destruct u; [|done]. destruct Hs as [Hs|Hs]; discriminate Hs. }
  simpl negb. cbv iota.
  assert (negb (startsWith (lit "http://") u) && negb (startsWith (lit "https://") u) = false)
    as ->.
  { destruct Hs as [-> | ->]; [done|]. apply andb_false_r. }
  by rewrite Ep.
Qed.

(** X17. The form asks for an address exactly when there is none: the
    alert [Please enter a website URL] is shown if and only if the text of
    the input is empty or white space only, whatever the parser of
    addresses would say, and nothing is analyzed then. *)
Theorem submit_empty (value : jsstring) :
  submit URL_parses value = Alert (lit "Please enter a website URL")
  <-> Forall (fun c => JsString.is_space c = true) value.
Proof.
  rewrite <- trim_empty. unfold submit.
  destruct (JsString.trim value) as [|c t] eqn:Et.
  - done.
  - simpl negb. cbv iota. split; [|discriminate].
    destruct (URL_parses _); intros [=].
Qed.
End FormProperties.

Lemma submit_address_witness :
  submit any_address (lit "  http://example.com ") = Analyze (lit "http://example.com")
  /\ lit "http://example.com" = JsString.trim (lit "  http://example.com ")
  /\ lit "https://example.com" = lit "https://" ++ JsString.trim (lit "  example.com ").
Proof.
  split; [reflexivity|]. split.
  - apply (submit_address any_address (lit "  http://example.com ")
             (lit "http://example.com") eq_refl).
    left. exists (lit "example.com"). reflexivity.
  - apply (submit_address any_address (lit "  example.com ") (lit "https://example.com")
             eq_refl).
    + intros [k Hk]. discriminate Hk.
    + intros [k Hk]. discriminate Hk.
Defined.

Lemma submit_empty_witness :
  submit any_address (lit "   ") = Alert (lit "Please enter a website URL").
Proof.
  apply (proj2 (submit_empty any_address (lit "   "))).
  repeat constructor.
Defined.

(** ** The credential *)

Lemma io_bind_fst {A B : Type} (m : io A) (k : A -> io B) :
  (io_bind m k).1 = match m.1 with Ok a => (k a).1 | Throw e => Throw e end.
Proof. destruct m as [[a|e] log]; [|done]. simpl. by destruct (k a). Qed.

Section Credential.
Context `{Builtins}.

Lemma onRequestPost_fst (fetch : jsstring -> result Fetched) (context : Context) :
  (onRequestPost fetch context).1 =
    if bool_decide (method (request context) = lit "OPTIONS")
    then Ok {| body := None; status := 200; headers := corsHeaders |}
    else match (try_block fetch context).1 with
         | Ok response => Ok response
         | Throw _ => Ok (error_of (lit "Internal server error") 500)
         end.
Proof.
  destruct (decide (method (request context) = lit "OPTIONS")) as [Hm|Hm].
  - rewrite (onRequestPost_options fetch context Hm). by rewrite bool_decide_eq_true_2.
  - rewrite (onRequestPost_try fetch context Hm), bool_decide_eq_false_2 by done.
    by destruct (try_block fetch context) as [[response|e] log].
Qed.

(** X18. The credential goes into the address asked and into nothing
    else. Take one request under two credentials, both set: if the
    upstream service answers the addresses that differ in the credential
    alike, the handler gives the same response under both. *)
Theorem onRequestPost_hides_key (fetch fetch' : jsstring -> result Fetched)
    (context context' : Context) (k k' : jsstring) :
  request context = request context' ->
  GOOGLE_PAGESPEED_API_KEY (env context) = JStr k -> k <> [] ->
  GOOGLE_PAGESPEED_API_KEY (env context') = JStr k' -> k' <> [] ->
  (forall u rest,
     fetch (runPagespeed ++ u ++ lit "&key=" ++ k ++ rest)
     = fetch' (runPagespeed ++ u ++ lit "&key=" ++ k' ++ rest)) ->
  (onRequestPost fetch context).1 = (onRequestPost fetch' context').1.
Proof.
  intros Hreq Hk Hne Hk' Hne' Hsame. rewrite !onRequestPost_fst, <- Hreq.
  destruct (bool_decide (method (request context) = lit "OPTIONS")); [done|].
  assert ((try_block fetch context).1 = (try_block fetch' context').1) as ->; [|done].
  unfold try_block. rewrite <- Hreq, Hk, Hk'.
  assert (ToBoolean (JStr k) = true) as -> by (by destruct k).
  assert (ToBoolean (JStr k') = true) as -> by (by destruct k').
  simpl negb. cbv iota.
  destruct (json (request context)) as [data|e];
    [rewrite !io_bind_Ok | by rewrite !io_bind_Throw].
  destruct (Get data (lit "url")) as [url|e];
    [rewrite !io_bind_Ok | by rewrite !io_bind_Throw].
  destruct (Get data (lit "strategy")) as [strategy|e];
    [rewrite !io_bind_Ok | by rewrite !io_bind_Throw].
  destruct (Get data (lit "categories")) as [categories|e];
    [rewrite !io_bind_Ok | by rewrite !io_bind_Throw].
  destruct (negb (ToBoolean url)); [done|].
  unfold googleApiUrl.
  destruct (ToString url) as [u0|e]; cbn [bind]; [|by rewrite !io_bind_Throw].
  destruct (URI.encodeURIComponent u0) as [u|e]; cbn [bind]; [|by rewrite !io_bind_Throw].
  cbn [ToString bind].
  destruct (ToString _) as [s|e]; cbn [bind]; [|by rewrite !io_bind_Throw].
  destruct (join_categories _) as [c|e]; cbn [bind]; [|by rewrite !io_bind_Throw].
  rewrite !io_bind_Ok, !io_bind_fst. cbn [fst].
  change (lit "https://www.googleapis.com/pagespeedonline/v5/runPagespeed?url=")
    with runPagespeed.
  rewrite (Hsame u (lit "&strategy=" ++ s ++ lit "&category=" ++ c)).
  destruct (fetch' _) as [response|e]; [|done].
  destruct (negb (ok response)); [|by rewrite !io_bind_fst].
  by rewrite !io_bind_fst.
Qed.
End Credential.

(** ** The size of the result *)

Section Size.
Context `{Builtins}.

Lemma chunks_length {A : Type} (ids : list A) (chunks : list (list Recommendation)) :
  Forall2 (fun _ recs => (length recs <= 1)%nat) ids chunks ->
  (length (concat chunks) <= length ids)%nat.
Proof.
  induction 1 as [|a recs ids chunks Hl _ IH]; [done|].
  simpl. rewrite length_app. lia.
Qed.

(** X19. The result is never longer than the lists: when the extractor
    returns, each sequence has at most as many objects as the list of its
    category has identifiers, at most 18, 13, 8 and 11. *)
Theorem extract_bounded (props : list (jsstring * jsval)) (r : Recommendations) :
  extractApiRecommendations (JObj props) = Ok r ->
  (forall c, (length (sequence_of c r) <= length (allowlist c))%nat)
  /\ (length (performance r) <= 18)%nat
  /\ (length (accessibility r) <= 13)%nat
  /\ (length (bestPractices r) <= 8)%nat
  /\ (length (seo r) <= 11)%nat.
Proof.
  intros Hr.
  assert (forall c, (length (sequence_of c r) <= length (allowlist c))%nat) as Hb.
  { intros c. destruct (extract_sequences _ _ Hr c) as (chunks & Hall & ->).
    apply chunks_length. eapply Forall2_impl; [exact Hall|].
    intros auditId recs Hp. simpl in Hp.
    apply pushed_shape in Hp as [->|(rec & -> & _)]; simpl; lia. }
  split; [exact Hb|].
  split; [exact (Hb Performance)|]. split; [exact (Hb Accessibility)|].
  split; [exact (Hb BestPractices)|exact (Hb Seo)].
Qed.
End Size.

(** ** Examples *)

Lemma clicks_one_expanded_witness :
  row (clicks [Seo; Performance]) Seo = collapsed_row
  /\ forall c, expanded (row (clicks [Seo; Performance]) c) = true -> c = Performance.
Proof.
  split.
  - by rewrite (proj1 (clicks_one_expanded [Seo; Performance])).
  - intros c Hc.
    by apply (proj2 (clicks_one_expanded [Seo; Performance]) c Performance Hc).
Defined.

Lemma extract_reads_allowlists_witness :
  extractApiRecommendations (H := example_host) (JObj audits_other)
  = extractApiRecommendations (H := example_host) (JObj audits_example).
Proof.
  apply (extract_reads_allowlists (H := example_host)).
  intros c auditId Hin.
  destruct c; simpl in Hin;
    repeat (destruct Hin as [<-|Hin]; [by vm_compute|]); destruct Hin.
Defined.

Lemma extract_pushes_everywhere_witness :
  exists r rec,
    extractApiRecommendations (H := example_host) (JObj audits_example) = Ok r
    /\ recommendation (H := example_host) (lit "label")
         (field (JObj audits_example) (lit "label")) = Ok rec
    /\ In rec (sequence_of Accessibility r).
Proof.
  destruct (extractApiRecommendations (H := example_host) (JObj audits_example))
    as [r|e] eqn:Er; [|by vm_compute in Er].
  destruct (extract_pushes_everywhere (H := example_host) audits_example r Accessibility
              (lit "label") Er) as (rec & Hrec & Hin).
  - simpl. tauto.
  - intros [Hs|[Hs|[Hs|[Hs|Hs]]]]; vm_compute in Hs;
      first [discriminate Hs | by apply Hs].
  - exists r, rec. split; [reflexivity|]. split; [exact Hrec | exact Hin].
Defined.

Lemma extract_bounded_witness :
  exists r,
    extractApiRecommendations (H := example_host) (JObj audits_example) = Ok r
    /\ (length (accessibility r) <= 13)%nat.
Proof.
  destruct (extractApiRecommendations (H := example_host) (JObj audits_example))
    as [r|e] eqn:Er; [|by vm_compute in Er].
  exists r. split; [reflexivity|].
  exact (proj1 (proj2 (proj2 (extract_bounded (H := example_host) audits_example r Er)))).
Defined.

Lemma onRequestPost_asks_upstream_witness :
  exists u rest,
    example_target = runPagespeed ++ u ++ lit "&key=" ++ rest
    /\ Forall (fun c => separator c = false) u.
Proof.
  apply (onRequestPost_asks_upstream (H := example_host) example_upstream example_context).
  vm_compute. by left.
Defined.

Lemma onRequestPost_relays_witness :
  onRequestPost (H := example_host) example_upstream example_context =
    (Ok {| body := Some example_answer; status := 200; headers := jsonHeaders |},
     [Fetch example_target])
  /\ received {| body := Some example_answer; status := 200; headers := jsonHeaders |}
     = Ok example_answer.
Proof.
  destruct (proj1 (onRequestPost_relays (H := example_host) example_upstream example_context
                     (request_body (lit "https://x.test")) example_target
                     {| fetched_status := 200; fetched_json := Ok example_answer |}
                     ltac:(discriminate) eq_refl eq_refl ltac:(discriminate)
                     ltac:(discriminate) eq_refl eq_refl eq_refl eq_refl)
              example_answer eq_refl) as (Hr & _ & Hf & _).
  split; [exact Hr | exact (Hf eq_refl)].
Defined.

Lemma widget_request_upstream_witness :
  fetches (onRequestPost (H := example_host) example_upstream example_context).2
  = [example_target].
Proof.
  apply (proj1 (widget_request_upstream (H := example_host) example_upstream
                  example_context (lit "https://x.test") (lit "secret")
                  ltac:(discriminate) eq_refl ltac:(discriminate) eq_refl
                  ltac:(discriminate))).
  reflexivity.
Defined.

Lemma onRequestPost_hides_key_witness :
  (onRequestPost (H := example_host) example_upstream example_context).1
  = (onRequestPost (H := example_host) example_upstream
       {| request := request example_context;
          env := {| GOOGLE_PAGESPEED_API_KEY := JStr (lit "other") |} |}).1.
Proof.
  apply (onRequestPost_hides_key (H := example_host) example_upstream example_upstream
           example_context
           {| request := request example_context;
              env := {| GOOGLE_PAGESPEED_API_KEY := JStr (lit "other") |} |}
           (lit "secret") (lit "other") eq_refl eq_refl
           ltac:(discriminate) eq_refl ltac:(discriminate)).
  reflexivity.
Defined.

Lemma callLighthouseAPI_errors_witness :
  callLighthouseAPI (H := example_host)
    (fun _ _ => Ok {| fetched_status := 403; fetched_json := Throw SyntaxError |})
    (lit "2026-01-01T00:00:00.000Z") (lit "https://x.test")
  = Thrown (Error (lit "API key is invalid or quota exceeded. Please check your Google API key.")).
Proof.
  apply (proj2 (callLighthouseAPI_errors (H := example_host) _ _ (lit "https://x.test"))
           {| fetched_status := 403; fetched_json := Throw SyntaxError |}
           eq_refl eq_refl).
  reflexivity.
Defined.

Lemma handler_message_not_shown_witness :
  callLighthouseAPI (H := example_host)
    (fun _ _ => Ok (delivered (error_of (lit "API key not configured") 500)))
    (lit "2026-01-01T00:00:00.000Z") (lit "https://x.test")
  = Thrown (Error (unknown_error (H := example_host) 500)).
Proof.
  apply (handler_message_not_shown (H := example_host) _ _ (lit "https://x.test")
           (lit "API key not configured") 500 eq_refl).
  lia.
Defined.

Lemma callLighthouseAPI_no_result_witness :
  callLighthouseAPI (H := example_host)
    (fun _ _ => Ok {| fetched_status := 200; fetched_json := Ok (JObj []) |})
    (lit "2026-01-01T00:00:00.000Z") (lit "https://x.test")
  = Thrown (Error (lit "No Lighthouse results returned from API")).
Proof.
  apply (proj2 (proj2 (callLighthouseAPI_no_result (H := example_host) _ _
                         (lit "https://x.test")
                         {| fetched_status := 200; fetched_json := Ok (JObj []) |}
                         eq_refl eq_refl))
           (JObj []) eq_refl ltac:(discriminate) ltac:(discriminate) eq_refl).
Defined.

Lemma callLighthouseAPI_defaults_witness :
  exists scores,
    callLighthouseAPI (H := example_host)
      (fun _ _ => Ok {| fetched_status := 200; fetched_json := Ok example_answer |})
      (lit "2026-01-01T00:00:00.000Z") (lit "https://x.test") = Returned scores
    /\ Scores.seo scores = Number.zero
    /\ Scores.loadingExperience scores = JStr (lit "Unknown")
    /\ Scores.apiRecommendations scores = no_recommendations.
Proof.
  eexists. split.
  - apply (proj1 (callLighthouseAPI_defaults (H := example_host) _ _ (lit "https://x.test")
                    {| fetched_status := 200; fetched_json := Ok example_answer |}
                    example_answer eq_refl eq_refl eq_refl ltac:(discriminate)
                    ltac:(discriminate) eq_refl eq_refl eq_refl)).
  - split; [reflexivity|]. split; reflexivity.
Defined.

(** ** [getImpactLevel] outside of the scores from 0 to 1 *)

Lemma ltb_numerator (x y : spec_float) :
  Number.valid x = true -> Number.valid y = true ->
  finite x = true -> finite y = true ->
  Number.ltb x y = true <-> numerator x < numerator y.
Proof.
  intros Hx Hy Fx Fy. unfold Number.ltb, SFltb.
  rewrite (compare_numerator x y Hx Hy Fx Fy).
  unfold Z.lt. destruct (numerator x ?= numerator y); split; intros E.
  all: first [reflexivity | discriminate E].
Qed.

Lemma numerator_half :
  Number.valid Number.half = true /\ finite Number.half = true
  /\ numerator Number.half * 2 = Z.pos Number.denominator.
Proof.
  split; [by vm_compute|]. split; [by vm_compute|].
  rewrite half_eq. unfold numerator.
  rewrite denominator_pow, (pow2_split 1021 53 1074) by lia.
  change (-53 + 1074) with 1021. change (2 ^ 53) with 9007199254740992.
  remember (2 ^ 1021) as P. clear. lia.
Qed.

Section ImpactOutside.
Context `{Builtins}.

(** X20. The impact level of the numbers that are no score from 0 to 1.
    A negative number gives [Medium], as does the negative infinity; a
    number from 1 on gives [Low], as do the positive infinity, NaN and
    [undefined]; and the negative zero gives [High], as the zero does. *)
Theorem getImpactLevel_outside (x : spec_float) (q : Q) :
  Number.valid x = true -> Number.to_Q x = Some q ->
  ((q < 0)%Q -> getImpactLevel (JNum x) = Ok Medium)
  /\ ((1 <= q)%Q -> getImpactLevel (JNum x) = Ok Low)
  /\ getImpactLevel (JNum (S754_zero true)) = Ok High
  /\ getImpactLevel (JNum (S754_infinity true)) = Ok Medium
  /\ getImpactLevel (JNum (S754_infinity false)) = Ok Low
  /\ getImpactLevel (JNum Number.nan) = Ok Low
  /\ getImpactLevel JUndefined = Ok Low.
Proof.
  intros Hv Hq. pose proof (to_Q_numerator _ _ Hq) as [Fx ->].
  destruct numerator_half as (Vh & Fh & Nh).
  pose proof (ltb_numerator _ _ Hv Vh Fx Fh) as Hlt.
  pose proof (Pos2Z.is_pos Number.denominator) as Hd.
  rewrite !getImpactLevel_number. unfold Qlt, Qle. cbn [Qnum Qden].
  split; [|split; [|repeat split]].
  - intros Hneg.
    assert (Number.eqb x Number.zero = false) as ->.
    { rewrite zero_eq. destruct x as [s| | |s m e]; try discriminate Fx;
        [|by destruct s].
      exfalso. simpl in Hneg. clear -Hneg. lia. }
    assert (Number.ltb x Number.half = true) as ->; [|reflexivity].
    apply Hlt. remember (numerator x) as n. remember (numerator Number.half) as h.
    remember (Z.pos Number.denominator) as d. clear -Hneg Nh Hd. lia.
  - intros Hone.
    assert (Number.eqb x Number.zero = false) as ->.
    { rewrite zero_eq. destruct x as [s| | |s m e]; try discriminate Fx;
        [|by destruct s].
      exfalso. simpl in Hone. remember (Z.pos Number.denominator) as d.
      clear -Hone Hd. lia. }
    destruct (Number.ltb x Number.half) eqn:E; [|reflexivity].
    exfalso. assert (numerator x < numerator Number.half) as Hx by (by apply Hlt).
    remember (numerator x) as n.
    remember (numerator Number.half) as h. remember (Z.pos Number.denominator) as d.
    clear -Hone Nh Hd Hx. lia.
Qed.
End ImpactOutside.

Lemma getImpactLevel_outside_witness :
  getImpactLevel (H := example_host) (JNum (Number.of_Z (-1))) = Ok Medium.
Proof.
  refine (proj1 (getImpactLevel_outside (H := example_host) (Number.of_Z (-1))
                   (- 2 ^ 1074 # Number.denominator) eq_refl eq_refl) _).
  by vm_compute.
Defined.

(** ** The widget on the answers of the PageSpeed service *)

Lemma optional_get_field (v : jsval) (k : jsstring) : optional_get v k = Ok (field v k).
Proof. destruct v; try reflexivity; by rewrite Get_defined. Qed.

Section ClientTotality.
Context `{Builtins}.
Variable fetch : jsstring -> jsval -> result Fetched.
Variable now : jsstring.

Lemma category_score_returns (categoryResults : jsval) (k : jsstring) :
  ToBoolean categoryResults = true ->
  primitive (field (field categoryResults k) (lit "score")) ->
  returns (category_score categoryResults k).
Proof.
  intros Ht Hp. unfold category_score. rewrite (Get_truthy _ _ Ht). cbn [bind].
  rewrite optional_get_field. cbn [bind].
  assert (primitive (or_else (field (field categoryResults k) (lit "score"))
                       (JNum Number.zero))) as Hp'.
  { unfold or_else.
    by destruct (ToBoolean (field (field categoryResults k) (lit "score"))). }
  destruct (ToNumber_primitive _ Hp') as [x ->]. by eexists.
Qed.

Lemma shaped_returns (props : list (jsstring * jsval)) :
  shaped (JObj props) -> returns (extractApiRecommendations (JObj props)).
Proof.
  intros Hs. apply extract_returns. intros c auditId Hin.
  apply pushed_returns. by apply (Hs c).
Qed.

(** X21. The widget takes every answer of the shape the PageSpeed
    service gives. When the answer is a success with a [lighthouseResult]
    whose audits are an object with entries as in C8, or are missing, and
    whose categories have scores that are no arrays and no objects, the
    call returns: the recommendations are those the extractor makes of the
    audits, the address is the one asked for, and the strategy is
    [mobile]. *)
Theorem callLighthouseAPI_returns (targetUrl : jsstring) (response : Fetched)
    (data : jsval) (audits : list (jsstring * jsval)) :
  fetch apiEndpoint (request_body targetUrl) = Ok response ->
  ok response = true -> fetched_json response = Ok data ->
  data <> JNull -> data <> JUndefined ->
  let lighthouseResult := field data (lit "lighthouseResult") in
  let categoryResults := or_else (field lighthouseResult (lit "categories")) (JObj []) in
  ToBoolean lighthouseResult = true ->
  or_else (field lighthouseResult (lit "audits")) (JObj []) = JObj audits ->
  shaped (JObj audits) ->
  (forall k, primitive (field (field categoryResults k) (lit "score"))) ->
  exists scores,
    callLighthouseAPI fetch now targetUrl = Returned scores
    /\ extractApiRecommendations (JObj audits) = Ok (Scores.apiRecommendations scores)
    /\ Scores.url scores = targetUrl
    /\ Scores.strategy scores = lit "mobile"
    /\ Scores.timestamp scores = now.
Proof.
  intros Hf Hok Hd Hnull Hundef lighthouseResult categoryResults Hlr Ha Hs Hc.
  rewrite (callLighthouseAPI_succeeded _ _ _ _ _ Hf Hok Hd Hnull Hundef). cbv zeta.
  fold lighthouseResult. rewrite Hlr. simpl negb. cbv iota. rewrite Ha.
  destruct (shaped_returns audits Hs) as [r ->]. cbn [native attempt_bind].
  fold categoryResults.
  assert (ToBoolean categoryResults = true) as Hct.
  { unfold categoryResults, or_else.
    by destruct (ToBoolean (field lighthouseResult (lit "categories"))) eqn:E. }
  destruct (category_score_returns categoryResults (lit "performance") Hct (Hc _)) as [p ->].
  destruct (category_score_returns categoryResults (lit "accessibility") Hct (Hc _)) as [a ->].
  destruct (category_score_returns categoryResults (lit "best-practices") Hct (Hc _))
    as [b ->].
  destruct (category_score_returns categoryResults (lit "seo") Hct (Hc _)) as [s ->].
  cbn [native attempt_bind].
  rewrite !(overall_category_defined data) by done. cbn [native attempt_bind].
  eexists. split; [reflexivity|]. cbn. done.
Qed.
End ClientTotality.

Lemma callLighthouseAPI_returns_witness :
  exists scores,
    callLighthouseAPI (H := example_host) (example_api example_result) example_now
      (lit "https://x.test") = Returned scores
    /\ Scores.url scores = lit "https://x.test".
Proof.
  destruct (callLighthouseAPI_returns (H := example_host) (example_api example_result)
              example_now (lit "https://x.test")
              {| fetched_status := 200; fetched_json := Ok example_result |}
              example_result audits_example eq_refl eq_refl eq_refl
              ltac:(discriminate) ltac:(discriminate) eq_refl eq_refl)
    as (scores & Hs & _ & Hu & _).
  - intros c auditId Hin.
    destruct c; simpl in Hin;
      repeat (destruct Hin as [<-|Hin]; [by vm_compute|]); destruct Hin.
  - intros k. exact I.
  - exists scores. split; [exact Hs | exact Hu].
Defined.

(** ** [createResultsHTML] *)

Lemma part_of_refl (s : jsstring) : part_of s s.
Proof. exists [], []. by rewrite app_nil_r. Qed.

Lemma part_of_trans (a b c : jsstring) : part_of a b -> part_of b c -> part_of a c.
Proof.
  intros (p1 & q1 & ->) (p2 & q2 & ->). exists (p2 ++ p1), (q1 ++ q2).
  by rewrite <- !app_assoc.
Qed.

Lemma part_of_skip (a needle rest : jsstring) :
  part_of needle rest -> part_of needle (a ++ rest).
Proof. intros (p & q & ->). exists (a ++ p), q. by rewrite <- app_assoc. Qed.

Lemma part_of_cons (c : N) (needle rest : jsstring) :
  part_of needle rest -> part_of needle (c :: rest).
Proof. apply (part_of_skip [c]). Qed.

Lemma part_of_left (needle a rest : jsstring) :
  part_of needle a -> part_of needle (a ++ rest).
Proof. intros (p & q & ->). exists p, (q ++ rest). by rewrite <- !app_assoc. Qed.

Section ResultsHTMLProperties.
Context `{Builtins}.

Lemma map_join_part {A : Type} (f : A -> result jsstring) (l : list A) (joined : jsstring)
    (a : A) :
  map_join f l = Ok joined -> In a l ->
  exists part, f a = Ok part /\ part_of part joined.
Proof.
  revert joined. induction l as [|b l IH]; intros joined Hj Hin; [destruct Hin|].
  simpl in Hj. destruct (f b) as [s|] eqn:Eb; [|discriminate]. cbn [bind] in Hj.
  destruct (map_join f l) as [t|]; [|discriminate]. cbn [bind] in Hj.
  injection Hj as <-. destruct Hin as [<-|Hin].
  - exists s. split; [exact Eb|]. apply part_of_left, part_of_refl.
  - destruct (IH t eq_refl Hin) as (part & Hp & Hin'). exists part.
    split; [exact Hp|]. by apply part_of_skip.
Qed.

Lemma forEach_entry_part (results : Scores.t)
    (entries : list (category * (jsstring * jsstring))) (html0 html : jsstring) :
  forEach_entry results entries html0 = Ok html ->
  part_of html0 html
  /\ forall c info, In (c, info) entries ->
       exists added, result_html results c info = Ok added /\ part_of added html.
Proof.
  revert html0. induction entries as [|[c0 info0] entries IH]; intros html0 Hh.
  - injection Hh as <-. split; [apply part_of_refl|]. intros c info [].
  - simpl in Hh. destruct (result_html results c0 info0) as [added|] eqn:Ea; [|discriminate].
    cbn [bind] in Hh. destruct (IH _ Hh) as [Hpart Hall]. split.
    + eapply part_of_trans; [|exact Hpart]. apply part_of_left, part_of_refl.
    + intros c info [[= <- <-]|Hin]; [|by apply Hall].
      exists added. split; [done|]. eapply part_of_trans; [|exact Hpart].
      apply part_of_skip, part_of_refl.
Qed.

Lemma scoreDescriptions_keys (c : category) : exists info, In (c, info) scoreDescriptions.
Proof. destruct c; eexists; simpl; eauto 10. Qed.
End ResultsHTMLProperties.

Lemma Ok_inj {A : Type} (a b : A) : Ok a = Ok b -> a = b.
Proof. by intros [=]. Qed.

Lemma part_of_join (a Y P X : jsstring) :
  a `suffix_of` P -> Y `prefix_of` X -> part_of (a ++ Y) (P ++ X).
Proof.
  intros [pre ->] [post ->]. exists pre, post. by rewrite <- !app_assoc.
Qed.

Section RecommendationHTML.
Context `{Builtins}.

(** The texts of a recommendation are in its HTML as they are. *)
Lemma recommendation_html_title (rec : Recommendation) (part t : jsstring) :
  recommendation_html rec = Ok part -> title rec = JStr t ->
  part_of (title_element t) part.
Proof.
  intros Hp Ht. unfold recommendation_html in Hp. rewrite Ht in Hp.
  cbn [ToString bind] in Hp.
  destruct (ToString (description rec)) as [d|]; [|discriminate]. cbn [bind] in Hp.
  destruct (if ToBoolean (learnMoreUrl rec) then _ else _) as [l|]; [|discriminate].
  cbn [bind] in Hp.
  destruct (if ToBoolean (displayValue rec) then _ else _) as [v|]; [|discriminate].
  cbn [bind] in Hp. apply Ok_inj in Hp. subst part.
  repeat lazymatch goal with
    | |- part_of _ (_ ++ JsString.dquote
                      :: lit "lighthouse-widget__recommendation-title" ++ _) => fail
    | |- part_of _ (_ :: _) => apply part_of_cons
    | |- part_of _ (_ ++ _) => apply part_of_skip
    end.
  unfold title_element. apply part_of_join.
  - apply (bool_decide_unpack _). by vm_compute.
  - apply prefix_cons, prefix_app, prefix_cons, prefix_app, prefix_app, prefix_app_r.
    apply (bool_decide_unpack _). by vm_compute.
Qed.

Lemma recommendation_html_description (rec : Recommendation) (part d : jsstring) :
  recommendation_html rec = Ok part -> description rec = JStr d ->
  part_of (description_element d) part.
Proof.
  intros Hp Hd. unfold recommendation_html in Hp. rewrite Hd in Hp.
  destruct (ToString (title rec)) as [t|]; [|discriminate].
  cbn [ToString bind] in Hp.
  destruct (if ToBoolean (learnMoreUrl rec) then _ else _) as [l|]; [|discriminate].
  cbn [bind] in Hp.
  destruct (if ToBoolean (displayValue rec) then _ else _) as [v|]; [|discriminate].
  cbn [bind] in Hp. apply Ok_inj in Hp. subst part.
  repeat lazymatch goal with
    | |- part_of _ (_ ++ JsString.dquote
                      :: lit "lighthouse-widget__recommendation-description" ++ _) => fail
    | |- part_of _ (_ :: _) => apply part_of_cons
    | |- part_of _ (_ ++ _) => apply part_of_skip
    end.
  unfold description_element. apply part_of_join.
  - apply (bool_decide_unpack _). by vm_compute.
  - apply prefix_cons, prefix_app, prefix_cons, prefix_app, prefix_app, prefix_app_r.
    apply (bool_decide_unpack _). by vm_compute.
Qed.

Lemma recommendation_html_link (rec : Recommendation) (part u : jsstring) :
  recommendation_html rec = Ok part -> learnMoreUrl rec = JStr u -> u <> [] ->
  part_of (link_beginning u) part.
Proof.
  intros Hp Hu Hne. unfold recommendation_html in Hp. rewrite Hu in Hp.
  assert (ToBoolean (JStr u) = true) as Hb by (by destruct u). rewrite Hb in Hp.
  destruct (ToString (title rec)) as [t|]; [|discriminate]. cbn [bind] in Hp.
  destruct (ToString (description rec)) as [d|]; [|discriminate].
  cbn [ToString bind] in Hp.
  destruct (if ToBoolean (displayValue rec) then _ else _) as [v|]; [|discriminate].
  cbn [bind] in Hp. apply Ok_inj in Hp. subst part.
  repeat lazymatch goal with
    | |- part_of _ ((_ ++ JsString.dquote :: u ++ _) ++ _) => fail
    | |- part_of _ (_ :: _) => apply part_of_cons
    | |- part_of _ (_ ++ _) => apply part_of_skip
    end.
  apply part_of_left. unfold link_beginning. apply part_of_join.
  - apply (bool_decide_unpack _). by vm_compute.
  - apply prefix_cons, prefix_app, prefix_cons, prefix_app_r. done.
Qed.
End RecommendationHTML.

Section ResultsHTMLTexts.
Context `{Builtins}.

Lemma map_join_concat {A : Type} (f : A -> result jsstring) (l : list A) (joined : jsstring) :
  map_join f l = Ok joined ->
  exists parts, Forall2 (fun a part => f a = Ok part) l parts /\ joined = concat parts.
Proof.
  revert joined. induction l as [|a l IH]; intros joined Hj.
  - apply Ok_inj in Hj. subst joined. by exists [].
  - simpl in Hj. destruct (f a) as [s|] eqn:Ea; [|discriminate]. cbn [bind] in Hj.
    destruct (map_join f l) as [t|]; [|discriminate]. cbn [bind] in Hj.
    apply Ok_inj in Hj. subst joined. destruct (IH t eq_refl) as (parts & Hall & ->).
    exists (s :: parts). split; [by constructor | done].
Qed.

Ltac row_part :=
  repeat lazymatch goal with
    | |- part_of _ (_ ++ JsString.dquote :: lit "lighthouse-widget__result-row" ++ _) => fail
    | |- part_of _ (_ :: _) => apply part_of_cons
    | |- part_of _ (_ ++ _) => apply part_of_skip
    end;
  unfold row_beginning; apply part_of_join;
  [ apply (bool_decide_unpack _); by vm_compute
  | apply prefix_cons, prefix_app, prefix_cons, prefix_app, prefix_cons, prefix_app,
      prefix_cons, prefix_app_r;
    apply (bool_decide_unpack _); by vm_compute ].

(** What [result_html] adds for a category: the beginning of its row, and
    then the list of its recommendations or the part of a category
    without one. *)
Lemma result_html_parts (results : Scores.t) (c : category) (info : jsstring * jsstring)
    (added : jsstring) :
  result_html results c info = Ok added ->
  let recommendations := sequence_of c (Scores.apiRecommendations results) in
  part_of (row_beginning c) added
  /\ (recommendations = [] -> part_of (no_recommendations_html info) added)
  /\ (recommendations <> [] ->
      exists list, map_join recommendation_html recommendations = Ok list
                   /\ part_of list added).
Proof.
  intros Ha. cbv zeta. unfold result_html in Ha.
  remember (sequence_of c (Scores.apiRecommendations results)) as recommendations eqn:Er.
  clear Er.
  destruct (getScoreColor _) as [color|]; [|discriminate]. cbn [bind] in Ha.
  destruct recommendations as [|rec recs].
  - change (0 <? length (@nil Recommendation))%nat with false in Ha. cbv iota in Ha.
    cbn [bind] in Ha. apply Ok_inj in Ha. subst added.
    split; [row_part|]. split; [|done]. intros _.
    repeat lazymatch goal with
      | |- part_of _ (no_recommendations_html info ++ _) => fail
      | |- part_of _ (_ :: _) => apply part_of_cons
      | |- part_of _ (_ ++ _) => apply part_of_skip
      end.
    apply part_of_left, part_of_refl.
  - change (0 <? length (rec :: recs))%nat with true in Ha. cbv iota in Ha.
    destruct (recommendations_html (rec :: recs)) as [suggestions|] eqn:Es; [|discriminate].
    cbn [bind] in Ha. apply Ok_inj in Ha. subst added.
    split; [row_part|]. split; [done|]. intros _.
    unfold recommendations_html in Es.
    destruct (map_join recommendation_html (rec :: recs)) as [list|]; [|discriminate].
    cbn [bind] in Es. apply Ok_inj in Es. subst suggestions.
    exists list. split; [done|].
    repeat lazymatch goal with
      | |- part_of _ ((_ ++ _) ++ _) => fail
      | |- part_of _ (_ :: _) => apply part_of_cons
      | |- part_of _ (_ ++ _) => apply part_of_skip
      end.
    apply part_of_left.
    repeat lazymatch goal with
      | |- part_of _ (list ++ _) => fail
      | |- part_of _ (_ :: _) => apply part_of_cons
      | |- part_of _ (_ ++ _) => apply part_of_skip
      end.
    apply part_of_left, part_of_refl.
Qed.

(** X22. The HTML of the results has the texts of the recommendations
    as they are: for every recommendation of the results, its title is the
    content of its [h6] element, its description that of its [p] element and
    its link the value of the [href], code unit for code unit. Nothing is
    escaped, so markup in a title, a description or a link is markup of the
    page. *)
Theorem createResultsHTML_verbatim (results : Scores.t) (html : jsstring) (c : category)
    (rec : Recommendation) :
  createResultsHTML results = Ok html ->
  In rec (sequence_of c (Scores.apiRecommendations results)) ->
  (forall t, title rec = JStr t -> part_of (title_element t) html)
  /\ (forall d, description rec = JStr d -> part_of (description_element d) html)
  /\ (forall u, learnMoreUrl rec = JStr u -> u <> [] -> part_of (link_beginning u) html).
Proof.
  intros Hh Hin.
  destruct (scoreDescriptions_keys c) as [info Hinfo].
  destruct (forEach_entry_part _ _ _ _ Hh) as [_ Hall].
  destruct (Hall c info Hinfo) as (added & Ha & Hadded).
  destruct (result_html_parts _ _ _ _ Ha) as (_ & _ & Hsome).
  destruct Hsome as (list & Hl & Hlist); [by intros E; rewrite E in Hin|].
  destruct (map_join_part _ _ _ _ Hl Hin) as (part & Hp & Hpart).
  assert (part_of part html) as Hph.
  { eapply part_of_trans; [exact Hpart|]. eapply part_of_trans; [exact Hlist|exact Hadded]. }
  split; [|split].
  - intros t Ht. eapply part_of_trans; [|exact Hph]. by eapply recommendation_html_title.
  - intros d Hd. eapply part_of_trans; [|exact Hph].
    by eapply recommendation_html_description.
  - intros u Hu Hne. eapply part_of_trans; [|exact Hph].
    by eapply recommendation_html_link.
Qed.

(** X23. What the HTML of the results has for a category: the row with
    its key as [data-category]; and then, when the category has no
    recommendation, the part that says so, and when it has some, the HTML
    of its recommendations one after the other, in their order. *)
Theorem createResultsHTML_categories (results : Scores.t) (html : jsstring) (c : category) :
  createResultsHTML results = Ok html ->
  let recommendations := sequence_of c (Scores.apiRecommendations results) in
  part_of (row_beginning c) html
  /\ (recommendations = [] ->
      exists info, In (c, info) scoreDescriptions
                   /\ part_of (no_recommendations_html info) html)
  /\ (recommendations <> [] ->
      exists parts,
        Forall2 (fun rec part => recommendation_html rec = Ok part) recommendations parts
        /\ part_of (concat parts) html).
Proof.
  intros Hh recommendations.
  destruct (scoreDescriptions_keys c) as [info Hinfo].
  destruct (forEach_entry_part _ _ _ _ Hh) as [_ Hall].
  destruct (Hall c info Hinfo) as (added & Ha & Hadded).
  destruct (result_html_parts _ _ _ _ Ha) as (Hrow & Hnone & Hsome).
  split; [|split].
  - by eapply part_of_trans.
  - intros Hn. exists info. split; [done|]. eapply part_of_trans; [|exact Hadded]. by apply Hnone.
  - intros Hs. destruct (Hsome Hs) as (list & Hl & Hlist).
    destruct (map_join_concat _ _ _ Hl) as (parts & Hparts & ->).
    exists parts. split; [done|]. by eapply part_of_trans.
Qed.
End ResultsHTMLTexts.

Lemma createResultsHTML_verbatim_witness :
  exists html,
    createResultsHTML (H := example_host) example_scores = Ok html
    /\ part_of (title_element (lit "<img src=x>")) html.
Proof.
  destruct (createResultsHTML (H := example_host) example_scores) as [html|e] eqn:Eh;
    [|by vm_compute in Eh].
  exists html. split; [reflexivity|].
  apply (proj1 (createResultsHTML_verbatim (H := example_host) example_scores html
                  Accessibility example_recommendation Eh ltac:(by left))).
  reflexivity.
Defined.

Lemma createResultsHTML_categories_witness :
  exists html,
    createResultsHTML (H := example_host) example_scores = Ok html
    /\ part_of (row_beginning Seo) html.
Proof.
  destruct (createResultsHTML (H := example_host) example_scores) as [html|e] eqn:Eh;
    [|by vm_compute in Eh].
  exists html. split; [reflexivity|].
  exact (proj1 (createResultsHTML_categories (H := example_host) example_scores html Seo Eh)).
Defined.

(** ** The listener of the form *)

Section ListenerProperties.
Context `{Builtins}.
Variable fetch : jsstring -> jsval -> result Fetched.
Variable now : jsstring.
Variable URL_parses : jsstring -> bool.
Variable toLocaleString : jsstring -> jsstring.
Variable native_message : exn -> jsstring.

Lemma analyze_thrown (settled : Z) (error : thrown) (page : Page) :
  analyze toLocaleString native_message settled (Thrown error) page =
    let preparing :=
      with_form (setLoadingState true (Some (lit "Preparing to analyze website..."))) page in
    let running := run_callback toLocaleString Running in
    let caught page :=
      with_form (setLoadingState false None)
        (alert (lit "Error: " ++ message_of native_message error) page) in
    if decide (1000 < settled) then caught (running preparing)
    else running (caught preparing).
Proof.
  unfold analyze. cbn [setTimeout]. rewrite !filter_cons, !filter_nil. cbn [fst].
  destruct (decide (1000 < settled)) as [Hlt|Hge].
  - rewrite decide_False by (intros Hn; by apply Hn). reflexivity.
  - rewrite decide_True by done. reflexivity.
Qed.

(** X24. After a failure the form is usable only if the call took more
    than a second. The listener shows the alert [Error: ] with the message
    of the error and leaves the results as they are; when the call settled
    after more than 1000 ms the button and the input are enabled at the end
    and the loading part is hidden, but when it settled in less, the timer
    of the message [Running Lighthouse analysis...] runs after the [catch],
    and the form ends with the button and the input disabled and the
    loading part shown. *)
Theorem analyze_failure (settled : Z) (error : thrown) (page : Page) :
  let final := analyze toLocaleString native_message settled (Thrown error) page in
  alerts final = alerts page ++ [lit "Error: " ++ message_of native_message error]
  /\ resultsGrid final = resultsGrid page
  /\ results_display final = results_display page
  /\ (1000 < settled ->
      submit_disabled (form final) = false /\ input_disabled (form final) = false
      /\ loading_display (form final) = lit "none")
  /\ (settled < 1000 ->
      submit_disabled (form final) = true /\ input_disabled (form final) = true
      /\ loading_display (form final) = lit "flex"
      /\ loading_text (form final) = lit "Running Lighthouse analysis...").
Proof.
  cbv zeta. rewrite analyze_thrown. cbv zeta.
  destruct (decide (1000 < settled)) as [Hlt|Hge].
  - repeat split; try reflexivity. all: intros; exfalso; lia.
  - repeat split; try reflexivity. all: intros; exfalso; lia.
Qed.

Lemma analyze_returned (settled : Z) (results : Scores.t) (page : Page) :
  analyze toLocaleString native_message settled (Returned results) page =
    let preparing :=
      with_form (setLoadingState true (Some (lit "Preparing to analyze website..."))) page in
    let running := run_callback toLocaleString Running in
    let processing :=
      with_form (setLoadingState true (Some (lit "Processing results..."))) in
    let show := run_callback toLocaleString (ShowResults results) in
    if decide (1000 < settled) then show (processing (running preparing))
    else if 1000 <=? settled + 500 then show (running (processing preparing))
    else running (show (processing preparing)).
Proof.
  unfold analyze. cbn [setTimeout]. rewrite !filter_cons, !filter_nil. cbn [fst].
  destruct (decide (1000 < settled)) as [Hlt|Hge].
  - rewrite decide_False by (intros Hn; by apply Hn). reflexivity.
  - rewrite decide_True by done. cbn [setTimeout].
    by destruct (1000 <=? settled + 500).
Qed.

(** X25. After a success the results are shown, and the form is usable
    only if the call took at least half a second. When the HTML of the
    results can be made, the grid has it, the results are displayed and
    their rows are collapsed with no category expanded; when the call
    settled after 500 ms or more (1000 ms apart) the form is enabled at the
    end, but when it settled in less, the results are shown before the
    timer of the message [Running Lighthouse analysis...] runs, and the
    form ends disabled with the loading part shown over the results. *)
Theorem analyze_success (settled : Z) (results : Scores.t) (html : jsstring) (page : Page) :
  createResultsHTML results = Ok html ->
  let final := analyze toLocaleString native_message settled (Returned results) page in
  resultsGrid final = html
  /\ results_display final = lit "block"
  /\ result_rows final = Some setupResultClickHandlers
  /\ alerts final = alerts page
  /\ (500 <= settled -> settled <> 1000 ->
      submit_disabled (form final) = false /\ input_disabled (form final) = false
      /\ loading_display (form final) = lit "none")
  /\ (settled < 500 ->
      submit_disabled (form final) = true /\ input_disabled (form final) = true
      /\ loading_display (form final) = lit "flex"
      /\ loading_text (form final) = lit "Running Lighthouse analysis...").
Proof.
  intros Hh. cbv zeta. rewrite analyze_returned. cbv zeta.
  unfold run_callback, displayResults. rewrite Hh.
  destruct (decide (1000 < settled)) as [Hlt|Hge].
  - repeat split; try reflexivity. all: intros; exfalso; lia.
  - destruct (Z.leb_spec 1000 (settled + 500)).
    + repeat split; try reflexivity. all: intros; exfalso; lia.
    + repeat split; try reflexivity. all: intros; exfalso; lia.
Qed.

Lemma message_of_unknown (st : Z) :
  message_of native_message (Error (unknown_error st)) = unknown_error st.
Proof. reflexivity. Qed.

(** X26. The widget before a handler that answers with an error of its
    own, in less than a second: for a text of the input that the form
    takes, and an answer with a status that is no success, not 403 and not
    429, and the body [{ error: message }], the user is shown the alert
    [Error: API error: ], the status and [ - Unknown error], without the
    text [message], and the form ends disabled. *)
Theorem listener_handler_error (value url message : jsstring) (st settled : Z)
    (page : Page) :
  submit URL_parses value = Analyze url ->
  fetch apiEndpoint (request_body url) = Ok (delivered (error_of message st)) ->
  ~ 200 <= st <= 299 -> st <> 403 -> st <> 429 -> settled < 1000 ->
  let final :=
    listener fetch now URL_parses toLocaleString native_message value settled page in
  alerts final = alerts page ++ [lit "Error: " ++ unknown_error st]
  /\ submit_disabled (form final) = true
  /\ input_disabled (form final) = true.
Proof.
  intros Hs Hf Hst H403 H429 Hfast. cbv zeta. unfold listener. rewrite Hs.
  assert (ok (delivered (error_of message st)) = false) as Hok.
  { unfold ok. simpl. apply andb_false_iff.
    destruct (Z.leb_spec 200 st); [right; apply Z.leb_gt; lia | by left]. }
  rewrite (callLighthouseAPI_failed fetch now _ _ Hf Hok). simpl fetched_status.
  rewrite (proj2 (Z.eqb_neq _ 403) H403), (proj2 (Z.eqb_neq _ 429) H429).
  change (fetched_json (delivered (error_of message st)))
    with (Ok (JObj [(lit "error", JStr message)]) : result jsval).
  cbv zeta. cbv iota.
  change (upstream_message (JObj [(lit "error", JStr message)]))
    with (Ok JUndefined : result jsval).
  cbn [native attempt_bind or_else ToBoolean ToString].
  rewrite analyze_thrown. cbv zeta. rewrite decide_False by lia.
  repeat split.
Qed.
End ListenerProperties.

Lemma analyze_failure_witness :
  submit_disabled
    (form (analyze (H := example_host) (fun s => s) (fun _ => lit "Failed to fetch") 200
             (Thrown (Native TypeError)) example_page)) = true.
Proof.
  exact (proj1 (proj2 (proj2 (proj2 (proj2
    (analyze_failure (H := example_host) (fun s => s) (fun _ => lit "Failed to fetch") 200
       (Native TypeError) example_page)))) ltac:(lia))).
Defined.

Lemma analyze_success_witness :
  exists html,
    createResultsHTML (H := example_host) example_scores = Ok html
    /\ resultsGrid
         (analyze (H := example_host) (fun s => s) (fun _ => lit "Failed to fetch") 12000
            (Returned example_scores) example_page) = html.
Proof.
  destruct (createResultsHTML (H := example_host) example_scores) as [html|e] eqn:Eh;
    [|by vm_compute in Eh].
  exists html. split; [reflexivity|].
  exact (proj1 (analyze_success (H := example_host) (fun s => s)
                  (fun _ => lit "Failed to fetch") 12000 example_scores html example_page Eh)).
Defined.

Lemma listener_handler_error_witness :
  alerts
    (listener (H := example_host)
       (fun _ _ => Ok (delivered (error_of (lit "API key not configured") 500)))
       example_now any_address (fun s => s) (fun _ => lit "Failed to fetch")
       (lit "example.com") 200 example_page)
  = [lit "Error: " ++ unknown_error (H := example_host) 500].
Proof.
  exact (proj1 (listener_handler_error (H := example_host)
                  (fun _ _ => Ok (delivered (error_of (lit "API key not configured") 500)))
                  example_now any_address (fun s => s) (fun _ => lit "Failed to fetch")
                  (lit "example.com") (lit "https://example.com")
                  (lit "API key not configured") 500 200 example_page
                  eq_refl eq_refl ltac:(lia) ltac:(lia) ltac:(lia) ltac:(lia))).
Defined.
